(** * Dual-fidelity policy test harness: mock resolver, mock HTTP server,
      runner and comparator

    A shallow embedding of the Go packages [mocks] and [testrunner] and of
    the properties their specification states about them (Parts I and II),
    followed by further properties of that code and of the packages around
    it: the discovery registries, the parsing of modes, the context loaders,
    the context provider and the lookup of the control-plane binaries
    (Part III).

    Conventions of the embedding.
    - A Go [string] is a [string] of 8-bit characters.  [strings.ToLower],
      [strings.EqualFold] and [strings.TrimSpace] are modelled on the ASCII
      range, which is where kinds, modes, HTTP methods and URL paths live.
    - A Go [map] is a [gmap].  The order in which [range] visits a map is
      not specified by the language, so every loop over a map whose outcome
      can depend on the order takes the visiting order as an explicit
      argument, constrained to be a permutation of the entries of the map.
    - A Go [(T, error)] result is a [Result T]; an [error] is the text that
      its [Error()] method returns.
    - Wall-clock readings ([time.Now], [time.Since]) and the outcome of
      starting external processes are inputs, collected in a record. *)

From Stdlib Require Import ZArith Ascii String List Bool Lia.
From Stdlib Require Import Floats.SpecFloat.
From stdpp Require Import base option list gmap strings fin_maps.

(* ===================================================================== *)
(** * Part I: definitions                                                  *)
(* ===================================================================== *)

(** ** Results of fallible calls *)

Inductive Result (A : Type) : Type :=
| Ok (a : A)
| Err (msg : string).
Arguments Ok {A} a.
Arguments Err {A} msg.

Definition is_Ok {A} (r : Result A) : bool :=
  match r with Ok _ => true | Err _ => false end.

(** ** The fragment of Go's [strings] package that the code uses *)

Module GoStrings.

Definition lower_ascii (c : ascii) : ascii :=
  let n := nat_of_ascii c in
  if (65 <=? n)%nat && (n <=? 90)%nat then ascii_of_nat (n + 32) else c.

(** [strings.ToLower] *)
Fixpoint ToLower (s : string) : string :=
  match s with
  | EmptyString => EmptyString
  | String c r => String (lower_ascii c) (ToLower r)
  end.

(** [strings.EqualFold] *)
Definition EqualFold (s t : string) : bool :=
  String.eqb (ToLower s) (ToLower t).

(** [strings.HasPrefix]: [len(s) >= len(prefix) && s[:len(prefix)] == prefix] *)
Definition HasPrefix (s prefix : string) : bool :=
  (String.length prefix <=? String.length s)%nat
  && String.eqb (substring 0 (String.length prefix) s) prefix.

(** [strings.HasSuffix]:
    [len(s) >= len(suffix) && s[len(s)-len(suffix):] == suffix] *)
Definition HasSuffix (s suffix : string) : bool :=
  (String.length suffix <=? String.length s)%nat
  && String.eqb
       (substring (String.length s - String.length suffix)
                  (String.length suffix) s)
       suffix.

(** [strings.Contains]: some suffix of [s] starts with [substr] *)
Fixpoint Contains (s substr : string) : bool :=
  HasPrefix s substr
  || match s with
     | EmptyString => false
     | String _ r => Contains r substr
     end.

(** [strings.ReplaceAll] for a non-empty [old]: scan from the left, replace
    each occurrence and resume after it.  [skip] counts the characters of
    the occurrence that are still to be passed over. *)
Fixpoint replace_from (old new s : string) (skip : nat) : string :=
  match s with
  | EmptyString => EmptyString
  | String c r =>
      match skip with
      | S k => replace_from old new r k
      | O =>
          if HasPrefix s old
          then new +:+ replace_from old new r (String.length old - 1)
          else String c (replace_from old new r 0)
      end
  end.

(** With an empty [old], Go inserts [new] before every character and at
    the end. *)
Fixpoint intersperse_all (new s : string) : string :=
  match s with
  | EmptyString => new
  | String c r => new +:+ String c (intersperse_all new r)
  end.

Definition ReplaceAll (s old new : string) : string :=
  match old with
  | EmptyString => intersperse_all new s
  | _ => replace_from old new s 0
  end.

End GoStrings.

(** ** Package [testrunner]: kind to resource-name inference *)

(** [inferResourceFromKind] *)
Definition inferResourceFromKind (kind : string) : string :=
  let lower := GoStrings.ToLower kind in
  if GoStrings.HasSuffix lower "y" && (1 <? String.length lower)%nat
     && negb (GoStrings.HasSuffix lower "ay")
     && negb (GoStrings.HasSuffix lower "ey")
     && negb (GoStrings.HasSuffix lower "oy")
  then substring 0 (String.length lower - 1) lower +:+ "ies"
  else if GoStrings.HasSuffix lower "s" || GoStrings.HasSuffix lower "x"
  then lower +:+ "es"
  else lower +:+ "s".

(** The three rules as the specification words them, on the lower-cased
    kind: no condition on the length. *)
Definition inferResourceFromKind_spec (kind : string) : string :=
  let lower := GoStrings.ToLower kind in
  if GoStrings.HasSuffix lower "y"
     && negb (GoStrings.HasSuffix lower "ay")
     && negb (GoStrings.HasSuffix lower "ey")
     && negb (GoStrings.HasSuffix lower "oy")
  then substring 0 (String.length lower - 1) lower +:+ "ies"
  else if GoStrings.HasSuffix lower "s" || GoStrings.HasSuffix lower "x"
  then lower +:+ "es"
  else lower +:+ "s".

(** [s] ends in [suffix]. *)
Definition EndsIn (s suffix : string) : Prop := exists p, s = p +:+ suffix.

(** When the first rule applies to a lower-cased kind, in the words of the
    specification: it ends in [y] and in none of [ay], [ey], [oy]. *)
Definition y_rule_spec (lower : string) : Prop :=
  EndsIn lower "y" /\ ~ EndsIn lower "ay" /\ ~ EndsIn lower "ey" /\ ~ EndsIn lower "oy".

(** When the code applies it: the kind also has more than one character. *)
Definition y_rule_code (lower : string) : Prop :=
  (1 < String.length lower)%nat /\ y_rule_spec lower.

(** The three rules, for a given reading of when the first one applies. *)
Definition plural_rules (y_rule : string -> Prop) (kind result : string) : Prop :=
  let lower := GoStrings.ToLower kind in
  (y_rule lower -> exists stem, lower = stem +:+ "y" /\ result = stem +:+ "ies")
  /\ (~ y_rule lower -> EndsIn lower "s" \/ EndsIn lower "x" -> result = lower +:+ "es")
  /\ (~ y_rule lower -> ~ EndsIn lower "s" -> ~ EndsIn lower "x" -> result = lower +:+ "s").

(** ** Package [testrunner]: modes and configuration *)

(** [TestMode] is a Go string type. *)
Definition TestMode : Type := string.
Definition ModeFast : TestMode := "fast".
Definition ModeAccurate : TestMode := "accurate".

Record TestConfig := mkTestConfig {
  Mode : TestMode;
  PolicyPaths : list string;
  ResourcePaths : list string;
  CRDPaths : list string;
  AutoFallback : bool
}.

Definition set_Mode (m : TestMode) (c : TestConfig) : TestConfig :=
  mkTestConfig m (PolicyPaths c) (ResourcePaths c) (CRDPaths c) (AutoFallback c).

(** [TestConfig.Validate]: [None] is Go's [nil] error. *)
Definition Validate (c : TestConfig) : option string :=
  if negb (String.eqb (Mode c) ModeFast) && negb (String.eqb (Mode c) ModeAccurate)
  then Some ("invalid mode: " +:+ Mode c)
  else if (List.length (PolicyPaths c) =? 0)%nat
  then Some "at least one policy path is required"
  else if (List.length (ResourcePaths c) =? 0)%nat
  then Some "at least one resource path is required"
  else None.

(** ** Resource identities and seed objects *)

Record GroupVersionResource := GVR {
  gvrGroup : string; gvrVersion : string; gvrResource : string
}.

Record GroupVersionKind := GVK {
  gvkGroup : string; gvkVersion : string; gvkKind : string
}.

#[global] Instance GroupVersionResource_eq_dec : EqDecision GroupVersionResource.
Proof. solve_decision. Defined.

#[global] Instance GroupVersionResource_countable : Countable GroupVersionResource.
Proof.
  refine (inj_countable' (fun g => (gvrGroup g, gvrVersion g, gvrResource g))
                         (fun t => GVR t.1.1 t.1.2 t.2) _).
  by intros [].
Defined.

(** An [unstructured.Unstructured] object, as far as the runner looks at
    it: its group/version/kind and its namespace and name. *)
Record Object := mkObject {
  objGroup : string;
  objVersion : string;
  objKind : string;
  objNamespace : string;
  objName : string
}.

Definition GroupVersionKind_of (o : Object) : GroupVersionKind :=
  GVK (objGroup o) (objVersion o) (objKind o).

(** ** The discovery registry of the fast backend *)

Record enhancedFakeDiscovery := mkDiscovery {
  resources : list GroupVersionResource;
  gvrToGVK : gmap GroupVersionResource GroupVersionKind
}.

(** The table [coreResources] of [newEnhancedFakeDiscovery]:
    group, version, resource, kind. *)
Definition coreResources : list (string * string * string * string) := [
  ("", "v1", "bindings", "Binding");
  ("", "v1", "componentstatuses", "ComponentStatus");
  ("", "v1", "configmaps", "ConfigMap");
  ("", "v1", "endpoints", "Endpoints");
  ("", "v1", "events", "Event");
  ("", "v1", "limitranges", "LimitRange");
  ("", "v1", "namespaces", "Namespace");
  ("", "v1", "nodes", "Node");
  ("", "v1", "persistentvolumeclaims", "PersistentVolumeClaim");
  ("", "v1", "persistentvolumes", "PersistentVolume");
  ("", "v1", "pods", "Pod");
  ("", "v1", "replicationcontrollers", "ReplicationController");
  ("", "v1", "resourcequotas", "ResourceQuota");
  ("", "v1", "secrets", "Secret");
  ("", "v1", "serviceaccounts", "ServiceAccount");
  ("", "v1", "services", "Service");
  ("apps", "v1", "controllerrevisions", "ControllerRevision");
  ("apps", "v1", "daemonsets", "DaemonSet");
  ("apps", "v1", "deployments", "Deployment");
  ("apps", "v1", "replicasets", "ReplicaSet");
  ("apps", "v1", "statefulsets", "StatefulSet");
  ("batch", "v1", "cronjobs", "CronJob");
  ("batch", "v1", "jobs", "Job");
  ("networking.k8s.io", "v1", "ingressclasses", "IngressClass");
  ("networking.k8s.io", "v1", "ingresses", "Ingress");
  ("networking.k8s.io", "v1", "networkpolicies", "NetworkPolicy");
  ("storage.k8s.io", "v1", "csidrivers", "CSIDriver");
  ("storage.k8s.io", "v1", "csinodes", "CSINode");
  ("storage.k8s.io", "v1", "csistoragecapacities", "CSIStorageCapacity");
  ("storage.k8s.io", "v1", "storageclasses", "StorageClass");
  ("storage.k8s.io", "v1", "volumeattachments", "VolumeAttachment");
  ("rbac.authorization.k8s.io", "v1", "clusterrolebindings", "ClusterRoleBinding");
  ("rbac.authorization.k8s.io", "v1", "clusterroles", "ClusterRole");
  ("rbac.authorization.k8s.io", "v1", "rolebindings", "RoleBinding");
  ("rbac.authorization.k8s.io", "v1", "roles", "Role");
  ("autoscaling", "v2", "horizontalpodautoscalers", "HorizontalPodAutoscaler");
  ("autoscaling", "v1", "horizontalpodautoscalers", "HorizontalPodAutoscaler");
  ("policy", "v1", "poddisruptionbudgets", "PodDisruptionBudget");
  ("certificates.k8s.io", "v1", "certificatesigningrequests", "CertificateSigningRequest");
  ("coordination.k8s.io", "v1", "leases", "Lease");
  ("discovery.k8s.io", "v1", "endpointslices", "EndpointSlice");
  ("node.k8s.io", "v1", "runtimeclasses", "RuntimeClass");
  ("scheduling.k8s.io", "v1", "priorityclasses", "PriorityClass");
  ("admissionregistration.k8s.io", "v1", "mutatingwebhookconfigurations", "MutatingWebhookConfiguration");
  ("admissionregistration.k8s.io", "v1", "validatingwebhookconfigurations", "ValidatingWebhookConfiguration");
  ("apiextensions.k8s.io", "v1", "customresourcedefinitions", "CustomResourceDefinition");
  ("apiregistration.k8s.io", "v1", "apiservices", "APIService");
  ("events.k8s.io", "v1", "events", "Event");
  ("flowcontrol.apiserver.k8s.io", "v1", "flowschemas", "FlowSchema");
  ("flowcontrol.apiserver.k8s.io", "v1", "prioritylevelconfigurations", "PriorityLevelConfiguration");
  ("kyverno.io", "v1", "clusterpolicies", "ClusterPolicy");
  ("kyverno.io", "v1", "policies", "Policy");
  ("kyverno.io", "v1", "clusteradmissionreports", "ClusterAdmissionReport");
  ("kyverno.io", "v1", "admissionreports", "AdmissionReport");
  ("kyverno.io", "v2", "updaterequests", "UpdateRequest");
  ("kyverno.io", "v2", "cleanuppolicies", "CleanupPolicy");
  ("kyverno.io", "v2", "clustercleanuppolicies", "ClusterCleanupPolicy");
  ("kyverno.io", "v2alpha1", "globalcontextentries", "GlobalContextEntry");
  ("wgpolicyk8s.io", "v1alpha2", "clusterpolicyreports", "ClusterPolicyReport");
  ("wgpolicyk8s.io", "v1alpha2", "policyreports", "PolicyReport")
].

Definition addCore (d : enhancedFakeDiscovery) (r : string * string * string * string)
  : enhancedFakeDiscovery :=
  let '(group, version, resource, kind) := r in
  let gvr := GVR group version resource in
  let gvk := GVK group version kind in
  mkDiscovery (resources d ++ [gvr]) (<[gvr := gvk]> (gvrToGVK d)).

Definition newEnhancedFakeDiscovery : enhancedFakeDiscovery :=
  foldl addCore (mkDiscovery [] ∅) coreResources.

(** [RegisterResource]: a resource identity that is already listed is left
    alone. *)
Definition RegisterResource (d : enhancedFakeDiscovery)
    (gvr : GroupVersionResource) (gvk : GroupVersionKind) : enhancedFakeDiscovery :=
  if existsb (fun existing => bool_decide (existing = gvr)) (resources d)
  then d
  else mkDiscovery (resources d ++ [gvr]) (<[gvr := gvk]> (gvrToGVK d)).

Definition ResourceCount (d : enhancedFakeDiscovery) : nat :=
  List.length (resources d).

(** ** The fast backend: what [Setup] registers for a seed object *)

(** The resource name computed in the first loop of [fastBackend.Setup]:
    [strings.ToLower(gvk.Kind) + "s"]. *)
Definition fastBackend_resource (kind : string) : string :=
  GoStrings.ToLower kind +:+ "s".

(** One iteration of the first loop of [fastBackend.Setup], on the
    registry: objects with an empty kind are skipped. *)
Definition fastBackend_register (d : enhancedFakeDiscovery) (obj : Object)
  : enhancedFakeDiscovery :=
  let gvk := GroupVersionKind_of obj in
  if String.eqb (gvkKind gvk) "" then d
  else
    let resource := fastBackend_resource (gvkKind gvk) in
    let gvr := GVR (gvkGroup gvk) (gvkVersion gvk) resource in
    RegisterResource d gvr gvk.

Definition fastBackend_discovery (objects : list Object) : enhancedFakeDiscovery :=
  foldl fastBackend_register newEnhancedFakeDiscovery objects.

(** ** The accurate backend: what [seedObjects] creates *)

(** One iteration of [accurateBackend.seedObjects]: the resource identity
    and the namespace on which [Create] is issued for the object (an empty
    namespace selects the cluster-scoped interface).  Errors of [Create]
    are dropped by the code. *)
Definition seedObject (u : Object) : GroupVersionResource * string :=
  let gvk := GroupVersionKind_of u in
  let resource := inferResourceFromKind (gvkKind gvk) in
  (GVR (gvkGroup gvk) (gvkVersion gvk) resource, objNamespace u).

Definition seedObjects (objects : list Object) : list (GroupVersionResource * string) :=
  map seedObject objects.

(** ** Policies, as far as the runner's stand-in evaluation reads them *)

(** A rule: its name, the kinds of [rule.MatchResources.GetKinds()], and
    the answers of [HasValidate], [HasMutate], [HasGenerate] and
    [HasVerifyImages]. *)
Record Rule := mkRule {
  Name : string;
  GetKinds : list string;
  HasValidate : bool;
  HasMutate : bool;
  HasGenerate : bool;
  HasVerifyImages : bool
}.

Record Policy := mkPolicy {
  GetName : string;
  Rules : list Rule
}.

(** ** Results and summaries *)

(** [TestResult]; the wall-clock [Duration] of a result is left out. *)
Module TestResult.
Record t := mk {
  PolicyName : string;
  RuleName : string;
  ResourceName : string;
  ResourceNamespace : string;
  ResourceKind : string;
  Status : string;
  Message : string;
  Mode : TestMode
}.
End TestResult.

(** [TestSummary]; durations are nanosecond counts ([int64]), the counters
    are Go [int]s, which cannot overflow here since each is bounded by the
    length of [Results]. *)
Module TestSummary.
Record t := mk {
  Mode : TestMode;
  SetupDuration : Z;
  EvalDuration : Z;
  TotalDuration : Z;
  Results : list TestResult.t;
  Pass : Z;
  Fail : Z;
  Warn : Z;
  Error : Z;
  Skip : Z;
  FellBack : bool;
  FallbackReason : string
}.

(** [&TestSummary{Mode: m}]: every other field has its zero value. *)
Definition new (m : TestMode) : t := mk m 0 0 0 [] 0 0 0 0 0 false "".

Definition set_Mode (m : TestMode) (s : t) : t :=
  mk m (SetupDuration s) (EvalDuration s) (TotalDuration s) (Results s)
     (Pass s) (Fail s) (Warn s) (Error s) (Skip s) (FellBack s) (FallbackReason s).

Definition set_durations (setup eval total : Z) (s : t) : t :=
  mk (Mode s) setup eval total (Results s)
     (Pass s) (Fail s) (Warn s) (Error s) (Skip s) (FellBack s) (FallbackReason s).

Definition set_Results (rs : list TestResult.t) (s : t) : t :=
  mk (Mode s) (SetupDuration s) (EvalDuration s) (TotalDuration s) rs
     (Pass s) (Fail s) (Warn s) (Error s) (Skip s) (FellBack s) (FallbackReason s).

Definition set_counts (p f w e k : Z) (s : t) : t :=
  mk (Mode s) (SetupDuration s) (EvalDuration s) (TotalDuration s) (Results s)
     p f w e k (FellBack s) (FallbackReason s).

Definition set_fallback (reason : string) (s : t) : t :=
  mk (Mode s) (SetupDuration s) (EvalDuration s) (TotalDuration s) (Results s)
     (Pass s) (Fail s) (Warn s) (Error s) (Skip s) true reason.
End TestSummary.

(** ** Backends *)

Inductive BackendVariant := fastBackend | accurateBackend.

(** The [dclient.Interface] handed to evaluation: the fake client of the
    fast backend, with its discovery registry, or the client connected to
    the control-plane process, with the create calls issued while seeding. *)
Inductive dclient :=
| fakeClient (disco : enhancedFakeDiscovery)
| realClient (seeded : list (GroupVersionResource * string)).

(** A backend: which of the two implementations of [TestBackend] it is,
    and the fields [client] and [ready] that both have.  [crdPaths] is only
    read by the accurate backend. *)
Record TestBackend := mkBackend {
  variant : BackendVariant;
  client : option dclient;
  ready : bool;
  crdPaths : list string
}.

Definition newFastBackend : TestBackend := mkBackend fastBackend None false [].

Definition newAccurateBackend (crds : list string) : TestBackend :=
  mkBackend accurateBackend None false crds.

(** What the environment decides during one run: the errors of the calls
    into the control-plane process and the client libraries ([None]: the
    call succeeds), and the three clock readings that [Run] stores. *)
Record World := mkWorld {
  envtestStart : option string;
  dynamicNewForConfig : option string;
  kubernetesNewForConfig : option string;
  realNewClient : option string;
  fakeNewClient : option string;
  envtestStop : option string;
  sinceSetupStart : Z;
  sinceEvalStart : Z;
  sinceTotalStart : Z
}.

(** [Setup]: the backend after the call and the error, if any. *)
Definition Setup (w : World) (b : TestBackend) (objects : list Object)
  : TestBackend * option string :=
  match variant b with
  | fastBackend =>
      let disco := fastBackend_discovery objects in
      match fakeNewClient w with
      | Some err => (b, Some ("failed to create fake client: " +:+ err))
      | None => (mkBackend fastBackend (Some (fakeClient disco)) true (crdPaths b), None)
      end
  | accurateBackend =>
      match envtestStart w with
      | Some err =>
          (b, Some ("failed to start envtest environment: " +:+ err
                    +:+ " (ensure envtest binaries are installed via 'setup-envtest use')"))
      | None =>
          match dynamicNewForConfig w with
          | Some err => (b, Some ("failed to create dynamic client: " +:+ err))
          | None =>
              match kubernetesNewForConfig w with
              | Some err => (b, Some ("failed to create kubernetes client: " +:+ err))
              | None =>
                  match realNewClient w with
                  | Some err => (b, Some ("failed to create dclient: " +:+ err))
                  | None =>
                      (mkBackend accurateBackend
                                 (Some (realClient (seedObjects objects))) true
                                 (crdPaths b),
                       None)
                  end
              end
          end
      end
  end.

(** [Teardown]: the fast backend always succeeds; the accurate backend
    reports a failure to stop the process and then keeps its state. *)
Definition Teardown (w : World) (b : TestBackend) : TestBackend * option string :=
  match variant b with
  | fastBackend => (mkBackend fastBackend None false (crdPaths b), None)
  | accurateBackend =>
      match envtestStop w with
      | Some err => (b, Some ("failed to stop envtest: " +:+ err))
      | None => (mkBackend accurateBackend None false (crdPaths b), None)
      end
  end.

Definition Client (b : TestBackend) : option dclient := client b.

Definition BackendMode (b : TestBackend) : TestMode :=
  match variant b with
  | fastBackend => ModeFast
  | accurateBackend => ModeAccurate
  end.

Definition IsReady (b : TestBackend) : bool := ready b.

(** ** The runner *)

Record TestRunner := mkRunner {
  config : TestConfig;
  backend : option TestBackend
}.

Definition NewTestRunner (c : TestConfig) : TestRunner := mkRunner c None.

(** [createBackend] *)
Definition createBackend (r : TestRunner) : Result TestBackend :=
  if String.eqb (Mode (config r)) ModeFast then Ok newFastBackend
  else if String.eqb (Mode (config r)) ModeAccurate
  then Ok (newAccurateBackend (CRDPaths (config r)))
  else Err ("unknown mode: " +:+ Mode (config r)).

(** [policyMatchesResource] *)
Definition policyMatchesResource (pol : Policy) (resource : Object) : bool :=
  existsb (fun rule => existsb (fun kind => String.eqb kind (objKind resource))
                               (GetKinds rule))
          (Rules pol).

(** The body of the loop of [evaluatePolicyRules]. *)
Definition evaluateRule (pol : Policy) (resource : Object) (mode : TestMode)
    (rule : Rule) : TestResult.t :=
  let result status message :=
    TestResult.mk (GetName pol) (Name rule) (objName resource)
                  (objNamespace resource) (objKind resource) status message mode in
  if HasValidate rule then
    result "pass" ("validation rule '" +:+ Name rule +:+ "' evaluated in " +:+ mode +:+ " mode")
  else if HasMutate rule then
    result "pass" ("mutation rule '" +:+ Name rule +:+ "' evaluated in " +:+ mode +:+ " mode")
  else if HasGenerate rule then
    result "pass" ("generation rule '" +:+ Name rule +:+ "' evaluated in " +:+ mode +:+ " mode")
  else if HasVerifyImages rule then
    result "pass" ("image verification rule '" +:+ Name rule +:+ "' evaluated in " +:+ mode +:+ " mode")
  else
    result "skip" "no actionable rule type".

(** [evaluatePolicyRules] *)
Definition evaluatePolicyRules (pol : Policy) (resource : Object) (mode : TestMode)
  : list TestResult.t :=
  foldl (fun results rule => results ++ [evaluateRule pol resource mode rule])
        [] (Rules pol).

(** The body of the inner loop of [evaluatePolicies]: what one policy
    appends to [results] for one resource. *)
Definition evaluatePair (b : TestBackend) (resource : Object)
    (results : list TestResult.t) (pol : Policy) : list TestResult.t :=
  if negb (policyMatchesResource pol resource) then
    results ++ [TestResult.mk (GetName pol) "" (objName resource)
                              (objNamespace resource) (objKind resource)
                              "skip" "policy does not match resource"
                              (BackendMode b)]
  else
    let ruleResults := evaluatePolicyRules pol resource (BackendMode b) in
    foldl (fun results rr => results ++ [rr]) results ruleResults.

(** [evaluatePolicies] *)
Definition evaluatePolicies (b : TestBackend) (policies : list Policy)
    (resources : list Object) : Result (list TestResult.t) :=
  match Client b with
  | None => Err "backend client is nil"
  | Some _ =>
      Ok (foldl (fun results resource => foldl (evaluatePair b resource) results policies)
                [] resources)
  end.

(** One step of the aggregation loop of [Run]. *)
Definition tally (summary : TestSummary.t) (result : TestResult.t) : TestSummary.t :=
  let '(p, f, w, e, k) :=
    (TestSummary.Pass summary, TestSummary.Fail summary, TestSummary.Warn summary,
     TestSummary.Error summary, TestSummary.Skip summary) in
  let status := TestResult.Status result in
  if String.eqb status "pass" then TestSummary.set_counts (p + 1) f w e k summary
  else if String.eqb status "fail" then TestSummary.set_counts p (f + 1) w e k summary
  else if String.eqb status "warn" then TestSummary.set_counts p f (w + 1) e k summary
  else if String.eqb status "error" then TestSummary.set_counts p f w (e + 1) k summary
  else if String.eqb status "skip" then TestSummary.set_counts p f w e (k + 1) summary
  else summary.

(** [Run] from the evaluation phase on: evaluate, aggregate, tear down.
    A teardown error is only printed. *)
Definition runPhases (w : World) (r : TestRunner) (b : TestBackend)
    (summary : TestSummary.t) (policies : list Policy) (resources : list Object)
  : TestRunner * Result TestSummary.t :=
  match evaluatePolicies b policies resources with
  | Err err => (r, Err ("policy evaluation failed: " +:+ err))
  | Ok results =>
      let summary := TestSummary.set_Results results summary in
      let summary := foldl tally summary results in
      let '(b, _) := Teardown w b in
      let summary :=
        TestSummary.set_durations (sinceSetupStart w) (sinceEvalStart w)
                                  (sinceTotalStart w) summary in
      (mkRunner (config r) (Some b), Ok summary)
  end.

(** [Run] from the call of [Setup] on, for a constructed backend. *)
Definition runSetup (w : World) (r : TestRunner) (b0 : TestBackend)
    (summary : TestSummary.t) (policies : list Policy) (resources : list Object)
  : TestRunner * Result TestSummary.t :=
  let objects := resources in
  let r := mkRunner (config r) (Some b0) in
  match Setup w b0 objects with
  | (b, None) => runPhases w (mkRunner (config r) (Some b)) b summary policies resources
  | (b, Some err) =>
      let r := mkRunner (config r) (Some b) in
      if String.eqb (Mode (config r)) ModeAccurate && AutoFallback (config r) then
        let summary := TestSummary.set_fallback err summary in
        match Setup w newFastBackend objects with
        | (_, Some err) => (r, Err ("fallback fast mode setup failed: " +:+ err))
        | (fast, None) =>
            let r := mkRunner (config r) (Some fast) in
            let summary := TestSummary.set_Mode ModeFast summary in
            runPhases w r fast summary policies resources
        end
      else (r, Err ("backend setup failed: " +:+ err))
  end.

(** The body of [Run], with the method that constructs the backend as a
    parameter; [Run] below is its instance at [createBackend].  The lines
    written to [r.out] are not modelled. *)
Definition Run_with (create : TestRunner -> Result TestBackend) (w : World)
    (r : TestRunner) (policies : list Policy) (resources : list Object)
  : TestRunner * Result TestSummary.t :=
  match Validate (config r) with
  | Some err => (r, Err ("invalid config: " +:+ err))
  | None =>
      let summary := TestSummary.new (Mode (config r)) in
      match create r with
      | Ok b => runSetup w r b summary policies resources
      | Err err =>
          if String.eqb (Mode (config r)) ModeAccurate && AutoFallback (config r) then
            let summary := TestSummary.set_fallback err summary in
            let r := mkRunner (set_Mode ModeFast (config r)) (backend r) in
            match create r with
            | Err err => (r, Err ("both accurate and fast mode setup failed: " +:+ err))
            | Ok b => runSetup w r b summary policies resources
            end
          else (r, Err ("backend setup failed: " +:+ err))
      end
  end.

(** [TestRunner.Run] *)
Definition Run (w : World) (r : TestRunner) (policies : list Policy)
    (resources : list Object) : TestRunner * Result TestSummary.t :=
  Run_with createBackend w r policies resources.

(** ** The comparator *)

Record Divergence := mkDivergence {
  Key : string;
  FastStatus : string;
  AccurateStatus : string;
  FastMessage : string;
  AccurateMsg : string
}.

(** A Go [float64] is a binary64 number of [SpecFloat]. *)
Definition float64 : Type := spec_float.

(** The conversion [float64(d)] of an [int64], rounding to nearest even. *)
Definition float64_of_int64 (d : Z) : float64 := binary_normalize 53 1024 d 0 false.

(** The division of two [float64]s. *)
Definition float64_div (x y : float64) : float64 := SFdiv 53 1024 x y.

Record ComparisonReport := mkReport {
  FastResults : TestSummary.t;
  AccurateResults : TestSummary.t;
  Matching : Z;
  Divergent : Z;
  OnlyInFast : Z;
  OnlyInAccurate : Z;
  Divergences : list Divergence;
  SpeedupFactor : float64
}.

(** The order in which a [range] loop visits the entries of a map. *)
Definition Range : Type := forall V : Type, gmap string V -> list (string * V).

(** [fmt.Sprintf("%s/%s/%s/%s", r.PolicyName, r.RuleName, r.ResourceKind,
    r.ResourceName)] *)
Definition resultKey (r : TestResult.t) : string :=
  TestResult.PolicyName r +:+ "/" +:+ TestResult.RuleName r +:+ "/"
  +:+ TestResult.ResourceKind r +:+ "/" +:+ TestResult.ResourceName r.

(** The lookup maps of [CompareResults]: a later result replaces an earlier
    one with the same key. *)
Definition resultMap (results : list TestResult.t) : gmap string TestResult.t :=
  foldl (fun m r => <[resultKey r := r]> m) ∅ results.

(** The body of the first comparison loop. *)
Definition compareFast (accurateMap : gmap string TestResult.t)
    (report : ComparisonReport) (entry : string * TestResult.t) : ComparisonReport :=
  let '(key, fastResult) := entry in
  match accurateMap !! key with
  | Some accurateResult =>
      if String.eqb (TestResult.Status fastResult) (TestResult.Status accurateResult)
      then mkReport (FastResults report) (AccurateResults report)
                    (Matching report + 1) (Divergent report) (OnlyInFast report)
                    (OnlyInAccurate report) (Divergences report) (SpeedupFactor report)
      else mkReport (FastResults report) (AccurateResults report)
                    (Matching report) (Divergent report + 1) (OnlyInFast report)
                    (OnlyInAccurate report)
                    (Divergences report
                     ++ [mkDivergence key (TestResult.Status fastResult)
                                      (TestResult.Status accurateResult)
                                      (TestResult.Message fastResult)
                                      (TestResult.Message accurateResult)])
                    (SpeedupFactor report)
  | None =>
      mkReport (FastResults report) (AccurateResults report)
               (Matching report) (Divergent report) (OnlyInFast report + 1)
               (OnlyInAccurate report) (Divergences report) (SpeedupFactor report)
  end.

(** The body of the second comparison loop. *)
Definition compareAccurate (fastMap : gmap string TestResult.t)
    (report : ComparisonReport) (entry : string * TestResult.t) : ComparisonReport :=
  match fastMap !! entry.1 with
  | Some _ => report
  | None =>
      mkReport (FastResults report) (AccurateResults report)
               (Matching report) (Divergent report) (OnlyInFast report)
               (OnlyInAccurate report + 1) (Divergences report) (SpeedupFactor report)
  end.

(** [CompareResults] *)
Definition CompareResults (range : Range) (fast accurate : TestSummary.t)
  : ComparisonReport :=
  let report := mkReport fast accurate 0 0 0 0 [] (S754_zero false) in
  let fastMap := resultMap (TestSummary.Results fast) in
  let accurateMap := resultMap (TestSummary.Results accurate) in
  let report := foldl (compareFast accurateMap) report (range _ fastMap) in
  let report := foldl (compareAccurate fastMap) report (range _ accurateMap) in
  mkReport (FastResults report) (AccurateResults report)
           (Matching report) (Divergent report) (OnlyInFast report)
           (OnlyInAccurate report) (Divergences report)
           (float64_div (float64_of_int64 (TestSummary.TotalDuration accurate))
                        (float64_of_int64 (TestSummary.TotalDuration fast))).

(** ** The fragment of Go's [regexp] package that [matchesPattern] uses *)

Module GoRegexp.

(** The characters that [regexp.QuoteMeta] escapes. *)
Definition special (c : ascii) : bool :=
  existsb (Ascii.eqb c) (list_ascii_of_string "\.+*?()|[]{}^$").

(** [regexp.QuoteMeta] *)
Fixpoint QuoteMeta (s : string) : string :=
  match s with
  | EmptyString => EmptyString
  | String c r =>
      if special c then String "\" (String c (QuoteMeta r))
      else String c (QuoteMeta r)
  end.

(** [s] without its prefix [p], when it has it. *)
Fixpoint cut_prefix (p s : string) : option string :=
  match p with
  | EmptyString => Some s
  | String a p' =>
      match s with
      | EmptyString => None
      | String b s' => if Ascii.eqb a b then cut_prefix p' s' else None
      end
  end.

(** The tail of the expression that finds the placeholders in a
    quoted pattern: one or more characters other than a closing brace,
    as many as possible, and then two escaped closing braces.  The result
    is the text after the match. *)
Fixpoint placeholder_tail (s : string) : option string :=
  match s with
  | EmptyString => None
  | String c r =>
      if Ascii.eqb c "}" then None
      else match placeholder_tail r with
           | Some rest => Some rest
           | None => cut_prefix "\}\}" r
           end
  end.

(** A match at the start of [s] of the whole expression: two escaped
    opening braces and then [placeholder_tail]. *)
Definition placeholder (s : string) : option string :=
  match cut_prefix "\{\{" s with
  | Some r => placeholder_tail r
  | None => None
  end.

(** [ReplaceAllString(s, "[^/]+")] for that expression: leftmost matches,
    not overlapping.  [skip] counts the characters of the current match
    that are still to be passed over. *)
Fixpoint replace_placeholders (s : string) (skip : nat) : string :=
  match s with
  | EmptyString => EmptyString
  | String c r =>
      match skip with
      | S k => replace_placeholders r k
      | O =>
          match placeholder s with
          | Some rest =>
              "[^/]+" +:+ replace_placeholders r (String.length s - String.length rest - 1)
          | None => String c (replace_placeholders r 0)
          end
      end
  end.

(** The expressions that [matchesPattern] compiles are sequences of
    literal characters and of the class-plus [[^/]+], between [^] and [$]. *)
Inductive node :=
| Lit (c : ascii)
| NotSlashPlus.

Fixpoint parse (s : string) : option (list node) :=
  match s with
  | String "$" EmptyString => Some []
  | String "\" (String c r) =>
      if special c then cons (Lit c) <$> parse r else None
  | String "[" (String "^" (String "/" (String "]" (String "+" r)))) =>
      cons NotSlashPlus <$> parse r
  | String c r => if special c then None else cons (Lit c) <$> parse r
  | EmptyString => None
  end.

(** [regexp.Compile] on that fragment; [None] is a compilation error. *)
Definition Compile (src : string) : option (list node) :=
  match src with
  | String "^" body => parse body
  | _ => None
  end.

(** [MatchString] for a compiled expression: both ends are anchored. *)
Fixpoint MatchString (re : list node) (s : string) : bool :=
  match re with
  | [] => String.eqb s ""
  | Lit c :: re' =>
      match s with
      | String d r => Ascii.eqb c d && MatchString re' r
      | EmptyString => false
      end
  | NotSlashPlus :: re' =>
      (fix plus (s : string) : bool :=
         match s with
         | String d r => negb (Ascii.eqb d "/") && (plus r || MatchString re' r)
         | EmptyString => false
         end) s
  end.

End GoRegexp.

(** ** Package [mocks]: configuration *)

Module APICallMock.
Record t (Value : Type) := mk {
  URLPath : string;
  Method : string;
  Response : Value
}.
Arguments mk {Value}.
Arguments URLPath {Value}.
Arguments Method {Value}.
Arguments Response {Value}.
End APICallMock.

Module GlobalContextMock.
Record t (Value : Type) := mk {
  Name : string;
  Value_ : Value
}.
Arguments mk {Value}.
Arguments Name {Value}.
Arguments Value_ {Value}.
End GlobalContextMock.

Module RequestMatcher.
Record t := mk {
  Headers : gmap string string;
  BodyPattern : string
}.
End RequestMatcher.

Module HTTPResponse.
Record t := mk {
  Status : Z;
  Headers : gmap string string;
  Body : string
}.
End HTTPResponse.

Module HTTPCallMock.
Record t := mk {
  URL : string;
  Method : string;
  RequestMatcher : option RequestMatcher.t;
  Response : HTTPResponse.t
}.
End HTTPCallMock.

Module MockConfig.
Record t (Value : Type) := mk {
  APICallMocks : list (APICallMock.t Value);
  GlobalContextMocks : list (GlobalContextMock.t Value);
  HTTPCallMocks : list HTTPCallMock.t
}.
Arguments mk {Value}.
Arguments APICallMocks {Value}.
Arguments GlobalContextMocks {Value}.
Arguments HTTPCallMocks {Value}.
Definition empty {Value} : t Value := mk [] [] [].
End MockConfig.

(** ** Package [mocks]: the mock HTTP server *)

(** A request body: a reader with the content that is still unread, or a
    reader whose [Read] fails. *)
Inductive ReadCloser :=
| Reader (unread : string)
| FailingReader (err : string).

(** [io.ReadAll]: everything unread, leaving the reader at its end. *)
Definition ReadAll (b : ReadCloser) : Result string * ReadCloser :=
  match b with
  | Reader unread => (Ok unread, Reader "")
  | FailingReader err => (Err err, b)
  end.

(** [textproto.CanonicalMIMEHeaderKey]: a key made of token characters gets
    an upper-case letter first and after each hyphen and lower-case letters
    elsewhere; any other key is left as it is.  The handler below takes the
    canonical form as a parameter; this is the one of [net/http]. *)
Definition upper_ascii (c : ascii) : ascii :=
  let n := nat_of_ascii c in
  if (97 <=? n)%nat && (n <=? 122)%nat then ascii_of_nat (n - 32) else c.

Definition validHeaderFieldByte (c : ascii) : bool :=
  let n := nat_of_ascii c in
  ((48 <=? n)%nat && (n <=? 57)%nat)
  || ((65 <=? n)%nat && (n <=? 90)%nat)
  || ((97 <=? n)%nat && (n <=? 122)%nat)
  || existsb (Ascii.eqb c) (list_ascii_of_string "!#$%&'*+-.^_`|~").

Fixpoint canonicalize (upper : bool) (s : string) : string :=
  match s with
  | EmptyString => EmptyString
  | String c r =>
      let c := if upper then upper_ascii c else GoStrings.lower_ascii c in
      String c (canonicalize (Ascii.eqb c "-") r)
  end.

Definition CanonicalMIMEHeaderKey (s : string) : string :=
  if forallb validHeaderFieldByte (list_ascii_of_string s)
  then canonicalize true s
  else s.

(** An [http.Header] with one value per field: keys are in the canonical
    form that [Get] and [Set] give to their argument. *)
Definition Header_Get (canon : string -> string) (h : gmap string string)
    (key : string) : string :=
  default "" (h !! canon key).

Definition Header_Set (canon : string -> string) (h : gmap string string)
    (key value : string) : gmap string string :=
  <[canon key := value]> h.

Module Request.
Record t := mk {
  Method : string;
  URL_String : string;
  URL_Path : string;
  Header : gmap string string;
  Body : ReadCloser
}.
Definition set_Body (b : ReadCloser) (r : t) : t :=
  mk (Method r) (URL_String r) (URL_Path r) (Header r) b.
End Request.

(** What the handler has done to its [http.ResponseWriter]: the header
    map, the status passed to [WriteHeader] and the bytes written. *)
Module ResponseWriter.
Record t := mk {
  Header : gmap string string;
  WriteHeader : option Z;
  Written : string
}.
Definition new : t := mk ∅ None "".
End ResponseWriter.

Definition StatusOK : Z := 200.
Definition StatusNotFound : Z := 404.

Record HTTPMockServer := mkHTTPMockServer {
  mocks : list HTTPCallMock.t
}.

(** [NewHTTPMockServer]; its error is always [nil]. *)
Definition NewHTTPMockServer (ms : list HTTPCallMock.t) : Result HTTPMockServer :=
  Ok (mkHTTPMockServer ms).

(** [AddMock] *)
Definition AddMock (s : HTTPMockServer) (mock : HTTPCallMock.t) : HTTPMockServer :=
  mkHTTPMockServer (mocks s ++ [mock]).

(** The request-matcher part of [matches]. *)
Definition matchesRequestMatcher (canon : string -> string)
    (m : RequestMatcher.t) (r : Request.t) : bool * Request.t :=
  if negb (forallb (fun kv => String.eqb (Header_Get canon (Request.Header r) kv.1) kv.2)
                   (map_to_list (RequestMatcher.Headers m)))
  then (false, r)
  else if negb (String.eqb (RequestMatcher.BodyPattern m) "") then
    match ReadAll (Request.Body r) with
    | (Err _, b) => (false, Request.set_Body b r)
    | (Ok body, _) =>
        let r := Request.set_Body (Reader body) r in
        if negb (GoStrings.Contains body (RequestMatcher.BodyPattern m))
        then (false, r)
        else (true, r)
    end
  else (true, r).

(** [matches]: the answer and the request, whose body may have been read
    and replaced. *)
Definition matches (canon : string -> string) (mock : HTTPCallMock.t)
    (r : Request.t) : bool * Request.t :=
  if negb (String.eqb (HTTPCallMock.Method mock) "")
     && negb (GoStrings.EqualFold (HTTPCallMock.Method mock) (Request.Method r))
  then (false, r)
  else
    let requestURL := Request.URL_String r in
    if negb (GoStrings.Contains requestURL (HTTPCallMock.URL mock))
       && negb (GoStrings.Contains (HTTPCallMock.URL mock) requestURL)
       && negb (GoStrings.Contains (Request.URL_Path r) (HTTPCallMock.URL mock))
    then (false, r)
    else
      match HTTPCallMock.RequestMatcher mock with
      | Some m => matchesRequestMatcher canon m r
      | None => (true, r)
      end.

(** The response that [handler] emits for a matching mock. *)
Definition respond (canon : string -> string) (range : Range)
    (mock : HTTPCallMock.t) (w : ResponseWriter.t) : ResponseWriter.t :=
  let response := HTTPCallMock.Response mock in
  let header :=
    foldl (fun h kv => Header_Set canon h kv.1 kv.2) (ResponseWriter.Header w)
          (range _ (HTTPResponse.Headers response)) in
  let header :=
    if String.eqb (Header_Get canon header "Content-Type") ""
    then Header_Set canon header "Content-Type" "application/json"
    else header in
  let status := HTTPResponse.Status response in
  let status := if (status =? 0)%Z then StatusOK else status in
  ResponseWriter.mk header (Some status)
                    (ResponseWriter.Written w +:+ HTTPResponse.Body response).

(** The body of the answer when no mock matches: the JSON object with the
    one field [error], whose value is the text [No mock found for request]. *)
Definition notFoundBody : string :=
  let q := String (ascii_of_nat 34) EmptyString in
  "{" +:+ q +:+ "error" +:+ q +:+ ": " +:+ q +:+ "No mock found for request" +:+ q +:+ "}".

(** The loop of [handler] over the mocks that are left. *)
Fixpoint handle (canon : string -> string) (range : Range)
    (ms : list HTTPCallMock.t) (w : ResponseWriter.t) (r : Request.t)
  : ResponseWriter.t * Request.t :=
  match ms with
  | [] =>
      (ResponseWriter.mk (ResponseWriter.Header w) (Some StatusNotFound)
                         (ResponseWriter.Written w +:+ notFoundBody),
       r)
  | mock :: rest =>
      match matches canon mock r with
      | (true, r) => (respond canon range mock w, r)
      | (false, r) => handle canon range rest w r
      end
  end.

(** [handler] *)
Definition handler (canon : string -> string) (range : Range)
    (s : HTTPMockServer) (w : ResponseWriter.t) (r : Request.t)
  : ResponseWriter.t * Request.t :=
  handle canon range (mocks s) w r.

(** ** Package [mocks]: the resolver *)

Record MockResolver (Value : Type) := mkMockResolver {
  mockConfig : MockConfig.t Value;
  apiCalls : gmap string Value;
  globalCtx : gmap string Value;
  httpServer : option HTTPMockServer
}.
Arguments mkMockResolver {Value}.
Arguments mockConfig {Value}.
Arguments apiCalls {Value}.
Arguments globalCtx {Value}.
Arguments httpServer {Value}.

(** [NewMockResolver]; [None] is a [nil] configuration. *)
Definition NewMockResolver {Value} (config : option (MockConfig.t Value))
  : Result (MockResolver Value) :=
  let config := default MockConfig.empty config in
  let apiCalls :=
    foldl (fun m mock => <[APICallMock.URLPath mock := APICallMock.Response mock]> m)
          ∅ (MockConfig.APICallMocks config) in
  let globalCtx :=
    foldl (fun m mock => <[GlobalContextMock.Name mock := GlobalContextMock.Value_ mock]> m)
          ∅ (MockConfig.GlobalContextMocks config) in
  if (0 <? List.length (MockConfig.HTTPCallMocks config))%nat then
    match NewHTTPMockServer (MockConfig.HTTPCallMocks config) with
    | Err err => Err ("failed to start HTTP mock server: " +:+ err)
    | Ok server => Ok (mkMockResolver config apiCalls globalCtx (Some server))
    end
  else Ok (mkMockResolver config apiCalls globalCtx None).

(** [substituteVariables] *)
Definition substituteVariables (range : Range) (template : string)
    (vars : gmap string string) : string :=
  foldl (fun result kv =>
           let placeholder := "{{" +:+ kv.1 +:+ "}}" in
           GoStrings.ReplaceAll result placeholder kv.2)
        template (range _ vars).

(** [matchesPattern] *)
Definition matchesPattern (pattern url : string) : bool :=
  let regexPattern := GoRegexp.QuoteMeta pattern in
  let regexPattern := GoRegexp.replace_placeholders regexPattern 0 in
  match GoRegexp.Compile ("^" +:+ regexPattern +:+ "$") with
  | None => false
  | Some regex => GoRegexp.MatchString regex url
  end.

(** [ResolveAPICall] *)
Definition ResolveAPICall {Value} (range : Range) (r : MockResolver Value)
    (urlPath : string) (vars : gmap string string) : Result Value :=
  let resolvedPath := substituteVariables range urlPath vars in
  match apiCalls r !! resolvedPath with
  | Some response => Ok response
  | None =>
      match List.find (fun kv => matchesPattern kv.1 resolvedPath)
                      (range _ (apiCalls r)) with
      | Some (_, response) => Ok response
      | None => Err ("no mock found for API call: " +:+ resolvedPath)
      end
  end.

(** [ResolveGlobalContext] *)
Definition ResolveGlobalContext {Value} (r : MockResolver Value) (name : string)
  : Result Value :=
  match globalCtx r !! name with
  | Some value => Ok value
  | None => Err ("no mock found for GlobalContextEntry: " +:+ name)
  end.

(** [HasGlobalContext] *)
Definition HasGlobalContext {Value} (r : MockResolver Value) (name : string) : bool :=
  bool_decide (is_Some (globalCtx r !! name)).

(** [AddAPICallMock] *)
Definition AddAPICallMock {Value} (r : MockResolver Value) (urlPath : string)
    (response : Value) : MockResolver Value :=
  mkMockResolver (mockConfig r) (<[urlPath := response]> (apiCalls r))
                 (globalCtx r) (httpServer r).

(** [AddGlobalContextMock] *)
Definition AddGlobalContextMock {Value} (r : MockResolver Value) (name : string)
    (value : Value) : MockResolver Value :=
  mkMockResolver (mockConfig r) (apiCalls r) (<[name := value]> (globalCtx r))
                 (httpServer r).

(** ** Statements about evaluation and aggregation *)

(** The policy has a rule whose match kinds include the kind of the
    resource. *)
Definition PolicyMatches (pol : Policy) (resource : Object) : Prop :=
  exists rule, rule ∈ Rules pol /\ objKind resource ∈ GetKinds rule.

(** The rule has one of the four actionable types. *)
Definition actionable (rule : Rule) : bool :=
  HasValidate rule || HasMutate rule || HasGenerate rule || HasVerifyImages rule.

(** The message of a [pass] result names the first type the rule has, in
    the order validate, mutate, generate, image-verify. *)
Definition type_specific (rule : Rule) (mode : TestMode) (message : string) : Prop :=
  let text word := word +:+ " rule '" +:+ Name rule +:+ "' evaluated in " +:+ mode +:+ " mode" in
  (HasValidate rule = true -> message = text "validation")
  /\ (HasValidate rule = false -> HasMutate rule = true -> message = text "mutation")
  /\ (HasValidate rule = false -> HasMutate rule = false -> HasGenerate rule = true ->
      message = text "generation")
  /\ (HasValidate rule = false -> HasMutate rule = false -> HasGenerate rule = false ->
      HasVerifyImages rule = true -> message = text "image verification").

(** The result names this policy and this resource. *)
Definition result_of_pair (pol : Policy) (resource : Object) (mode : TestMode)
    (result : TestResult.t) : Prop :=
  TestResult.PolicyName result = GetName pol
  /\ TestResult.ResourceName result = objName resource
  /\ TestResult.ResourceNamespace result = objNamespace resource
  /\ TestResult.ResourceKind result = objKind resource
  /\ TestResult.Mode result = mode.

(** The result of one rule of a matching policy. *)
Definition rule_result (pol : Policy) (resource : Object) (mode : TestMode)
    (rule : Rule) (result : TestResult.t) : Prop :=
  result_of_pair pol resource mode result
  /\ TestResult.RuleName result = Name rule
  /\ (actionable rule = true ->
      TestResult.Status result = "pass"
      /\ type_specific rule mode (TestResult.Message result))
  /\ (actionable rule = false ->
      TestResult.Status result = "skip"
      /\ TestResult.Message result = "no actionable rule type").

(** What one (policy, resource) pair contributes: one [skip] result with
    the fixed message for a policy that does not match, and one result per
    rule, in the order of the rules, for a policy that does. *)
Definition pair_results (pol : Policy) (resource : Object) (mode : TestMode)
    (results : list TestResult.t) : Prop :=
  (~ PolicyMatches pol resource ->
   exists result, results = [result]
     /\ result_of_pair pol resource mode result
     /\ TestResult.RuleName result = ""
     /\ TestResult.Status result = "skip"
     /\ TestResult.Message result = "policy does not match resource")
  /\ (PolicyMatches pol resource ->
      Forall2 (rule_result pol resource mode) (Rules pol) results).

(** The number of results with a given status. *)
Definition countStatus (status : string) (results : list TestResult.t) : Z :=
  Z.of_nat (List.length (filter (fun r => TestResult.Status r = status) results)).

(** The five counters of a summary are the histogram of its results. *)
Definition counts_are_histogram (s : TestSummary.t) : Prop :=
  TestSummary.Pass s = countStatus "pass" (TestSummary.Results s)
  /\ TestSummary.Fail s = countStatus "fail" (TestSummary.Results s)
  /\ TestSummary.Warn s = countStatus "warn" (TestSummary.Results s)
  /\ TestSummary.Error s = countStatus "error" (TestSummary.Results s)
  /\ TestSummary.Skip s = countStatus "skip" (TestSummary.Results s).

(** ** Statements about the runner *)

(** The runner with its mode switched to Fast, as the construction
    fallback leaves it. *)
Definition switchToFast (r : TestRunner) : TestRunner :=
  mkRunner (set_Mode ModeFast (config r)) (backend r).

(** The fallback policy applies to the runner: the configuration is valid,
    the mode is Accurate and auto-fallback is enabled. *)
Definition fallbackApplies (r : TestRunner) : Prop :=
  Validate (config r) = None
  /\ Mode (config r) = ModeAccurate
  /\ AutoFallback (config r) = true.

(** The summary records a fallback with the given reason. *)
Definition fellBackWith (reason : string) (s : TestSummary.t) : Prop :=
  TestSummary.FellBack s = true /\ TestSummary.FallbackReason s = reason.

(** The backend that the runner holds is a fast backend. *)
Definition holdsFastBackend (r : TestRunner) : Prop :=
  exists b, backend r = Some b /\ variant b = fastBackend.

(** ** Concrete inputs used to exercise the statements *)

(** A world in which every external call succeeds. *)
Definition calmWorld : World := mkWorld None None None None None None 1000 2000 4000.

(** A world in which the control-plane process does not start. *)
Definition noEnvtestWorld : World :=
  mkWorld (Some "fork/exec etcd: no such file or directory")
          None None None None None 1000 2000 4000.

(** A world in which neither the process starts nor the fake client can
    be built. *)
Definition brokenWorld : World :=
  mkWorld (Some "fork/exec etcd: no such file or directory")
          None None None (Some "discovery failed") None 1000 2000 4000.

Definition accurateConfig : TestConfig :=
  mkTestConfig ModeAccurate ["policy.yaml"] ["resource.yaml"] [] true.

Definition accurateNoFallbackConfig : TestConfig :=
  mkTestConfig ModeAccurate ["policy.yaml"] ["resource.yaml"] [] false.

Definition fastConfig : TestConfig :=
  mkTestConfig ModeFast ["policy.yaml"] ["resource.yaml"] [] true.

(** A constructor that cannot build the accurate backend. *)
Definition createWithoutAccurate (r : TestRunner) : Result TestBackend :=
  if String.eqb (Mode (config r)) ModeAccurate
  then Err "accurate backend unavailable"
  else createBackend r.

(** A constructor that cannot build any backend. *)
Definition createNothing (r : TestRunner) : Result TestBackend :=
  Err ("no backend for mode " +:+ Mode (config r)).

Definition podPolicy : Policy :=
  mkPolicy "require-labels" [mkRule "check-team" ["Pod"] true false false false].

Definition deploymentPolicy : Policy :=
  mkPolicy "deployment-only" [mkRule "check-replicas" ["Deployment"] true false false false].

Definition testPod : Object := mkObject "" "v1" "Pod" "default" "test-pod".

(** A fast backend after a successful [Setup]. *)
Definition readyFastBackend : TestBackend := (Setup calmWorld newFastBackend [testPod]).1.

(** ** Statements about the resolver *)


(** A visiting order is admissible when it lists the entries of every map,
    each once. *)
Definition ValidRange (range : Range) : Prop :=
  forall (V : Type) (m : gmap string V), range V m ≡ₚ map_to_list m.

(** One admissible visiting order: the entries in the order of the map's
    own enumeration. *)
Definition enumeration_range : Range := fun V m => map_to_list m.

(** The index that [NewMockResolver] builds from the API-call mocks. *)
Definition indexAPICalls {Value} (ms : list (APICallMock.t Value)) : gmap string Value :=
  foldl (fun m mock => <[APICallMock.URLPath mock := APICallMock.Response mock]> m) ∅ ms.


(** The pattern is the first that matches, in the visiting order [range]
    of the resolver's API-call map. *)
Definition firstVisited {Value} (range : Range) (r : MockResolver Value)
    (resolvedPath pattern : string) (response : Value) : Prop :=
  exists before after,
    range Value (apiCalls r) = before ++ (pattern, response) :: after
    /\ matchesPattern pattern resolvedPath = true
    /\ forall kv, kv ∈ before -> matchesPattern kv.1 resolvedPath = false.


Definition configmapsPattern : string := "/api/v1/namespaces/{{namespace}}/configmaps".

Definition configmapsConfig : MockConfig.t string :=
  MockConfig.mk [APICallMock.mk configmapsPattern "GET" "items"]
                [GlobalContextMock.mk "deployments-{{namespace}}" "3"] [].

(** ** Statements about the mock HTTP server *)

(** [sub] occurs in [s]. *)
Definition Occurs (sub s : string) : Prop := exists a b, s = a +:+ sub +:+ b.

(** The two methods are equal up to the case of their letters. *)
Definition SameMethod (m1 m2 : string) : Prop :=
  GoStrings.ToLower m1 = GoStrings.ToLower m2.

(** The matching test of the server, in the words of the specification. *)
Definition Matches (canon : string -> string) (mock : HTTPCallMock.t) (r : Request.t)
  : Prop :=
  (HTTPCallMock.Method mock <> "" -> SameMethod (HTTPCallMock.Method mock) (Request.Method r))
  /\ (Occurs (HTTPCallMock.URL mock) (Request.URL_String r)
      \/ Occurs (Request.URL_String r) (HTTPCallMock.URL mock)
      \/ Occurs (HTTPCallMock.URL mock) (Request.URL_Path r))
  /\ (forall m, HTTPCallMock.RequestMatcher mock = Some m ->
        (forall key value, RequestMatcher.Headers m !! key = Some value ->
                           Header_Get canon (Request.Header r) key = value)
        /\ (RequestMatcher.BodyPattern m <> "" ->
            exists body, Request.Body r = Reader body
                         /\ Occurs (RequestMatcher.BodyPattern m) body)).







Definition unknownRequest : Request.t :=
  Request.mk "GET" "/unknown" "/unknown" ∅ (Reader "").

(** ** Statements about the comparator *)

(** An entry of one lookup map whose key the other map [m] also has, with
    the same status. *)
Definition agrees (m : gmap string TestResult.t) (kv : string * TestResult.t) : Prop :=
  exists other, m !! kv.1 = Some other
                /\ TestResult.Status kv.2 = TestResult.Status other.

(** An entry whose key the other map also has, with another status. *)
Definition diverges (m : gmap string TestResult.t) (kv : string * TestResult.t) : Prop :=
  exists other, m !! kv.1 = Some other
                /\ TestResult.Status kv.2 <> TestResult.Status other.

(** An entry whose key the other map does not have. *)
Definition missingFrom (m : gmap string TestResult.t) (kv : string * TestResult.t) : Prop :=
  m !! kv.1 = None.

#[global] Instance agrees_dec m kv : Decision (agrees m kv).
Proof.
  unfold agrees. destruct (m !! kv.1) as [other |].
  - destruct (decide (TestResult.Status kv.2 = TestResult.Status other)) as [He | Hne].
    + left. by exists other.
    + right. intros (o & [= <-] & H). by apply Hne.
  - right. by intros (o & [=] & _).
Defined.

#[global] Instance diverges_dec m kv : Decision (diverges m kv).
Proof.
  unfold diverges. destruct (m !! kv.1) as [other |].
  - destruct (decide (TestResult.Status kv.2 = TestResult.Status other)) as [He | Hne].
    + right. intros (o & [= <-] & H). by apply H.
    + left. by exists other.
  - right. by intros (o & [=] & _).
Defined.

#[global] Instance missingFrom_dec m kv : Decision (missingFrom m kv).
Proof. unfold missingFrom. apply _. Defined.

(** The record of a divergent key. *)
Definition divergenceOf (key : string) (fastResult accurateResult : TestResult.t)
  : Divergence :=
  mkDivergence key (TestResult.Status fastResult) (TestResult.Status accurateResult)
               (TestResult.Message fastResult) (TestResult.Message accurateResult).

(** The record that an entry of the fast map gives rise to, if any. *)
Definition divergenceIn (accurateMap : gmap string TestResult.t)
    (kv : string * TestResult.t) : option Divergence :=
  match accurateMap !! kv.1 with
  | Some accurateResult =>
      if String.eqb (TestResult.Status kv.2) (TestResult.Status accurateResult)
      then None
      else Some (divergenceOf kv.1 kv.2 accurateResult)
  | None => None
  end.



(** The two summaries of [TestCompareResults]. *)
Definition keyedResult (policy rule status : string) : TestResult.t :=
  TestResult.mk policy rule "pod1" "" "Pod" status "" "".

Definition fastSummary : TestSummary.t :=
  TestSummary.mk ModeFast 0 0 50000000
    [keyedResult "p1" "r1" "pass"; keyedResult "p1" "r2" "fail";
     keyedResult "p2" "r1" "pass"]
    2 1 0 0 0 false "".

Definition accurateSummary : TestSummary.t :=
  TestSummary.mk ModeAccurate 0 0 3000000000
    [keyedResult "p1" "r1" "pass"; keyedResult "p1" "r2" "pass";
     keyedResult "p2" "r1" "pass"]
    3 0 0 0 0 false "".


(** ** What a pattern matches, in the words of the specification *)

(** The character occurs in the string. *)
Fixpoint has_char (c : ascii) (s : string) : bool :=
  match s with
  | EmptyString => false
  | String d r => Ascii.eqb c d || has_char c r
  end.

(** The name of a placeholder: one or more characters, none of them a
    closing brace. *)
Definition placeholderName (name : string) : Prop :=
  name <> "" /\ has_char "}" name = false.

(** What the wildcard of a placeholder matches: one or more characters,
    none of them a slash. *)
Definition segment (seg : string) : Prop :=
  seg <> "" /\ has_char "/" seg = false.

(** The pattern begins with a placeholder token. *)
Definition startsWithPlaceholder (p : string) : Prop :=
  exists name rest, placeholderName name /\ p = "{{" +:+ name +:+ "}}" +:+ rest.

(** A pattern matches a path in full when, reading both from the left, each
    placeholder token of the pattern takes a segment of the path and every
    other character of the pattern takes the same character of the path. *)
Inductive PatternMatches : string -> string -> Prop :=
| matches_end : PatternMatches "" ""
| matches_placeholder (name rest seg url : string) :
    placeholderName name -> segment seg -> PatternMatches rest url ->
    PatternMatches ("{{" +:+ name +:+ "}}" +:+ rest) (seg +:+ url)
| matches_literal (c : ascii) (rest url : string) :
    ~ startsWithPlaceholder (String c rest) -> PatternMatches rest url ->
    PatternMatches (String c rest) (String c url).

(** Reading a placeholder off the start of a pattern: the text after the
    name and the closing braces, once the opening braces are read, and the
    text after the whole token. *)
Fixpoint name_tail (s : string) : option string :=
  match s with
  | EmptyString => None
  | String c r =>
      if Ascii.eqb c "}" then None
      else match name_tail r with
           | Some rest => Some rest
           | None => GoRegexp.cut_prefix "}}" r
           end
  end.

Definition raw_placeholder (p : string) : option string :=
  match GoRegexp.cut_prefix "{{" p with
  | Some r => name_tail r
  | None => None
  end.

(** The quoted form of one character. *)
Definition quoted_char (c : ascii) : string := GoRegexp.QuoteMeta (String c "").

(** ** More of Go's [strings] package *)

Module GoStringsMore.

(** The ASCII white space of [strings.TrimSpace]: tab, line feed, vertical
    tab, form feed, carriage return and space. *)
Definition asciiSpace (c : ascii) : bool :=
  existsb (fun n => (nat_of_ascii c =? n)%nat) [9; 10; 11; 12; 13; 32]%nat.

Fixpoint trimLeft (s : string) : string :=
  match s with
  | EmptyString => EmptyString
  | String c r => if asciiSpace c then trimLeft r else s
  end.

Fixpoint trimRight (s : string) : string :=
  match s with
  | EmptyString => EmptyString
  | String c r =>
      let r' := trimRight r in
      if asciiSpace c && String.eqb r' "" then EmptyString else String c r'
  end.

(** [strings.TrimSpace], on the ASCII range: the white space at both ends
    is dropped. *)
Definition TrimSpace (s : string) : string := trimRight (trimLeft s).

(** [strings.Count] for a non-empty [substr]: the occurrences that do not
    overlap, from the left.  [skip] counts the characters of the current
    occurrence that are still to be passed over. *)
Fixpoint count_from (substr s : string) (skip : nat) : nat :=
  match s with
  | EmptyString => 0
  | String c r =>
      match skip with
      | S k => count_from substr r k
      | O =>
          if GoStrings.HasPrefix s substr
          then S (count_from substr r (String.length substr - 1))
          else count_from substr r 0
      end
  end.

(** With an empty [substr], Go counts one more than the characters. *)
Definition Count (s substr : string) : nat :=
  match substr with
  | EmptyString => S (String.length s)
  | _ => count_from substr s 0
  end.

(** [strings.Index]: the position of the first occurrence, or [-1]. *)
Fixpoint index_from (substr s : string) (i : nat) : option nat :=
  if GoStrings.HasPrefix s substr then Some i
  else match s with
       | EmptyString => None
       | String _ r => index_from substr r (S i)
       end.

Definition Index (s substr : string) : Z :=
  match index_from substr s 0 with
  | Some i => Z.of_nat i
  | None => (-1)%Z
  end.

(** [strings.Split] for a non-empty [sep]: [cur] is the piece that is
    being read. *)
Fixpoint split_from (sep s : string) (skip : nat) (cur : string) : list string :=
  match s with
  | EmptyString => [cur]
  | String c r =>
      match skip with
      | S k => split_from sep r k cur
      | O =>
          if GoStrings.HasPrefix s sep
          then cur :: split_from sep r (String.length sep - 1) EmptyString
          else split_from sep r 0 (cur +:+ String c EmptyString)
      end
  end.

(** With an empty [sep], Go splits after each character. *)
Definition Split (s sep : string) : list string :=
  match sep with
  | EmptyString => map (fun c => String c EmptyString) (list_ascii_of_string s)
  | _ => split_from sep s 0 EmptyString
  end.

End GoStringsMore.

(** ** Package [testrunner]: parsing and describing modes *)

(** [ParseTestMode]; [quote] is the formatting verb [%q] of the error
    text. *)
Definition ParseTestMode (quote : string -> string) (s : string) : Result TestMode :=
  let word := GoStrings.ToLower (GoStringsMore.TrimSpace s) in
  if existsb (String.eqb word) ["fast"; "f"; "quick"] then Ok ModeFast
  else if existsb (String.eqb word) ["accurate"; "a"; "full"; "envtest"] then Ok ModeAccurate
  else Err ("unknown test mode " +:+ quote s
            +:+ ": valid modes are 'fast' or 'accurate'").

(** [TestMode.String] *)
Definition TestMode_String (m : TestMode) : string := m.

(** [TestMode.Description] *)
Definition Description (m : TestMode) : string :=
  if String.eqb m ModeFast
  then "Fast Mode (Smart Mocks) - Quick policy checks with enhanced fake client"
  else if String.eqb m ModeAccurate
  then "Accurate Mode (envtest) - Deep testing with real API server"
  else "Unknown mode".

(** [DefaultConfig], on the fields of [TestConfig] that the runner reads. *)
Definition DefaultConfig : TestConfig := mkTestConfig ModeFast [] [] [] true.

(** ** The discovery registry of the fast backend: queries *)

(** [AllGVRs] *)
Definition AllGVRs (d : enhancedFakeDiscovery) : list GroupVersionResource :=
  resources d.

(** The order in which a [range] loop visits the kind map of a registry. *)
Definition KindRange : Type :=
  gmap GroupVersionResource GroupVersionKind
  -> list (GroupVersionResource * GroupVersionKind).

(** [FindResource]: the first entry visited whose kind is the given one up
    to the case of its letters; the zero identity and [false] when there is
    none. *)
Definition FindResource (range : KindRange) (d : enhancedFakeDiscovery) (kind : string)
  : GroupVersionResource * bool :=
  let lowerKind := GoStrings.ToLower kind in
  match List.find (fun kv => String.eqb (GoStrings.ToLower (gvkKind kv.2)) lowerKind)
                  (range (gvrToGVK d)) with
  | Some (gvr, _) => (gvr, true)
  | None => (GVR "" "" "", false)
  end.

Module GroupVersionForDiscovery.
Record t := mk {
  GroupVersion : string;
  Version : string
}.
End GroupVersionForDiscovery.

Module APIGroup.
Record t := mk {
  Name : string;
  Versions : list GroupVersionForDiscovery.t;
  PreferredVersion : GroupVersionForDiscovery.t
}.
End APIGroup.

(** One iteration of the loop of [ListGroups], on the set [seen] and the
    list [groups]. *)
Definition listGroup (st : gset string * list APIGroup.t) (gvr : GroupVersionResource)
  : gset string * list APIGroup.t :=
  let '(seen, groups) := st in
  let groupName := gvrGroup gvr in
  if bool_decide (groupName ∈ seen) then (seen, groups)
  else
    let version :=
      GroupVersionForDiscovery.mk (gvrGroup gvr +:+ "/" +:+ gvrVersion gvr)
                                  (gvrVersion gvr) in
    ({[groupName]} ∪ seen, groups ++ [APIGroup.mk groupName [version] version]).

(** [ListGroups] *)
Definition ListGroups (d : enhancedFakeDiscovery) : list APIGroup.t :=
  (foldl listGroup (∅, []) (resources d)).2.

(** ** Package [dclient]: the enhanced fake discovery client *)

Record GroupVersion := GV {
  gvGroup : string; gvVersion : string
}.

#[global] Instance GroupVersion_eq_dec : EqDecision GroupVersion.
Proof. solve_decision. Defined.

#[global] Instance GroupVersion_countable : Countable GroupVersion.
Proof.
  refine (inj_countable' (fun g => (gvGroup g, gvVersion g))
                         (fun t => GV t.1 t.2) _).
  by intros [].
Defined.

(** [schema.ParseGroupVersion]: the empty string and [/] give the empty
    group and version, a string without a slash is a version of the core
    group, and one slash separates the group from the version. *)
Definition ParseGroupVersion (gv : string) : Result GroupVersion :=
  if (String.length gv =? 0)%nat || String.eqb gv "/" then Ok (GV "" "")
  else
    match GoStringsMore.Count gv "/" with
    | 0%nat => Ok (GV "" gv)
    | 1%nat =>
        let i := Z.to_nat (GoStringsMore.Index gv "/") in
        Ok (GV (substring 0 i gv) (substring (i + 1) (String.length gv - (i + 1)) gv))
    | _ => Err ("unexpected GroupVersion string: " +:+ gv)
    end.

(** [defaultKubernetesResources] *)
Definition defaultKubernetesResources : list GroupVersionResource := [
  GVR "" "v1" "bindings";
  GVR "" "v1" "componentstatuses";
  GVR "" "v1" "configmaps";
  GVR "" "v1" "endpoints";
  GVR "" "v1" "events";
  GVR "" "v1" "limitranges";
  GVR "" "v1" "namespaces";
  GVR "" "v1" "nodes";
  GVR "" "v1" "persistentvolumeclaims";
  GVR "" "v1" "persistentvolumes";
  GVR "" "v1" "pods";
  GVR "" "v1" "replicationcontrollers";
  GVR "" "v1" "resourcequotas";
  GVR "" "v1" "secrets";
  GVR "" "v1" "serviceaccounts";
  GVR "" "v1" "services";
  GVR "apps" "v1" "controllerrevisions";
  GVR "apps" "v1" "daemonsets";
  GVR "apps" "v1" "deployments";
  GVR "apps" "v1" "replicasets";
  GVR "apps" "v1" "statefulsets";
  GVR "batch" "v1" "cronjobs";
  GVR "batch" "v1" "jobs";
  GVR "networking.k8s.io" "v1" "ingressclasses";
  GVR "networking.k8s.io" "v1" "ingresses";
  GVR "networking.k8s.io" "v1" "networkpolicies";
  GVR "storage.k8s.io" "v1" "csidrivers";
  GVR "storage.k8s.io" "v1" "csinodes";
  GVR "storage.k8s.io" "v1" "csistoragecapacities";
  GVR "storage.k8s.io" "v1" "storageclasses";
  GVR "storage.k8s.io" "v1" "volumeattachments";
  GVR "rbac.authorization.k8s.io" "v1" "clusterrolebindings";
  GVR "rbac.authorization.k8s.io" "v1" "clusterroles";
  GVR "rbac.authorization.k8s.io" "v1" "rolebindings";
  GVR "rbac.authorization.k8s.io" "v1" "roles";
  GVR "autoscaling" "v2" "horizontalpodautoscalers";
  GVR "autoscaling" "v1" "horizontalpodautoscalers";
  GVR "policy" "v1" "poddisruptionbudgets";
  GVR "policy" "v1beta1" "podsecuritypolicies";
  GVR "certificates.k8s.io" "v1" "certificatesigningrequests";
  GVR "coordination.k8s.io" "v1" "leases";
  GVR "discovery.k8s.io" "v1" "endpointslices";
  GVR "node.k8s.io" "v1" "runtimeclasses";
  GVR "scheduling.k8s.io" "v1" "priorityclasses";
  GVR "admissionregistration.k8s.io" "v1" "mutatingwebhookconfigurations";
  GVR "admissionregistration.k8s.io" "v1" "validatingwebhookconfigurations";
  GVR "apiextensions.k8s.io" "v1" "customresourcedefinitions";
  GVR "apiregistration.k8s.io" "v1" "apiservices";
  GVR "events.k8s.io" "v1" "events";
  GVR "flowcontrol.apiserver.k8s.io" "v1" "flowschemas";
  GVR "flowcontrol.apiserver.k8s.io" "v1" "prioritylevelconfigurations"
].

(** The discovery client, as far as this file uses it: the list of the
    resources it advertises. *)
Record fakeDiscoveryClient := mkFakeDiscoveryClient {
  registeredResources : list GroupVersionResource
}.

(** [NewEnhancedFakeDiscoveryClient] *)
Definition NewEnhancedFakeDiscoveryClient (additionalResources : list GroupVersionResource)
  : fakeDiscoveryClient :=
  let allResources := defaultKubernetesResources in
  let allResources := allResources ++ additionalResources in
  mkFakeDiscoveryClient allResources.

(** [GetDefaultResourceCount] *)
Definition GetDefaultResourceCount : nat := List.length defaultKubernetesResources.

(** The table of [RegisterKyvernoResources]. *)
Definition kyvernoResources : list GroupVersionResource := [
  GVR "kyverno.io" "v1" "clusterpolicies";
  GVR "kyverno.io" "v1" "policies";
  GVR "kyverno.io" "v1" "clusteradmissionreports";
  GVR "kyverno.io" "v1" "admissionreports";
  GVR "kyverno.io" "v2" "updaterequests";
  GVR "kyverno.io" "v2" "cleanuppolicies";
  GVR "kyverno.io" "v2" "clustercleanuppolicies";
  GVR "kyverno.io" "v2alpha1" "globalcontextentries";
  GVR "wgpolicyk8s.io" "v1alpha2" "clusterpolicyreports";
  GVR "wgpolicyk8s.io" "v1alpha2" "policyreports"
].

(** [RegisterKyvernoResources] *)
Definition RegisterKyvernoResources (c : fakeDiscoveryClient) : fakeDiscoveryClient :=
  mkFakeDiscoveryClient (registeredResources c ++ kyvernoResources).

(** [RegisterCustomResources] *)
Definition RegisterCustomResources (c : fakeDiscoveryClient)
    (resources : list GroupVersionResource) : fakeDiscoveryClient :=
  mkFakeDiscoveryClient (registeredResources c ++ resources).

(** [ServerResourcesForGroupVersion]: a group/version that does not parse
    gives the empty list. *)
Definition ServerResourcesForGroupVersion (resources : list GroupVersionResource)
    (groupVersion : string) : list GroupVersionResource :=
  match ParseGroupVersion groupVersion with
  | Err _ => []
  | Ok gv =>
      foldl (fun result res =>
               if String.eqb (gvrGroup res) (gvGroup gv)
                  && String.eqb (gvrVersion res) (gvVersion gv)
               then result ++ [res]
               else result)
            [] resources
  end.

(** [GetResourcesForGroupVersion] *)
Definition GetResourcesForGroupVersion (c : fakeDiscoveryClient) (groupVersion : string)
  : list GroupVersionResource :=
  ServerResourcesForGroupVersion (registeredResources c) groupVersion.

(** One iteration of the loop of [GetAllGroupVersions], on the set [seen]
    and the list [result]. *)
Definition addGroupVersion (st : gset GroupVersion * list GroupVersion)
    (res : GroupVersionResource) : gset GroupVersion * list GroupVersion :=
  let '(seen, result) := st in
  let gv := GV (gvrGroup res) (gvrVersion res) in
  if negb (bool_decide (gv ∈ seen)) then ({[gv]} ∪ seen, result ++ [gv])
  else (seen, result).

(** [GetAllGroupVersions] *)
Definition GetAllGroupVersions (c : fakeDiscoveryClient) : list GroupVersion :=
  (foldl addGroupVersion (∅, []) (registeredResources c)).2.

(** [HasResource] *)
Definition HasResource (c : fakeDiscoveryClient) (gvr : GroupVersionResource) : bool :=
  existsb (fun res => String.eqb (gvrGroup res) (gvrGroup gvr)
                      && String.eqb (gvrVersion res) (gvrVersion gvr)
                      && String.eqb (gvrResource res) (gvrResource gvr))
          (registeredResources c).

(** ** Statements about the discovery registries *)

(** A visiting order of the kind map is admissible when it lists its
    entries, each once. *)
Definition ValidKindRange (range : KindRange) : Prop :=
  forall m, range m ≡ₚ map_to_list m.

(** One admissible visiting order: the map's own enumeration. *)
Definition kindEnumeration : KindRange := fun m => map_to_list m.

(** Two kinds are the same up to the case of their letters. *)
Definition SameKind (k1 k2 : string) : Prop := GoStrings.ToLower k1 = GoStrings.ToLower k2.

(** The registry lists no identity twice and has a kind for the listed
    identities and for no others. *)
Definition consistentRegistry (d : enhancedFakeDiscovery) : Prop :=
  NoDup (resources d)
  /\ forall gvr, gvr ∈ resources d <-> is_Some (gvrToGVK d !! gvr).

(** Every kind of the registry [d] belongs to an identity of [d0] or was
    given by a seed object, whose identity it then determines. *)
Definition seedShaped (d0 d : enhancedFakeDiscovery) : Prop :=
  forall gvr gvk, gvrToGVK d !! gvr = Some gvk ->
    gvr ∈ resources d0
    \/ gvr = GVR (gvkGroup gvk) (gvkVersion gvk) (fastBackend_resource (gvkKind gvk)).

(** The elements of [l] whose key is not in [seen] and is not the key of
    an earlier element of [l]. *)
Fixpoint firstsBy {A K : Type} `{EqDecision K} (key : A -> K) (seen : list K)
    (l : list A) : list A :=
  match l with
  | [] => []
  | x :: r =>
      if decide (key x ∈ seen) then firstsBy key seen r
      else x :: firstsBy key (key x :: seen) r
  end.

(** The group entry that [ListGroups] builds from a resource identity. *)
Definition groupOf (gvr : GroupVersionResource) : APIGroup.t :=
  let version :=
    GroupVersionForDiscovery.mk (gvrGroup gvr +:+ "/" +:+ gvrVersion gvr)
                                (gvrVersion gvr) in
  APIGroup.mk (gvrGroup gvr) [version] version.

(** The group and version of a resource identity. *)
Definition groupVersionOf (res : GroupVersionResource) : GroupVersion :=
  GV (gvrGroup res) (gvrVersion res).

(** A custom resource that the catalog of the fast backend does not have. *)
Definition widgetGVR : GroupVersionResource := GVR "example.io" "v1" "widgets".
Definition widgetGVK : GroupVersionKind := GVK "example.io" "v1" "Widget".

(** ** Package [mocks]: the resolvers of API calls and of global context
       entries, and the construction of URL paths *)

(** [APICallResolver] and [GlobalContextResolver] hold a resolver, which
    may be [nil]. *)
Record APICallResolver (Value : Type) := mkAPICallResolver {
  apiResolver : option (MockResolver Value)
}.
Arguments mkAPICallResolver {Value}.
Arguments apiResolver {Value}.

Record GlobalContextResolver (Value : Type) := mkGlobalContextResolver {
  gctxResolver : option (MockResolver Value)
}.
Arguments mkGlobalContextResolver {Value}.
Arguments gctxResolver {Value}.

(** [NewAPICallResolver] and [NewGlobalContextResolver] *)
Definition NewAPICallResolver {Value} (resolver : option (MockResolver Value))
  : APICallResolver Value := mkAPICallResolver resolver.

Definition NewGlobalContextResolver {Value} (resolver : option (MockResolver Value))
  : GlobalContextResolver Value := mkGlobalContextResolver resolver.

(** [APICallResolver.Resolve] *)
Definition APICallResolver_Resolve {Value} (range : Range) (a : APICallResolver Value)
    (urlPath : string) (vars : gmap string string) : Result Value :=
  match apiResolver a with
  | None => Err "resolver not initialized"
  | Some resolver => ResolveAPICall range resolver urlPath vars
  end.

(** [GlobalContextResolver.Resolve] *)
Definition GlobalContextResolver_Resolve {Value} (g : GlobalContextResolver Value)
    (name : string) : Result Value :=
  match gctxResolver g with
  | None => Err "resolver not initialized"
  | Some resolver => ResolveGlobalContext resolver name
  end.

(** [GlobalContextResolver.Has] *)
Definition GlobalContextResolver_Has {Value} (g : GlobalContextResolver Value)
    (name : string) : bool :=
  match gctxResolver g with
  | None => false
  | Some resolver => HasGlobalContext resolver name
  end.

(** [BuildURLPath]: the text written to the builder, piece by piece. *)
Definition BuildURLPath (apiVersion resource namespace name : string) : string :=
  let path := EmptyString in
  let parts := GoStringsMore.Split apiVersion "/" in
  let path :=
    if (List.length parts =? 1)%nat
    then (path +:+ "/api/") +:+ apiVersion
    else (path +:+ "/apis/") +:+ apiVersion in
  let path :=
    if negb (String.eqb namespace "")
    then (path +:+ "/namespaces/") +:+ namespace
    else path in
  let path := (path +:+ "/") +:+ resource in
  let path :=
    if negb (String.eqb name "")
    then (path +:+ "/") +:+ name
    else path in
  path.

(** The loop of [BuildListURLPath] over the labels: the selector written
    so far and the flag [first]. *)
Definition writeLabel (st : string * bool) (kv : string * string) : string * bool :=
  let '(labelSelector, first) := st in
  let labelSelector := if negb first then labelSelector +:+ "," else labelSelector in
  let labelSelector := labelSelector +:+ kv.1 in
  let labelSelector := labelSelector +:+ "=" in
  let labelSelector := labelSelector +:+ kv.2 in
  (labelSelector, false).

(** [BuildListURLPath] *)
Definition BuildListURLPath (range : Range) (apiVersion resource namespace : string)
    (labels : gmap string string) : string :=
  let path := BuildURLPath apiVersion resource namespace "" in
  if (0 <? size labels)%nat
  then
    let labelSelector := (foldl writeLabel (EmptyString, true) (range _ labels)).1 in
    path +:+ "?labelSelector=" +:+ labelSelector
  else path.

(** ** Package [loaders]: the mock-aware context loaders *)

(** A [kyvernov1.ContextEntry], as far as the loaders read it: its name,
    the name of its global reference and the URL path of its API call, when
    it has them. *)
Module ContextEntry.
Record t := mk {
  Name : string;
  GlobalReference : option string;
  APICall : option string
}.
End ContextEntry.

(** The fields that [mockGctxLoader] and [mockAPILoader] both have and
    use: the entry, the mock store ([None] is [nil]) and the data loaded
    ([None] is [nil]).  The store is a resolver behind [MockStoreAdapter],
    whose three methods call the resolver's. *)
Record mockLoader (Value : Type) := mkMockLoader {
  entry : ContextEntry.t;
  mockStore : option (MockResolver Value);
  data : option string
}.
Arguments mkMockLoader {Value}.
Arguments entry {Value}.
Arguments mockStore {Value}.
Arguments data {Value}.

(** [NewMockGCTXLoader] and [NewMockAPILoader] *)
Definition NewMockGCTXLoader {Value} (entry : ContextEntry.t)
    (mockStore : option (MockResolver Value)) : mockLoader Value :=
  mkMockLoader entry mockStore None.

Definition NewMockAPILoader {Value} (entry : ContextEntry.t)
    (mockStore : option (MockResolver Value)) : mockLoader Value :=
  mkMockLoader entry mockStore None.

(** [HasLoaded] *)
Definition HasLoaded {Value} (l : mockLoader Value) : bool :=
  match data l with Some _ => true | None => false end.

Section Loaders.

Context {Value Ctx : Type}.

(** [json.Marshal] on mock data, and [AddContextEntry] of the engine
    context, which the loader shares with its caller: the context after the
    call and the error, if any. *)
Variable marshal : Value -> Result string.
Variable AddContextEntry : Ctx -> string -> string -> Ctx * option string.
Variable range : Range.

(** [mockGctxLoader.LoadData] *)
Definition mockGctxLoader_LoadData (g : mockLoader Value) (enginectx : Ctx)
  : mockLoader Value * Ctx * option string :=
  match ContextEntry.GlobalReference (entry g) with
  | None => (g, enginectx, Some "context entry does not have global reference")
  | Some gctxName =>
      match mockStore g with
      | Some store =>
          if HasGlobalContext store gctxName then
            match ResolveGlobalContext store gctxName with
            | Err err =>
                (g, enginectx,
                 Some ("failed to resolve mock GlobalContext " +:+ gctxName
                       +:+ ": " +:+ err))
            | Ok mockData =>
                match marshal mockData with
                | Err err => (g, enginectx, Some ("failed to marshal mock data: " +:+ err))
                | Ok jsonData =>
                    match AddContextEntry enginectx (ContextEntry.Name (entry g)) jsonData with
                    | (enginectx, Some err) =>
                        (g, enginectx,
                         Some ("failed to add mock context entry "
                               +:+ ContextEntry.Name (entry g) +:+ ": " +:+ err))
                    | (enginectx, None) =>
                        (mkMockLoader (entry g) (mockStore g) (Some jsonData),
                         enginectx, None)
                    end
                end
            end
          else (g, enginectx, None)
      | None => (g, enginectx, None)
      end
  end.

(** [mockAPILoader.LoadData]: the call is resolved without variables. *)
Definition mockAPILoader_LoadData (a : mockLoader Value) (enginectx : Ctx)
  : mockLoader Value * Ctx * option string :=
  match ContextEntry.APICall (entry a) with
  | None => (a, enginectx, Some "context entry does not have API call")
  | Some urlPath =>
      let unavailable :=
        (a, enginectx, Some ("no mock available for API call to " +:+ urlPath)) in
      match mockStore a with
      | Some store =>
          match ResolveAPICall range store urlPath ∅ with
          | Ok mockData =>
              match marshal mockData with
              | Err err =>
                  (a, enginectx, Some ("failed to marshal mock API data: " +:+ err))
              | Ok jsonData =>
                  match AddContextEntry enginectx (ContextEntry.Name (entry a)) jsonData with
                  | (enginectx, Some err) =>
                      (a, enginectx,
                       Some ("failed to add mock API context entry "
                             +:+ ContextEntry.Name (entry a) +:+ ": " +:+ err))
                  | (enginectx, None) =>
                      (mkMockLoader (entry a) (mockStore a) (Some jsonData),
                       enginectx, None)
                  end
              end
          | Err _ => unavailable
          end
      | None => unavailable
      end
  end.

End Loaders.

(** ** Package [testrunner]: the test context and its mocks *)

(** The mock configuration of the test values (package [v1alpha1]); the
    response of an API-call mock is a JSON object. *)
Module v1alpha1.

Record APICallMock (Obj : Type) := mkAPICallMock {
  URLPath : string;
  Method : string;
  Response : Obj
}.
Arguments mkAPICallMock {Obj}.
Arguments URLPath {Obj}.
Arguments Method {Obj}.
Arguments Response {Obj}.

Record GlobalContextMock (Value : Type) := mkGlobalContextMock {
  Name : string;
  Value_ : Value
}.
Arguments mkGlobalContextMock {Value}.
Arguments Name {Value}.
Arguments Value_ {Value}.

Record RequestMatcher := mkRequestMatcher {
  Headers : gmap string string;
  BodyPattern : string
}.

Record HTTPMockResponse := mkHTTPMockResponse {
  Status : Z;
  ResponseHeaders : gmap string string;
  Body : string
}.

Record HTTPCallMock := mkHTTPCallMock {
  URL : string;
  HTTPMethod : string;
  Matcher : option RequestMatcher;
  HTTPResponse_ : HTTPMockResponse
}.

Record MockConfig (Value Obj : Type) := mkMockConfig {
  APICalls : list (APICallMock Obj);
  GlobalContext : list (GlobalContextMock Value);
  HTTPCalls : list HTTPCallMock
}.
Arguments mkMockConfig {Value Obj}.
Arguments APICalls {Value Obj}.
Arguments GlobalContext {Value Obj}.
Arguments HTTPCalls {Value Obj}.

(** A [ValuesSpec], as far as the test context reads it. *)
Record ValuesSpec (Value Obj : Type) := mkValuesSpec {
  Mocks : option (MockConfig Value Obj)
}.
Arguments mkValuesSpec {Value Obj}.
Arguments Mocks {Value Obj}.

End v1alpha1.

Record TestContext (Value Obj : Type) := mkTestContext {
  TestContext_MockResolver : option (MockResolver Value);
  Values : option (v1alpha1.ValuesSpec Value Obj)
}.
Arguments mkTestContext {Value Obj}.
Arguments TestContext_MockResolver {Value Obj}.
Arguments Values {Value Obj}.

Section Context_.

Context {Value Obj : Type}.

(** A JSON object as a value of the empty interface. *)
Variable ofObject : Obj -> Value.

(** The body of the third loop of [convertToMockConfig]. *)
Definition convertHTTPCallMock (m : v1alpha1.HTTPCallMock) : HTTPCallMock.t :=
  let httpMock :=
    HTTPCallMock.mk (v1alpha1.URL m) (v1alpha1.HTTPMethod m) None
      (HTTPResponse.mk (v1alpha1.Status (v1alpha1.HTTPResponse_ m))
                       (v1alpha1.ResponseHeaders (v1alpha1.HTTPResponse_ m))
                       (v1alpha1.Body (v1alpha1.HTTPResponse_ m))) in
  match v1alpha1.Matcher m with
  | Some matcher =>
      HTTPCallMock.mk (HTTPCallMock.URL httpMock) (HTTPCallMock.Method httpMock)
        (Some (RequestMatcher.mk (v1alpha1.Headers matcher) (v1alpha1.BodyPattern matcher)))
        (HTTPCallMock.Response httpMock)
  | None => httpMock
  end.

(** [convertToMockConfig] *)
Definition convertToMockConfig (apiMocks : option (v1alpha1.MockConfig Value Obj))
  : option (MockConfig.t Value) :=
  match apiMocks with
  | None => None
  | Some apiMocks =>
      let config := MockConfig.empty in
      let config :=
        foldl (fun config m =>
                 MockConfig.mk
                   (MockConfig.APICallMocks config
                    ++ [APICallMock.mk (v1alpha1.URLPath m) (v1alpha1.Method m)
                                       (ofObject (v1alpha1.Response m))])
                   (MockConfig.GlobalContextMocks config)
                   (MockConfig.HTTPCallMocks config))
              config (v1alpha1.APICalls apiMocks) in
      let config :=
        foldl (fun config m =>
                 MockConfig.mk
                   (MockConfig.APICallMocks config)
                   (MockConfig.GlobalContextMocks config
                    ++ [GlobalContextMock.mk (v1alpha1.Name m) (v1alpha1.Value_ m)])
                   (MockConfig.HTTPCallMocks config))
              config (v1alpha1.GlobalContext apiMocks) in
      let config :=
        foldl (fun config m =>
                 MockConfig.mk
                   (MockConfig.APICallMocks config)
                   (MockConfig.GlobalContextMocks config)
                   (MockConfig.HTTPCallMocks config ++ [convertHTTPCallMock m]))
              config (v1alpha1.HTTPCalls apiMocks) in
      Some config
  end.

(** [NewTestContext] *)
Definition NewTestContext (values : option (v1alpha1.ValuesSpec Value Obj))
  : Result (TestContext Value Obj) :=
  let ctx := mkTestContext None values in
  match values with
  | Some spec =>
      match v1alpha1.Mocks spec with
      | Some mocks =>
          let mockConfig := convertToMockConfig (Some mocks) in
          match NewMockResolver mockConfig with
          | Err err => Err ("failed to create mock resolver: " +:+ err)
          | Ok resolver => Ok (mkTestContext (Some resolver) (Values ctx))
          end
      | None => Ok ctx
      end
  | None => Ok ctx
  end.

(** [HasMocks] *)
Definition HasMocks (tc : TestContext Value Obj) : bool :=
  match TestContext_MockResolver tc with Some _ => true | None => false end.

(** [GetMockStore]: the resolver behind its adapter, or [nil]. *)
Definition GetMockStore (tc : TestContext Value Obj) : option (MockResolver Value) :=
  match TestContext_MockResolver tc with
  | None => None
  | Some resolver => Some resolver
  end.

End Context_.

(** ** Statements about modes and runs *)

(** The string is made of white space only. *)
Fixpoint whitespace (s : string) : bool :=
  match s with
  | EmptyString => true
  | String c r => GoStringsMore.asciiSpace c && whitespace r
  end.

(** Every external call of the accurate backend's [Setup] succeeds. *)
Definition accurateSetupOk (w : World) : Prop :=
  envtestStart w = None /\ dynamicNewForConfig w = None
  /\ kubernetesNewForConfig w = None /\ realNewClient w = None.

(** The words that [ParseTestMode] accepts for the two modes. *)
Definition fastWords : list string := ["fast"; "f"; "quick"].
Definition accurateWords : list string := ["accurate"; "a"; "full"; "envtest"].

(** A rendering of the verb [%q] for texts without quotes, backslashes and
    control characters. *)
Definition quoted (s : string) : string :=
  String (ascii_of_nat 34) s +:+ String (ascii_of_nat 34) EmptyString.

(** A world in which stopping the control-plane process fails. *)
Definition stuckWorld : World :=
  mkWorld None None None None None (Some "timeout waiting for process") 1000 2000 4000.

(** ** Statements about the comparison of runs *)

(** The key and the status of a result. *)
Definition keyStatus (r : TestResult.t) : string * string :=
  (resultKey r, TestResult.Status r).

(** The fields of a result that make its key hold no slash; the resource
    name, which comes last, may. *)
Definition slashFree (r : TestResult.t) : Prop :=
  has_char "/" (TestResult.PolicyName r) = false
  /\ has_char "/" (TestResult.RuleName r) = false
  /\ has_char "/" (TestResult.ResourceKind r) = false.

(** Two results of one policy, rule and resource name that differ in the
    namespace of the resource and in the status. *)
Definition defaultResult : TestResult.t :=
  TestResult.mk "require-labels" "check-team" "web" "default" "Pod" "pass" "" ModeFast.
Definition prodResult : TestResult.t :=
  TestResult.mk "require-labels" "check-team" "web" "prod" "Pod" "fail" "" ModeFast.

(** ** Statements about mock registration, URL paths and loaders *)

(** A configuration that names one global context entry twice. *)
Definition repeatedConfig : MockConfig.t string :=
  MockConfig.mk [] [GlobalContextMock.mk "deployments" "1";
                    GlobalContextMock.mk "deployments" "2"] [].

(** The labels are written as [key=value], with commas between them. *)
Definition selectorOf (entries : list (string * string)) : string :=
  String.concat "," (map (fun kv => kv.1 +:+ "=" +:+ kv.2) entries).

(** A rendering of mock data and an engine context for exercising the
    loaders: texts are marshalled as they are, and the context is the list
    of the entries added, the latest first. *)
Definition marshalText (value : string) : Result string := Ok value.

Definition addToList (ctx : list (string * string)) (name data : string)
  : list (string * string) * option string :=
  ((name, data) :: ctx, None).

Definition deploymentsEntry : ContextEntry.t :=
  ContextEntry.mk "deploymentCount" (Some "deployments-{{namespace}}") None.

Definition configmapsEntry : ContextEntry.t :=
  ContextEntry.mk "configmaps" None (Some "/api/v1/namespaces/prod/configmaps").

(** The test values with the mocks of [configmapsConfig]. *)
Definition configmapsValues : v1alpha1.ValuesSpec string string :=
  v1alpha1.mkValuesSpec
    (Some (v1alpha1.mkMockConfig
             [v1alpha1.mkAPICallMock configmapsPattern "GET" "items"]
             [v1alpha1.mkGlobalContextMock "deployments-{{namespace}}" "3"]
             [])).

(** ** Package [libs]: the context provider backed by the control plane *)

(** [EnvTestContextProvider.ToGVR] *)
Definition ToGVR (apiVersion kind : string) : Result GroupVersionResource :=
  match ParseGroupVersion apiVersion with
  | Err err => Err err
  | Ok gv =>
      let resource := GoStrings.ToLower kind +:+ "s" in
      Ok (GVR (gvGroup gv) (gvVersion gv) resource)
  end.

Section Provider.

(** The data of an object, the cluster behind the client, the call
    [client.Create] (the cluster after the call and the error, if any) and
    [SetNamespace]. *)
Context {Data Cluster : Type}.
Variable Create : Cluster -> Data -> Cluster * option string.
Variable SetNamespace : Data -> string -> Data.

(** The object that [GenerateResources] creates for one element of the
    list. *)
Definition generatedObject (namespace : string) (data : Data) : Data :=
  let obj := data in
  if negb (String.eqb namespace "") then SetNamespace obj namespace else obj.

(** [EnvTestContextProvider.GenerateResources] *)
Fixpoint GenerateResources (cluster : Cluster) (namespace : string)
    (dataList : list Data) : Cluster * option string :=
  match dataList with
  | [] => (cluster, None)
  | data :: rest =>
      match Create cluster (generatedObject namespace data) with
      | (cluster, Some err) => (cluster, Some ("failed to generate resource: " +:+ err))
      | (cluster, None) => GenerateResources cluster namespace rest
      end
  end.

End Provider.

(** ** Package [envtest]: locating the control-plane binaries *)

Definition defaultK8sVersion : string := "1.28.0".
Definition envtestBinEnvVar : string := "KUBEBUILDER_ASSETS".

(** What the process reads from its environment: the environment
    variables, the result of [os.UserHomeDir], [runtime.GOOS] and
    [runtime.GOARCH], and [filepath.Join] of the platform. *)
Record Process := mkProcess {
  Getenv : string -> string;
  UserHomeDir : Result string;
  GOOS : string;
  GOARCH : string;
  Join : list string -> string
}.

(** The file system: whether [os.Stat] of a path fails with an error for
    which [os.IsNotExist] holds, and [os.MkdirAll] (the file system after
    the call and the error, if any). *)
Record FileSystem (FS : Type) := mkFileSystem {
  NotExist : FS -> string -> bool;
  MkdirAll : FS -> string -> FS * option string
}.
Arguments mkFileSystem {FS}.
Arguments NotExist {FS}.
Arguments MkdirAll {FS}.

Record BinaryManager := mkBinaryManager {
  cacheDir : string;
  k8sVersion : string
}.

Section Binaries.

Context {FS : Type}.
Variable process : Process.
Variable os : FileSystem FS.

(** [getPlatformDir] *)
Definition getPlatformDir : string := GOOS process +:+ "-" +:+ GOARCH process.

(** [binaryExists] *)
Definition binaryExists (fs : FS) (dir : string) : bool :=
  let requiredBinaries := ["kube-apiserver"; "etcd"] in
  let ext := if String.eqb (GOOS process) "windows" then ".exe" else "" in
  forallb (fun binary =>
             let path := Join process [dir; binary +:+ ext] in
             negb (NotExist os fs path))
          requiredBinaries.

(** [getCacheDir] *)
Definition getCacheDir (fs : FS) : FS * Result string :=
  match UserHomeDir process with
  | Err err => (fs, Err err)
  | Ok homeDir =>
      let cacheDir := Join process [homeDir; ".kyverno"; "envtest"] in
      match MkdirAll os fs cacheDir with
      | (fs, Some err) => (fs, Err err)
      | (fs, None) => (fs, Ok cacheDir)
      end
  end.

(** The text of the error of [EnsureBinaries]. *)
Definition binariesNotFound (cacheDir : string) : string :=
  let nl := String (ascii_of_nat 10) EmptyString in
  "envtest binaries not found. Please run:" +:+ nl
  +:+ "  go install sigs.k8s.io/controller-runtime/tools/setup-envtest@latest" +:+ nl
  +:+ "  setup-envtest use " +:+ defaultK8sVersion +:+ " --bin-dir " +:+ cacheDir +:+ nl
  +:+ "Or set " +:+ envtestBinEnvVar
  +:+ " environment variable to the binary directory".

(** [EnsureBinaries] *)
Definition EnsureBinaries (fs : FS) : FS * Result string :=
  let customDir := Getenv process envtestBinEnvVar in
  if negb (String.eqb customDir "") && binaryExists fs customDir
  then (fs, Ok customDir)
  else
    match getCacheDir fs with
    | (fs, Err err) => (fs, Err err)
    | (fs, Ok cacheDir) =>
        let binaryDir := Join process [cacheDir; defaultK8sVersion; getPlatformDir] in
        if binaryExists fs binaryDir then (fs, Ok binaryDir)
        else (fs, Err (binariesNotFound cacheDir))
    end.

(** [NewBinaryManager] *)
Definition NewBinaryManager (fs : FS) (k8sVersion : string) : FS * Result BinaryManager :=
  let k8sVersion := if String.eqb k8sVersion "" then defaultK8sVersion else k8sVersion in
  match getCacheDir fs with
  | (fs, Err err) => (fs, Err err)
  | (fs, Ok cacheDir) => (fs, Ok (mkBinaryManager cacheDir k8sVersion))
  end.

(** [GetBinaryDir] *)
Definition GetBinaryDir (m : BinaryManager) (fs : FS) : FS * Result string :=
  EnsureBinaries fs.

(** [GetK8sVersion] and [SetK8sVersion] *)
Definition GetK8sVersion (m : BinaryManager) : string := k8sVersion m.

Definition SetK8sVersion (m : BinaryManager) (version : string) : BinaryManager :=
  mkBinaryManager (cacheDir m) version.

End Binaries.

(** ** Statements about the provider and the binaries *)

(** The [apiVersion] of an object: [GroupVersion.String] of its group and
    version. *)
Definition apiVersionOf (obj : Object) : string :=
  if (0 <? String.length (objGroup obj))%nat
  then objGroup obj +:+ "/" +:+ objVersion obj
  else objVersion obj.

(** The cluster after the objects of a list have been created one after
    the other. *)
Definition createAll {Data Cluster : Type}
    (Create : Cluster -> Data -> Cluster * option string)
    (cluster : Cluster) (objects : list Data) : Cluster :=
  foldl (fun cluster obj => (Create cluster obj).1) cluster objects.

(** A cluster for exercising [GenerateResources]: the names of the objects
    created, the latest first; creating a name twice fails. *)
Definition createNamed (cluster : list string) (name : string)
  : list string * option string :=
  if bool_decide (name ∈ cluster) then (cluster, Some "already exists")
  else (name :: cluster, None).

(** A process on Linux and a file system that is a list of the paths that
    exist, for exercising [EnsureBinaries]. *)
Definition linuxProcess (assets : string) : Process :=
  mkProcess (fun name => if String.eqb name "KUBEBUILDER_ASSETS" then assets else "")
            (Ok "/home/dev") "linux" "amd64" (String.concat "/").

Definition listedPaths : FileSystem (list string) :=
  mkFileSystem (fun fs path => negb (bool_decide (path ∈ fs)))
               (fun fs path => (path :: fs, None)).

(* ===================================================================== *)
(** * Part II: properties                                                  *)
(* ===================================================================== *)

(** ** Strings *)

Section StringFacts.

Lemma String_app_nil_l (t : string) : "" +:+ t = t.
Proof. reflexivity. Qed.

Lemma String_app_cons (c : ascii) (s t : string) : String c s +:+ t = String c (s +:+ t).
Proof. reflexivity. Qed.

Lemma String_length_app (s t : string) :
  String.length (s +:+ t) = (String.length s + String.length t)%nat.
Proof.
  induction s as [|c s IH]; [done |].
  rewrite String_app_cons. simpl. by rewrite IH.
Qed.

Lemma String_app_empty_r (s : string) : s +:+ "" = s.
Proof. induction s as [|c s IH]; [done |]. by rewrite String_app_cons, IH. Qed.

Lemma String_app_assoc (s t u : string) : (s +:+ t) +:+ u = s +:+ t +:+ u.
Proof. induction s as [|c s IH]; [done |]. by rewrite !String_app_cons, IH. Qed.

Lemma substring_all (s : string) : substring 0 (String.length s) s = s.
Proof. induction s as [|c s IH]; simpl; [done | by rewrite IH]. Qed.

Lemma substring_0_app (s t : string) :
  substring 0 (String.length s) (s +:+ t) = s.
Proof.
  induction s as [|c s IH]; [by destruct t |].
  rewrite String_app_cons. simpl. by rewrite IH.
Qed.

Lemma substring_skip_app (s t : string) (n : nat) :
  substring (String.length s) n (s +:+ t) = substring 0 n t.
Proof. induction s as [|c s IH]; [done |]. by rewrite String_app_cons. Qed.

Lemma substring_split (s : string) (n : nat) :
  (n <= String.length s)%nat ->
  s = substring 0 n s +:+ substring n (String.length s - n) s.
Proof.
  revert n. induction s as [|c s IH]; intros [|n] Hn; simpl in *; try lia.
  - done.
  - by rewrite String_app_nil_l, substring_all.
  - rewrite String_app_cons. f_equal. apply IH. lia.
Qed.

Lemma HasPrefix_true (s p : string) :
  GoStrings.HasPrefix s p = true <-> exists t, s = p +:+ t.
Proof.
  unfold GoStrings.HasPrefix. rewrite andb_true_iff, Nat.leb_le, String.eqb_eq. split.
  - intros [Hlen Hsub].
    exists (substring (String.length p) (String.length s - String.length p) s).
    rewrite <- Hsub at 1. by apply substring_split.
  - intros [t ->]. rewrite String_length_app, substring_0_app. split; [lia | done].
Qed.

Lemma HasSuffix_true (s suffix : string) :
  GoStrings.HasSuffix s suffix = true <-> EndsIn s suffix.
Proof.
  unfold GoStrings.HasSuffix, EndsIn.
  rewrite andb_true_iff, Nat.leb_le, String.eqb_eq. split.
  - intros [Hlen Hsub].
    exists (substring 0 (String.length s - String.length suffix) s).
    pose proof (substring_split s (String.length s - String.length suffix)) as Hs.
    replace (String.length s - (String.length s - String.length suffix))%nat
      with (String.length suffix) in Hs by lia.
    rewrite Hsub in Hs. apply Hs. lia.
  - intros [p ->]. rewrite String_length_app. split; [lia |].
    replace (String.length p + String.length suffix - String.length suffix)%nat
      with (String.length p) by lia.
    by rewrite substring_skip_app, substring_all.
Qed.

Lemma HasSuffix_false (s suffix : string) :
  GoStrings.HasSuffix s suffix = false <-> ~ EndsIn s suffix.
Proof. rewrite <- HasSuffix_true. by destruct (GoStrings.HasSuffix s suffix). Qed.

End StringFacts.

(** ** Kind to resource-name inference *)

Section Inference.

Lemma y_rule_code_true (lower : string) :
  GoStrings.HasSuffix lower "y" && (1 <? String.length lower)%nat
  && negb (GoStrings.HasSuffix lower "ay")
  && negb (GoStrings.HasSuffix lower "ey")
  && negb (GoStrings.HasSuffix lower "oy") = true
  <-> y_rule_code lower.
Proof.
  unfold y_rule_code, y_rule_spec.
  rewrite !andb_true_iff, !negb_true_iff, !HasSuffix_false, HasSuffix_true, Nat.ltb_lt.
  tauto.
Qed.

Lemma y_rule_spec_true (lower : string) :
  GoStrings.HasSuffix lower "y"
  && negb (GoStrings.HasSuffix lower "ay")
  && negb (GoStrings.HasSuffix lower "ey")
  && negb (GoStrings.HasSuffix lower "oy") = true
  <-> y_rule_spec lower.
Proof.
  unfold y_rule_spec.
  rewrite !andb_true_iff, !negb_true_iff, !HasSuffix_false, HasSuffix_true.
  tauto.
Qed.

Lemma sx_rule_true (lower : string) :
  GoStrings.HasSuffix lower "s" || GoStrings.HasSuffix lower "x" = true
  <-> EndsIn lower "s" \/ EndsIn lower "x".
Proof. by rewrite orb_true_iff, !HasSuffix_true. Qed.

Lemma drop_last_y (lower : string) :
  EndsIn lower "y" ->
  exists stem, lower = stem +:+ "y"
               /\ substring 0 (String.length lower - 1) lower = stem.
Proof.
  intros [stem ->]. exists stem. split; [done |].
  rewrite String_length_app. simpl.
  replace (String.length stem + 1 - 1)%nat with (String.length stem) by lia.
  apply substring_0_app.
Qed.

(** The rules hold of the code when the first one is read with the guard
    on the length that the code has. *)
Lemma inferResourceFromKind_plural_rules (kind : string) :
  plural_rules y_rule_code kind (inferResourceFromKind kind).
Proof.
  unfold plural_rules, inferResourceFromKind.
  set (lower := GoStrings.ToLower kind).
  pose proof (y_rule_code_true lower) as Hy.
  pose proof (sx_rule_true lower) as Hsx.
  destruct (GoStrings.HasSuffix lower "y" && (1 <? String.length lower)%nat
            && negb (GoStrings.HasSuffix lower "ay")
            && negb (GoStrings.HasSuffix lower "ey")
            && negb (GoStrings.HasSuffix lower "oy")) eqn:Ey.
  - assert (y_rule_code lower) as Hcode by (by apply Hy).
    split; [| split]; [| tauto | tauto].
    intros _. destruct Hcode as [_ [Hends _]].
    destruct (drop_last_y lower Hends) as [stem [Hl Hs]].
    exists stem. by rewrite Hs.
  - assert (~ y_rule_code lower) as Hcode by (intros H; apply Hy in H; congruence).
    split; [tauto |].
    destruct (GoStrings.HasSuffix lower "s" || GoStrings.HasSuffix lower "x") eqn:Es.
    + split; [done |]. intros _ Hns Hnx. destruct Hsx as [Hsx _].
      destruct (Hsx eq_refl); tauto.
    + split; [| done]. intros _ H. apply Hsx in H. congruence.
Qed.

(** The function that follows the words of the specification satisfies the
    rules as the specification reads them. *)
Lemma inferResourceFromKind_spec_plural_rules (kind : string) :
  plural_rules y_rule_spec kind (inferResourceFromKind_spec kind).
Proof.
  unfold plural_rules, inferResourceFromKind_spec.
  set (lower := GoStrings.ToLower kind).
  pose proof (y_rule_spec_true lower) as Hy.
  pose proof (sx_rule_true lower) as Hsx.
  destruct (GoStrings.HasSuffix lower "y"
            && negb (GoStrings.HasSuffix lower "ay")
            && negb (GoStrings.HasSuffix lower "ey")
            && negb (GoStrings.HasSuffix lower "oy")) eqn:Ey.
  - assert (y_rule_spec lower) as Hspec by (by apply Hy).
    split; [| split]; [| tauto | tauto].
    intros _. destruct Hspec as [Hends _].
    destruct (drop_last_y lower Hends) as [stem [Hl Hs]].
    exists stem. by rewrite Hs.
  - assert (~ y_rule_spec lower) as Hspec by (intros H; apply Hy in H; congruence).
    split; [tauto |].
    destruct (GoStrings.HasSuffix lower "s" || GoStrings.HasSuffix lower "x") eqn:Es.
    + split; [done |]. intros _ Hns Hnx. destruct Hsx as [Hsx _].
      destruct (Hsx eq_refl); tauto.
    + split; [| done]. intros _ H. apply Hsx in H. congruence.
Qed.

(** The code and the words of the specification part only on the kinds
    whose lower-cased form is the single letter [y]. *)
Lemma inferResourceFromKind_agrees (kind : string) :
  GoStrings.ToLower kind <> "y" ->
  inferResourceFromKind kind = inferResourceFromKind_spec kind.
Proof.
  intros Hne. unfold inferResourceFromKind, inferResourceFromKind_spec.
  set (lower := GoStrings.ToLower kind) in *.
  destruct (GoStrings.HasSuffix lower "y") eqn:Hy; [| done].
  assert ((1 <? String.length lower)%nat = true) as ->; [| done].
  apply HasSuffix_true in Hy as [p Hp].
  apply Nat.ltb_lt. rewrite Hp, String_length_app. simpl.
  destruct p as [|c p]; [by rewrite Hp in Hne | simpl; lia].
Qed.

(** C4, as stated, fails: for the kind [Y] the first rule of the
    specification applies (the lower-cased kind ends in [y] and in none of
    [ay], [ey], [oy]) and asks for the stem followed by [ies], while
    [inferResourceFromKind] returns [ys]. *)
Lemma inferResourceFromKind_single_y :
  inferResourceFromKind "Y" = "ys"
  /\ inferResourceFromKind_spec "Y" = "ies"
  /\ ~ plural_rules y_rule_spec "Y" (inferResourceFromKind "Y").
Proof.
  split; [reflexivity |]. split; [reflexivity |].
  intros [H _]. destruct H as [stem [_ Hres]].
  - split; [by exists "" |].
    split; [| split]; by apply HasSuffix_false.
  - apply (f_equal String.length) in Hres. rewrite String_length_app in Hres.
    simpl in Hres. lia.
Qed.

(** C4, amended: for every kind, [inferResourceFromKind] returns the
    lower-cased kind transformed as follows: if it has more than one
    character, ends in [y] and does not end in [ay], [ey] or [oy], the
    trailing [y] is dropped and [ies] appended; else if it ends in [s] or
    [x], [es] is appended; else [s] is appended.  In particular the five
    kinds of the specification get the plurals it lists. *)
Theorem inferResourceFromKind_rules :
  (forall kind, plural_rules y_rule_code kind (inferResourceFromKind kind))
  /\ inferResourceFromKind "Deployment" = "deployments"
  /\ inferResourceFromKind "Policy" = "policies"
  /\ inferResourceFromKind "Ingress" = "ingresses"
  /\ inferResourceFromKind "NetworkPolicy" = "networkpolicies"
  /\ inferResourceFromKind "Pod" = "pods".
Proof.
  split; [apply inferResourceFromKind_plural_rules |].
  repeat split; reflexivity.
Qed.

(** The resource name of the fast backend is the one that
    [inferResourceFromKind] computes exactly for the kinds that fall under
    the third rule. *)
Lemma fastBackend_resource_agrees (kind : string) :
  fastBackend_resource kind = inferResourceFromKind kind
  <-> ~ y_rule_code (GoStrings.ToLower kind)
      /\ ~ EndsIn (GoStrings.ToLower kind) "s"
      /\ ~ EndsIn (GoStrings.ToLower kind) "x".
Proof.
  destruct (inferResourceFromKind_plural_rules kind) as [Hy [Hsx Hs]].
  unfold fastBackend_resource. cbv zeta in *.
  set (lower := GoStrings.ToLower kind) in *.
  split.
  - intros Heq.
    assert (~ y_rule_code lower) as Hny.
    { intros Hc. destruct (Hy Hc) as [stem [Hl Hr]].
      rewrite <- Heq, Hl in Hr. apply (f_equal String.length) in Hr.
      rewrite !String_length_app in Hr. simpl in Hr. lia. }
    assert (~ (EndsIn lower "s" \/ EndsIn lower "x")) as Hnsx.
    { intros Hc. specialize (Hsx Hny Hc). rewrite <- Heq in Hsx.
      apply (f_equal String.length) in Hsx. rewrite !String_length_app in Hsx.
      simpl in Hsx. lia. }
    tauto.
  - intros [Hny [Hns Hnx]]. symmetry. by apply Hs.
Qed.

(** C5: the two backends do not agree on the seed kind [Policy]: in its
    first loop [fastBackend.Setup] registers the kind under [policys]
    (the lower-cased kind with [s] appended), while [seedObjects] of the
    accurate backend creates the object under [policies], the name that
    [inferResourceFromKind] computes and that the fast backend's own table
    lists for the kind. *)
Theorem fastBackend_resource_Policy :
  let obj := mkObject "kyverno.io" "v1" "Policy" "default" "require-labels" in
  fastBackend_resource "Policy" = "policys"
  /\ inferResourceFromKind "Policy" = "policies"
  /\ GVR "kyverno.io" "v1" "policys" ∈ resources (fastBackend_discovery [obj])
  /\ seedObjects [obj] = [(GVR "kyverno.io" "v1" "policies", "default")]
  /\ ("kyverno.io", "v1", "policies", "Policy") ∈ coreResources.
Proof.
  cbv zeta. split; [reflexivity |]. split; [reflexivity |].
  split; [| split; [reflexivity |]].
  - apply list_elem_of_In. vm_compute. tauto.
  - apply list_elem_of_In. vm_compute. tauto.
Qed.

End Inference.

(** ** Evaluation *)

Section Evaluation.

Lemma foldl_snoc {A B : Type} (f : B -> A) (acc : list A) (l : list B) :
  foldl (fun results x => results ++ [f x]) acc l = acc ++ map f l.
Proof.
  revert acc. induction l as [|x l IH]; intros acc; simpl.
  - by rewrite app_nil_r.
  - rewrite IH. by rewrite <- app_assoc.
Qed.

Lemma evaluatePolicyRules_map (pol : Policy) (resource : Object) (mode : TestMode) :
  evaluatePolicyRules pol resource mode = map (evaluateRule pol resource mode) (Rules pol).
Proof. unfold evaluatePolicyRules. by rewrite foldl_snoc. Qed.

Lemma evaluatePair_app (b : TestBackend) (resource : Object)
    (results : list TestResult.t) (pol : Policy) :
  evaluatePair b resource results pol = results ++ evaluatePair b resource [] pol.
Proof.
  unfold evaluatePair. destruct (policyMatchesResource pol resource); simpl; [| done].
  pose proof (foldl_snoc (fun rr : TestResult.t => rr)) as H.
  rewrite !H. by rewrite !map_id.
Qed.

Lemma foldl_evaluatePair (b : TestBackend) (resource : Object)
    (results : list TestResult.t) (policies : list Policy) :
  foldl (evaluatePair b resource) results policies
  = results ++ concat (map (evaluatePair b resource []) policies).
Proof.
  revert results. induction policies as [|pol policies IH]; intros results; simpl.
  - by rewrite app_nil_r.
  - rewrite IH, (evaluatePair_app b resource results pol). by rewrite <- app_assoc.
Qed.

Lemma foldl_resources (b : TestBackend) (policies : list Policy)
    (results : list TestResult.t) (resources : list Object) :
  foldl (fun results resource => foldl (evaluatePair b resource) results policies)
        results resources
  = results
    ++ concat (map (fun resource => concat (map (evaluatePair b resource []) policies))
                   resources).
Proof.
  revert results. induction resources as [|resource resources IH]; intros results; simpl.
  - by rewrite app_nil_r.
  - rewrite IH, foldl_evaluatePair. by rewrite <- app_assoc.
Qed.

Lemma policyMatchesResource_true (pol : Policy) (resource : Object) :
  policyMatchesResource pol resource = true <-> PolicyMatches pol resource.
Proof.
  unfold policyMatchesResource, PolicyMatches. rewrite existsb_exists. split.
  - intros [rule [Hin Hk]]. apply existsb_exists in Hk as [kind [Hkin Heq]].
    apply String.eqb_eq in Heq. subst kind.
    exists rule. by rewrite !list_elem_of_In.
  - intros [rule [Hin Hk]]. exists rule. rewrite <- list_elem_of_In. split; [done |].
    apply existsb_exists. exists (objKind resource).
    rewrite <- list_elem_of_In, String.eqb_eq. done.
Qed.

Lemma evaluateRule_rule_result (pol : Policy) (resource : Object) (mode : TestMode)
    (rule : Rule) :
  rule_result pol resource mode rule (evaluateRule pol resource mode rule).
Proof.
  unfold rule_result, result_of_pair, type_specific, actionable, evaluateRule.
  destruct (HasValidate rule), (HasMutate rule), (HasGenerate rule),
    (HasVerifyImages rule); simpl; repeat split; intros; congruence.
Qed.

Lemma evaluatePair_pair_results (b : TestBackend) (resource : Object) (pol : Policy) :
  pair_results pol resource (BackendMode b) (evaluatePair b resource [] pol).
Proof.
  unfold pair_results, evaluatePair.
  pose proof (policyMatchesResource_true pol resource) as Hm.
  destruct (policyMatchesResource pol resource); simpl.
  - split; [intros Hn; exfalso; apply Hn; by apply Hm |].
    intros _. rewrite (foldl_snoc (fun rr : TestResult.t => rr)), map_id.
    rewrite evaluatePolicyRules_map. simpl.
    induction (Rules pol) as [|rule rules IH]; simpl; constructor; [| done].
    apply evaluateRule_rule_result.
  - split; [| intros H; apply Hm in H; congruence].
    intros _. eexists. split; [done |]. by repeat split.
Qed.

Lemma pair_results_length (pol : Policy) (resource : Object) (mode : TestMode)
    (results : list TestResult.t) :
  List.length (Rules pol) = 1%nat ->
  pair_results pol resource mode results ->
  List.length results = 1%nat.
Proof.
  intros Hone [Hskip Hrules].
  destruct (policyMatchesResource pol resource) eqn:Hm.
  - apply policyMatchesResource_true in Hm. specialize (Hrules Hm).
    apply Forall2_length in Hrules. congruence.
  - destruct Hskip as [result [-> _]]; [| done].
    intros H. apply policyMatchesResource_true in H. congruence.
Qed.

Lemma length_concat_const {A B : Type} (f : B -> list A) (l : list B) (n : nat) :
  (forall x, x ∈ l -> List.length (f x) = n) ->
  List.length (concat (map f l)) = (List.length l * n)%nat.
Proof.
  induction l as [|x l IH]; intros H; simpl; [done |].
  rewrite length_app, H, IH; [done | |]; [| apply list_elem_of_here].
  intros y Hy. apply H. by apply list_elem_of_further.
Qed.

(** When every policy has exactly one rule, every pair contributes one
    result: the result of the rule, or the skip of the policy. *)
Lemma evaluatePolicies_one_rule (b : TestBackend) (policies : list Policy)
    (resources : list Object) :
  Client b <> None ->
  (forall pol, pol ∈ policies -> List.length (Rules pol) = 1%nat) ->
  exists results,
    evaluatePolicies b policies resources = Ok results
    /\ List.length results = (List.length resources * List.length policies)%nat.
Proof.
  intros Hc Hone. unfold evaluatePolicies. destruct (Client b); [| done].
  eexists. split; [done |].
  rewrite foldl_resources. simpl.
  apply length_concat_const. intros resource _.
  rewrite (length_concat_const _ _ 1); [lia |].
  intros pol Hpol. eapply pair_results_length; [by apply Hone |].
  apply evaluatePair_pair_results.
Qed.

(** C3: evaluation returns, resource by resource and policy by policy, the
    results of each pair: exactly one [skip] result with the fixed message
    and no rule-level result for a policy none of whose rules matches the
    kind of the resource; otherwise exactly one result per rule of the
    policy, [pass] with a type-specific message for a rule that has
    validate, mutate, generate or image-verify, and [skip] with the message
    [no actionable rule type] otherwise.  In particular one policy matching
    [Pod] with a validation rule against one Pod gives exactly one [pass]
    result, one policy matching [Deployment] against one Pod gives exactly
    one [skip] result, and three one-rule policies against three
    resources that all match give exactly nine results. *)
Theorem evaluatePolicies_results (b : TestBackend) (policies : list Policy)
    (resources : list Object) :
  Client b <> None ->
  (exists per : Object -> Policy -> list TestResult.t,
     evaluatePolicies b policies resources
     = Ok (concat (map (fun resource => concat (map (per resource) policies)) resources))
     /\ forall resource pol, pair_results pol resource (BackendMode b) (per resource pol))
  /\ (forall pol rule pod,
        Rules pol = [rule] -> "Pod" ∈ GetKinds rule -> HasValidate rule = true ->
        objKind pod = "Pod" ->
        exists result, evaluatePolicies b [pol] [pod] = Ok [result]
                       /\ TestResult.Status result = "pass")
  /\ (forall pol pod,
        (forall rule, rule ∈ Rules pol -> GetKinds rule = ["Deployment"]) ->
        objKind pod = "Pod" ->
        exists result, evaluatePolicies b [pol] [pod] = Ok [result]
                       /\ TestResult.Status result = "skip")
  /\ (List.length policies = 3%nat -> List.length resources = 3%nat ->
      (forall pol, pol ∈ policies -> List.length (Rules pol) = 1%nat) ->
      (forall pol resource, pol ∈ policies -> resource ∈ resources ->
                            PolicyMatches pol resource) ->
      exists results, evaluatePolicies b policies resources = Ok results
                      /\ List.length results = 9%nat).
Proof.
  intros Hc. split; [| split; [| split]].
  - exists (fun resource pol => evaluatePair b resource [] pol). split.
    + unfold evaluatePolicies. destruct (Client b); [| done].
      by rewrite foldl_resources.
    + intros resource pol. apply evaluatePair_pair_results.
  - intros pol rule pod Hrules Hkind Hval Hpod.
    assert (PolicyMatches pol pod) as Hm.
    { exists rule. rewrite Hrules, Hpod. split; [apply list_elem_of_here | done]. }
    destruct (evaluatePair_pair_results b pod pol) as [_ Hr].
    specialize (Hr Hm). rewrite Hrules in Hr.
    inversion Hr as [| ? result ? rest Hres Hrest]; subst.
    inversion Hrest; subst.
    exists result. split.
    + unfold evaluatePolicies. destruct (Client b); [| done].
      rewrite foldl_resources. simpl. rewrite !app_nil_r. congruence.
    + destruct Hres as [_ [_ [Hpass _]]]. apply Hpass.
      unfold actionable. by rewrite Hval.
  - intros pol pod Hkinds Hpod.
    assert (~ PolicyMatches pol pod) as Hm.
    { intros [rule [Hin Hk]]. rewrite (Hkinds rule Hin), Hpod in Hk.
      apply list_elem_of_singleton in Hk. discriminate. }
    destruct (evaluatePair_pair_results b pod pol) as [Hs _].
    destruct (Hs Hm) as [result [Heq [_ [_ [Hstatus _]]]]].
    exists result. split; [| done].
    unfold evaluatePolicies. destruct (Client b); [| done].
    rewrite foldl_resources. simpl. rewrite !app_nil_r. congruence.
  - intros Hp Hr Hone _.
    destruct (evaluatePolicies_one_rule b policies resources Hc Hone)
      as [results [Heq Hlen]].
    exists results. split; [done |]. rewrite Hlen, Hp, Hr. done.
Qed.

End Evaluation.

Lemma evaluatePolicies_results_witness :
  exists result,
    evaluatePolicies readyFastBackend [podPolicy] [testPod] = Ok [result]
    /\ TestResult.Status result = "pass".
Proof.
  assert (Client readyFastBackend <> None) as Hc by (simpl; discriminate).
  destruct (evaluatePolicies_results readyFastBackend [podPolicy] [testPod] Hc)
    as [_ [Hpod _]].
  apply (Hpod podPolicy (mkRule "check-team" ["Pod"] true false false false) testPod);
    try reflexivity.
  apply list_elem_of_here.
Defined.

(** ** Aggregation *)

Section Aggregation.

Lemma countStatus_cons (status : string) (r : TestResult.t) (rs : list TestResult.t) :
  countStatus status (r :: rs) = (countStatus status [r] + countStatus status rs)%Z.
Proof.
  unfold countStatus. rewrite !filter_cons, filter_nil.
  case_decide; simpl; lia.
Qed.

Lemma tally_frame (s : TestSummary.t) (r : TestResult.t) :
  TestSummary.Mode (tally s r) = TestSummary.Mode s
  /\ TestSummary.Results (tally s r) = TestSummary.Results s
  /\ TestSummary.FellBack (tally s r) = TestSummary.FellBack s
  /\ TestSummary.FallbackReason (tally s r) = TestSummary.FallbackReason s.
Proof.
  unfold tally. simpl.
  repeat (match goal with |- context [String.eqb ?a ?b] => destruct (String.eqb a b) end);
    done.
Qed.

Lemma tally_counts (s : TestSummary.t) (r : TestResult.t) :
  TestSummary.Pass (tally s r) = (TestSummary.Pass s + countStatus "pass" [r])%Z
  /\ TestSummary.Fail (tally s r) = (TestSummary.Fail s + countStatus "fail" [r])%Z
  /\ TestSummary.Warn (tally s r) = (TestSummary.Warn s + countStatus "warn" [r])%Z
  /\ TestSummary.Error (tally s r) = (TestSummary.Error s + countStatus "error" [r])%Z
  /\ TestSummary.Skip (tally s r) = (TestSummary.Skip s + countStatus "skip" [r])%Z.
Proof.
  unfold tally, countStatus. rewrite !filter_cons, !filter_nil. simpl.
  repeat (match goal with
          | |- context [String.eqb ?a ?b] => destruct (String.eqb_spec a b) as [->|?]
          end);
    simpl; repeat case_decide; simplify_eq; simpl; repeat split; lia.
Qed.

Lemma foldl_tally_frame (results : list TestResult.t) (s : TestSummary.t) :
  TestSummary.Mode (foldl tally s results) = TestSummary.Mode s
  /\ TestSummary.Results (foldl tally s results) = TestSummary.Results s
  /\ TestSummary.FellBack (foldl tally s results) = TestSummary.FellBack s
  /\ TestSummary.FallbackReason (foldl tally s results) = TestSummary.FallbackReason s.
Proof.
  revert s. induction results as [|r results IH]; intros s; simpl; [done |].
  destruct (IH (tally s r)) as (-> & -> & -> & ->). apply tally_frame.
Qed.

Lemma foldl_tally_counts (results : list TestResult.t) (s : TestSummary.t) :
  TestSummary.Pass (foldl tally s results)
  = (TestSummary.Pass s + countStatus "pass" results)%Z
  /\ TestSummary.Fail (foldl tally s results)
     = (TestSummary.Fail s + countStatus "fail" results)%Z
  /\ TestSummary.Warn (foldl tally s results)
     = (TestSummary.Warn s + countStatus "warn" results)%Z
  /\ TestSummary.Error (foldl tally s results)
     = (TestSummary.Error s + countStatus "error" results)%Z
  /\ TestSummary.Skip (foldl tally s results)
     = (TestSummary.Skip s + countStatus "skip" results)%Z.
Proof.
  revert s. induction results as [|r results IH]; intros s; simpl.
  - unfold countStatus. simpl. repeat split; lia.
  - destruct (IH (tally s r)) as (-> & -> & -> & -> & ->).
    destruct (tally_counts s r) as (-> & -> & -> & -> & ->).
    rewrite !(countStatus_cons _ r results). repeat split; lia.
Qed.

End Aggregation.

(** ** The runner *)

Section Runner.

Lemma Setup_Ok (w : World) (b b' : TestBackend) (objects : list Object) :
  Setup w b objects = (b', None) ->
  Client b' <> None /\ variant b' = variant b /\ IsReady b' = true.
Proof.
  unfold Setup. destruct (variant b) eqn:Hv.
  - destruct (fakeNewClient w); intros [= <-]. done.
  - destruct (envtestStart w); [intros [=] |].
    destruct (dynamicNewForConfig w); [intros [=] |].
    destruct (kubernetesNewForConfig w); [intros [=] |].
    destruct (realNewClient w); intros [= <-]. done.
Qed.

Lemma BackendMode_fast (b : TestBackend) :
  variant b = fastBackend -> BackendMode b = ModeFast.
Proof. unfold BackendMode. by intros ->. Qed.

Lemma Forall2_right {A B : Type} (R : A -> B -> Prop) (P : B -> Prop)
    (l : list A) (k : list B) :
  (forall x y, R x y -> P y) -> Forall2 R l k -> Forall P k.
Proof. intros HR H. induction H; constructor; eauto. Qed.

Lemma evaluatePair_Mode (b : TestBackend) (resource : Object) (pol : Policy) :
  Forall (fun res => TestResult.Mode res = BackendMode b) (evaluatePair b resource [] pol).
Proof.
  destruct (evaluatePair_pair_results b resource pol) as [Hskip Hrules].
  destruct (policyMatchesResource pol resource) eqn:Hm.
  - apply policyMatchesResource_true in Hm. specialize (Hrules Hm).
    eapply Forall2_right; [| exact Hrules].
    by intros rule res [(_ & _ & _ & _ & Hmode) _].
  - destruct Hskip as [res [-> [(_ & _ & _ & _ & Hmode) _]]].
    + intros H. apply policyMatchesResource_true in H. congruence.
    + by constructor.
Qed.

Lemma evaluatePolicies_Mode (b : TestBackend) (policies : list Policy)
    (resources : list Object) (results : list TestResult.t) :
  evaluatePolicies b policies resources = Ok results ->
  Forall (fun res => TestResult.Mode res = BackendMode b) results.
Proof.
  unfold evaluatePolicies. destruct (Client b); [| done]. intros [= <-].
  rewrite foldl_resources. simpl.
  induction resources as [|resource resources IH]; simpl; [constructor |].
  apply Forall_app. split; [| done].
  clear IH. induction policies as [|pol policies IH]; simpl; [constructor |].
  apply Forall_app. split; [apply evaluatePair_Mode | done].
Qed.

Lemma evaluatePolicies_total (b : TestBackend) (policies : list Policy)
    (resources : list Object) :
  Client b <> None -> exists results, evaluatePolicies b policies resources = Ok results.
Proof. unfold evaluatePolicies. destruct (Client b); [eauto | done]. Qed.

Lemma runPhases_Ok (w : World) (r : TestRunner) (b : TestBackend)
    (summary : TestSummary.t) (policies : list Policy) (resources : list Object)
    (r' : TestRunner) (s : TestSummary.t) :
  runPhases w r b summary policies resources = (r', Ok s) ->
  evaluatePolicies b policies resources = Ok (TestSummary.Results s)
  /\ TestSummary.Mode s = TestSummary.Mode summary
  /\ TestSummary.FellBack s = TestSummary.FellBack summary
  /\ TestSummary.FallbackReason s = TestSummary.FallbackReason summary
  /\ config r' = config r
  /\ backend r' = Some (Teardown w b).1
  /\ TestSummary.Pass s
     = (TestSummary.Pass summary + countStatus "pass" (TestSummary.Results s))%Z
  /\ TestSummary.Fail s
     = (TestSummary.Fail summary + countStatus "fail" (TestSummary.Results s))%Z
  /\ TestSummary.Warn s
     = (TestSummary.Warn summary + countStatus "warn" (TestSummary.Results s))%Z
  /\ TestSummary.Error s
     = (TestSummary.Error summary + countStatus "error" (TestSummary.Results s))%Z
  /\ TestSummary.Skip s
     = (TestSummary.Skip summary + countStatus "skip" (TestSummary.Results s))%Z.
Proof.
  unfold runPhases.
  destruct (evaluatePolicies b policies resources) as [results |]; [| intros [=]].
  destruct (Teardown w b) as [b' terr] eqn:Ht. intros [= <- <-]. simpl.
  destruct (foldl_tally_frame results (TestSummary.set_Results results summary))
    as (-> & -> & -> & ->).
  destruct (foldl_tally_counts results (TestSummary.set_Results results summary))
    as (-> & -> & -> & -> & ->).
  simpl. repeat split; done.
Qed.

Lemma runPhases_total (w : World) (r : TestRunner) (b : TestBackend)
    (summary : TestSummary.t) (policies : list Policy) (resources : list Object) :
  Client b <> None ->
  exists r' s, runPhases w r b summary policies resources = (r', Ok s).
Proof.
  intros Hc. destruct (evaluatePolicies_total b policies resources Hc) as [results He].
  unfold runPhases. rewrite He. destruct (Teardown w b). eauto.
Qed.

Lemma Teardown_variant (w : World) (b : TestBackend) :
  variant (Teardown w b).1 = variant b.
Proof.
  unfold Teardown. destruct (variant b) eqn:Hv; simpl; [done |].
  destruct (envtestStop w); done.
Qed.

Lemma fallback_condition (r : TestRunner) :
  String.eqb (Mode (config r)) ModeAccurate && AutoFallback (config r) = true
  <-> Mode (config r) = ModeAccurate /\ AutoFallback (config r) = true.
Proof. by rewrite andb_true_iff, String.eqb_eq. Qed.

Lemma no_fallback_condition (r : TestRunner) :
  Mode (config r) = ModeFast \/ AutoFallback (config r) = false ->
  String.eqb (Mode (config r)) ModeAccurate && AutoFallback (config r) = false.
Proof. intros [-> | ->]; [done | apply andb_false_r]. Qed.

Lemma runSetup_Ok_inv (w : World) (r : TestRunner) (b0 : TestBackend)
    (summary : TestSummary.t) (policies : list Policy) (resources : list Object)
    (r' : TestRunner) (s : TestSummary.t) :
  runSetup w r b0 summary policies resources = (r', Ok s) ->
  (exists b, Setup w b0 resources = (b, None)
             /\ runPhases w (mkRunner (config r) (Some b)) b summary policies resources
                = (r', Ok s))
  \/ (exists b1 err fast,
        Setup w b0 resources = (b1, Some err)
        /\ Mode (config r) = ModeAccurate /\ AutoFallback (config r) = true
        /\ Setup w newFastBackend resources = (fast, None)
        /\ runPhases w (mkRunner (config r) (Some fast)) fast
                     (TestSummary.set_Mode ModeFast (TestSummary.set_fallback err summary))
                     policies resources
           = (r', Ok s)).
Proof.
  unfold runSetup. destruct (Setup w b0 resources) as [b [err |]] eqn:Hs; simpl.
  - destruct (String.eqb (Mode (config r)) ModeAccurate && AutoFallback (config r))
      eqn:Hf; [| intros [=]].
    apply (fallback_condition r) in Hf as [Hm Ha].
    destruct (Setup w newFastBackend resources) as [fast [err2 |]] eqn:Hs2;
      [intros [=] |].
    intros H. right. by exists b, err, fast.
  - intros H. left. by exists b.
Qed.

(** Every run that returns a summary took one of three paths: no fallback,
    the construction fallback, or the setup fallback. *)
Lemma Run_with_Ok_inv (create : TestRunner -> Result TestBackend) (w : World)
    (r : TestRunner) (policies : list Policy) (resources : list Object)
    (r' : TestRunner) (s : TestSummary.t) :
  Run_with create w r policies resources = (r', Ok s) ->
  counts_are_histogram s
  /\ ((exists b0 b,
         create r = Ok b0 /\ Setup w b0 resources = (b, None)
         /\ TestSummary.Mode s = Mode (config r)
         /\ TestSummary.FellBack s = false
         /\ evaluatePolicies b policies resources = Ok (TestSummary.Results s))
      \/ (exists err b0 b,
            create r = Err err /\ fallbackApplies r
            /\ create (switchToFast r) = Ok b0 /\ Setup w b0 resources = (b, None)
            /\ TestSummary.Mode s = Mode (config r)
            /\ fellBackWith err s
            /\ evaluatePolicies b policies resources = Ok (TestSummary.Results s)
            /\ config r' = config (switchToFast r))
      \/ (exists b0 b1 err fast,
            create r = Ok b0 /\ Setup w b0 resources = (b1, Some err)
            /\ fallbackApplies r
            /\ Setup w newFastBackend resources = (fast, None)
            /\ TestSummary.Mode s = ModeFast
            /\ fellBackWith err s
            /\ evaluatePolicies fast policies resources = Ok (TestSummary.Results s))).
Proof.
  unfold Run_with. destruct (Validate (config r)) eqn:Hv; [intros [=] |].
  destruct (create r) as [b0 | err] eqn:Hc.
  - intros H. apply runSetup_Ok_inv in H as [[b [Hs H]] | (b1 & e & fast & Hs & Hm & Ha & Hs2 & H)];
      apply runPhases_Ok in H
        as (He & Hmode & Hfb & Hfr & _ & _ & Hp & Hf & Hw & Her & Hk); simpl in *.
    + split; [unfold counts_are_histogram; repeat split; lia |].
      left. by exists b0, b.
    + split; [unfold counts_are_histogram; repeat split; lia |].
      right. right. exists b0, b1, e, fast. by repeat split.
  - destruct (String.eqb (Mode (config r)) ModeAccurate && AutoFallback (config r))
      eqn:Hf; [| intros [=]].
    apply (fallback_condition r) in Hf as [Hm Ha].
    fold (switchToFast r).
    destruct (create (switchToFast r)) as [b0 | err2] eqn:Hc2; [| intros [=]].
    intros H. apply runSetup_Ok_inv in H as [[b [Hs H]] | (b1 & e & fast & Hs & Hm2 & _)].
    + apply runPhases_Ok in H
        as (He & Hmode & Hfb & Hfr & Hcfg & _ & Hp & Hfl & Hw & Her & Hk); simpl in *.
      split; [unfold counts_are_histogram; repeat split; lia |].
      right. left. exists err, b0, b. by repeat split.
    + simpl in Hm2. discriminate.
Qed.

(** C8: whenever [Run] returns a summary, each of its five counters is the
    number of entries of its [Results] with that status.  This holds for
    every way of constructing the backend, and so for [Run] itself. *)
Theorem Run_counts_are_histogram (create : TestRunner -> Result TestBackend)
    (w : World) (r : TestRunner) (policies : list Policy) (resources : list Object)
    (r' : TestRunner) (s : TestSummary.t) :
  Run_with create w r policies resources = (r', Ok s)
  \/ Run w r policies resources = (r', Ok s) ->
  counts_are_histogram s.
Proof.
  intros [H | H]; [| unfold Run in H]; by apply Run_with_Ok_inv in H as [Hc _].
Qed.

Lemma Run_counts_are_histogram_witness :
  exists r' s,
    Run calmWorld (NewTestRunner fastConfig) [podPolicy; deploymentPolicy] [testPod]
    = (r', Ok s)
    /\ TestSummary.Pass s = 1%Z /\ TestSummary.Skip s = 1%Z
    /\ counts_are_histogram s.
Proof.
  eexists _, _. split; [vm_compute; reflexivity |].
  split; [reflexivity |]. split; [reflexivity |].
  eapply (Run_counts_are_histogram createBackend calmWorld (NewTestRunner fastConfig)
            [podPolicy; deploymentPolicy] [testPod]).
  right. vm_compute. reflexivity.
Defined.

End Runner.

(** ** The fallback policy of the runner *)

Section Fallback.

Variable create : TestRunner -> Result TestBackend.
Variable w : World.
Variable r : TestRunner.
Variable policies : list Policy.
Variable resources : list Object.

Lemma createBackend_switchToFast : createBackend (switchToFast r) = Ok newFastBackend.
Proof. reflexivity. Qed.

(** [createBackend] cannot fail on a valid configuration. *)
Lemma createBackend_valid :
  Validate (config r) = None -> exists b, createBackend r = Ok b.
Proof.
  unfold Validate, createBackend.
  destruct (String.eqb (Mode (config r)) ModeFast); [eauto |].
  destruct (String.eqb (Mode (config r)) ModeAccurate); [eauto | done].
Qed.

Lemma Run_with_construction_fallback_fatal (err err2 : string) :
  fallbackApplies r -> create r = Err err -> create (switchToFast r) = Err err2 ->
  Run_with create w r policies resources
  = (switchToFast r, Err ("both accurate and fast mode setup failed: " +:+ err2)).
Proof.
  intros (Hv & Hm & Ha) Hc Hc2. unfold Run_with. rewrite Hv, Hc, Hm, Ha. simpl.
  fold (switchToFast r). by rewrite Hc2.
Qed.

Lemma Run_with_construction_fallback_setup_fatal (err err2 : string)
    (b b' : TestBackend) :
  fallbackApplies r -> create r = Err err -> create (switchToFast r) = Ok b ->
  Setup w b resources = (b', Some err2) ->
  (Run_with create w r policies resources).2 = Err ("backend setup failed: " +:+ err2).
Proof.
  intros (Hv & Hm & Ha) Hc Hc2 Hs. unfold Run_with. rewrite Hv, Hc, Hm, Ha. simpl.
  fold (switchToFast r). rewrite Hc2. unfold runSetup. by rewrite Hs.
Qed.

Lemma Run_with_construction_fallback_Ok (err : string) (b b' : TestBackend) :
  fallbackApplies r -> create r = Err err -> create (switchToFast r) = Ok b ->
  Setup w b resources = (b', None) ->
  exists r' s,
    Run_with create w r policies resources = (r', Ok s)
    /\ fellBackWith err s
    /\ Mode (config r') = ModeFast
    /\ TestSummary.Mode s = ModeAccurate
    /\ evaluatePolicies b' policies resources = Ok (TestSummary.Results s).
Proof.
  intros (Hv & Hm & Ha) Hc Hc2 Hs.
  destruct (Setup_Ok w b b' resources Hs) as (Hcl & _ & _).
  unfold Run_with. rewrite Hv, Hc, Hm, Ha. simpl.
  fold (switchToFast r). rewrite Hc2. unfold runSetup. rewrite Hs.
  destruct (runPhases_total w (mkRunner (config (mkRunner (config (switchToFast r)) (Some b)))
                                        (Some b')) b'
              (TestSummary.set_fallback err (TestSummary.new ModeAccurate))
              policies resources Hcl) as (r' & s & Hr).
  exists r', s. split; [exact Hr |].
  apply runPhases_Ok in Hr as (He & Hmode & Hfb & Hfr & Hcfg & _).
  unfold fellBackWith. rewrite Hfb, Hfr, Hcfg, Hmode. done.
Qed.

Lemma Run_with_setup_fallback_fatal (err err2 : string) (b b' fast : TestBackend) :
  fallbackApplies r -> create r = Ok b -> Setup w b resources = (b', Some err) ->
  Setup w newFastBackend resources = (fast, Some err2) ->
  (Run_with create w r policies resources).2
  = Err ("fallback fast mode setup failed: " +:+ err2).
Proof.
  intros (Hv & Hm & Ha) Hc Hs Hs2. unfold Run_with. rewrite Hv, Hc.
  unfold runSetup. rewrite Hs. simpl. rewrite Hm, Ha. simpl. by rewrite Hs2.
Qed.

Lemma Run_with_setup_fallback_Ok (err : string) (b b' fast : TestBackend) :
  fallbackApplies r -> create r = Ok b -> Setup w b resources = (b', Some err) ->
  Setup w newFastBackend resources = (fast, None) ->
  exists r' s,
    Run_with create w r policies resources = (r', Ok s)
    /\ fellBackWith err s
    /\ holdsFastBackend r'
    /\ TestSummary.Mode s = ModeFast
    /\ evaluatePolicies fast policies resources = Ok (TestSummary.Results s).
Proof.
  intros (Hv & Hm & Ha) Hc Hs Hs2.
  destruct (Setup_Ok w newFastBackend fast resources Hs2) as (Hcl & Hvar & _).
  unfold Run_with. rewrite Hv, Hc.
  unfold runSetup. rewrite Hs. simpl. rewrite Hm, Ha. simpl. rewrite Hs2.
  destruct (runPhases_total w (mkRunner (config r) (Some fast)) fast
              (TestSummary.set_Mode ModeFast
                 (TestSummary.set_fallback err (TestSummary.new ModeAccurate)))
              policies resources Hcl) as (r' & s & Hr).
  exists r', s. split; [exact Hr |].
  apply runPhases_Ok in Hr as (He & Hmode & Hfb & Hfr & _ & Hb & _).
  unfold fellBackWith, holdsFastBackend. rewrite Hfb, Hfr, Hmode.
  repeat split; try done.
  exists (Teardown w fast).1. split; [done |]. by rewrite Teardown_variant.
Qed.

Lemma Run_with_no_fallback (err : string) :
  Validate (config r) = None ->
  Mode (config r) = ModeFast \/ AutoFallback (config r) = false ->
  (create r = Err err ->
   Run_with create w r policies resources = (r, Err ("backend setup failed: " +:+ err)))
  /\ (forall b b', create r = Ok b -> Setup w b resources = (b', Some err) ->
      (Run_with create w r policies resources).2
      = Err ("backend setup failed: " +:+ err)).
Proof.
  intros Hv Hno. apply no_fallback_condition in Hno. split.
  - intros Hc. unfold Run_with. by rewrite Hv, Hc, Hno.
  - intros b b' Hc Hs. unfold Run_with. rewrite Hv, Hc.
    unfold runSetup. rewrite Hs. simpl. by rewrite Hno.
Qed.

(** C2: the fallback policy of [Run], for a valid configuration and every
    way [create] of constructing the backend.  (1) If construction fails,
    the mode is Accurate and auto-fallback is enabled, the mode of the
    runner is switched to Fast and construction is retried: a failure of the
    retry, or of the [Setup] of the retried backend, is fatal, and a success
    gives a summary with [FellBack] set and the text of the original failure
    as [FallbackReason]; with [createBackend] the retried backend is a fresh
    fast backend.  (2) If the [Setup] of the constructed backend fails
    under the same conditions, a fresh fast backend is set up: its failure
    is fatal, its success gives a summary with [FellBack] set and the text
    of the original failure as [FallbackReason], evaluated on that fast
    backend.  (3) If the mode is Fast or auto-fallback is disabled, a failure
    of construction or of [Setup] is fatal and carries the original text.
    (4) Whenever a summary with [FellBack] set is returned, its reason is
    the text of the failure of the first construction or of the first
    [Setup]. *)
Theorem Run_fallback_policy :
  Validate (config r) = None ->
  (forall err,
     create r = Err err -> Mode (config r) = ModeAccurate ->
     AutoFallback (config r) = true ->
     (forall err2, create (switchToFast r) = Err err2 ->
        Run_with create w r policies resources
        = (switchToFast r, Err ("both accurate and fast mode setup failed: " +:+ err2)))
     /\ (forall b b' err2, create (switchToFast r) = Ok b ->
           Setup w b resources = (b', Some err2) ->
           (Run_with create w r policies resources).2
           = Err ("backend setup failed: " +:+ err2))
     /\ (forall b b', create (switchToFast r) = Ok b ->
           Setup w b resources = (b', None) ->
           exists r' s,
             Run_with create w r policies resources = (r', Ok s)
             /\ fellBackWith err s
             /\ Mode (config r') = ModeFast
             /\ evaluatePolicies b' policies resources = Ok (TestSummary.Results s))
     /\ createBackend (switchToFast r) = Ok newFastBackend)
  /\ (forall err b b',
        create r = Ok b -> Setup w b resources = (b', Some err) ->
        Mode (config r) = ModeAccurate -> AutoFallback (config r) = true ->
        (forall fast err2, Setup w newFastBackend resources = (fast, Some err2) ->
           (Run_with create w r policies resources).2
           = Err ("fallback fast mode setup failed: " +:+ err2))
        /\ (forall fast, Setup w newFastBackend resources = (fast, None) ->
              exists r' s,
                Run_with create w r policies resources = (r', Ok s)
                /\ fellBackWith err s
                /\ holdsFastBackend r'
                /\ evaluatePolicies fast policies resources
                   = Ok (TestSummary.Results s)))
  /\ (Mode (config r) = ModeFast \/ AutoFallback (config r) = false ->
      forall err,
        (create r = Err err ->
         Run_with create w r policies resources
         = (r, Err ("backend setup failed: " +:+ err)))
        /\ (forall b b', create r = Ok b -> Setup w b resources = (b', Some err) ->
            (Run_with create w r policies resources).2
            = Err ("backend setup failed: " +:+ err)))
  /\ (forall r' s,
        Run_with create w r policies resources = (r', Ok s) ->
        TestSummary.FellBack s = true ->
        create r = Err (TestSummary.FallbackReason s)
        \/ exists b b', create r = Ok b
                        /\ Setup w b resources = (b', Some (TestSummary.FallbackReason s))).
Proof.
  intros Hv. split; [| split; [| split]].
  - intros err Hc Hm Ha.
    assert (fallbackApplies r) as Hf by done.
    split; [| split; [| split]].
    + intros err2 Hc2. by apply (Run_with_construction_fallback_fatal err).
    + intros b b' err2 Hc2 Hs.
      by apply (Run_with_construction_fallback_setup_fatal err err2 b b').
    + intros b b' Hc2 Hs.
      destruct (Run_with_construction_fallback_Ok err b b' Hf Hc Hc2 Hs)
        as (r' & s & H1 & H2 & H3 & _ & H5).
      by exists r', s.
    + apply createBackend_switchToFast.
  - intros err b b' Hc Hs Hm Ha.
    assert (fallbackApplies r) as Hf by done.
    split.
    + intros fast err2 Hs2. by apply (Run_with_setup_fallback_fatal err err2 b b' fast).
    + intros fast Hs2.
      destruct (Run_with_setup_fallback_Ok err b b' fast Hf Hc Hs Hs2)
        as (r' & s & H1 & H2 & H3 & _ & H5).
      by exists r', s.
  - intros Hno err. by apply Run_with_no_fallback.
  - intros r' s H Hfb.
    apply Run_with_Ok_inv in H
      as [_ [(b0 & b & _ & _ & _ & Hfalse & _)
            | [(err & b0 & b & Hc & _ & _ & _ & _ & [_ Hr] & _)
              | (b0 & b1 & err & fast & Hc & Hs & _ & _ & _ & [_ Hr] & _)]]].
    + congruence.
    + left. by rewrite Hr.
    + right. exists b0, b1. by rewrite Hr.
Qed.

(** C10: for a valid configuration, (1) when the fallback is triggered by
    the failure of construction and the retried construction gives a fast
    backend whose [Setup] succeeds, [Run] returns a summary whose [Mode]
    is still [accurate], with [FellBack] set, all of whose results have
    the mode [fast]; (2) when it is triggered by the failure of [Setup],
    the summary has the mode [fast], and so have its results; (3) a
    returned summary whose [Mode] differs from the configured one comes from
    the setup fallback. *)
Theorem Run_summary_mode :
  Validate (config r) = None ->
  (forall err b b',
     create r = Err err -> Mode (config r) = ModeAccurate ->
     AutoFallback (config r) = true ->
     create (switchToFast r) = Ok b -> variant b = fastBackend ->
     Setup w b resources = (b', None) ->
     exists r' s,
       Run_with create w r policies resources = (r', Ok s)
       /\ TestSummary.Mode s = ModeAccurate
       /\ TestSummary.FellBack s = true
       /\ Forall (fun res => TestResult.Mode res = ModeFast) (TestSummary.Results s))
  /\ (forall err b b' fast,
        create r = Ok b -> Setup w b resources = (b', Some err) ->
        Mode (config r) = ModeAccurate -> AutoFallback (config r) = true ->
        Setup w newFastBackend resources = (fast, None) ->
        exists r' s,
          Run_with create w r policies resources = (r', Ok s)
          /\ TestSummary.Mode s = ModeFast
          /\ TestSummary.FellBack s = true
          /\ Forall (fun res => TestResult.Mode res = ModeFast) (TestSummary.Results s))
  /\ (forall r' s,
        Run_with create w r policies resources = (r', Ok s) ->
        TestSummary.Mode s <> Mode (config r) ->
        TestSummary.Mode s = ModeFast
        /\ exists b b' err, create r = Ok b /\ Setup w b resources = (b', Some err)).
Proof.
  intros Hv. split; [| split].
  - intros err b b' Hc Hm Ha Hc2 Hvar Hs.
    assert (fallbackApplies r) as Hf by done.
    destruct (Run_with_construction_fallback_Ok err b b' Hf Hc Hc2 Hs)
      as (r' & s & H1 & [H2 _] & _ & H4 & H5).
    exists r', s. repeat split; try done.
    apply evaluatePolicies_Mode in H5.
    destruct (Setup_Ok w b b' resources Hs) as (_ & Hv' & _).
    rewrite BackendMode_fast in H5; [done | congruence].
  - intros err b b' fast Hc Hs Hm Ha Hs2.
    assert (fallbackApplies r) as Hf by done.
    destruct (Run_with_setup_fallback_Ok err b b' fast Hf Hc Hs Hs2)
      as (r' & s & H1 & [H2 _] & _ & H4 & H5).
    exists r', s. repeat split; try done.
    apply evaluatePolicies_Mode in H5.
    destruct (Setup_Ok w newFastBackend fast resources Hs2) as (_ & Hv' & _).
    rewrite BackendMode_fast in H5; done.
  - intros r' s H Hne.
    apply Run_with_Ok_inv in H
      as [_ [(b0 & b & _ & _ & Hm & _)
            | [(err & b0 & b & _ & _ & _ & _ & Hm & _)
              | (b0 & b1 & err & fast & Hc & Hs & _ & _ & Hm & _)]]];
      [congruence | congruence |].
    split; [done |]. by exists b0, b1, err.
Qed.

End Fallback.

Lemma Setup_calm_fast :
  Setup calmWorld newFastBackend [testPod] = (readyFastBackend, None).
Proof. reflexivity. Qed.

Lemma Setup_noEnvtest_fast :
  Setup noEnvtestWorld newFastBackend [testPod] = (readyFastBackend, None).
Proof. reflexivity. Qed.

Lemma Run_fallback_policy_witness :
  (exists r' s,
     Run_with createWithoutAccurate calmWorld (NewTestRunner accurateConfig)
              [podPolicy] [testPod] = (r', Ok s)
     /\ fellBackWith "accurate backend unavailable" s
     /\ Mode (config r') = ModeFast
     /\ evaluatePolicies readyFastBackend [podPolicy] [testPod]
        = Ok (TestSummary.Results s))
  /\ (exists r' s,
        Run noEnvtestWorld (NewTestRunner accurateConfig) [podPolicy] [testPod]
        = (r', Ok s)
        /\ fellBackWith
             ("failed to start envtest environment: "
              +:+ "fork/exec etcd: no such file or directory"
              +:+ " (ensure envtest binaries are installed via 'setup-envtest use')") s
        /\ holdsFastBackend r'
        /\ evaluatePolicies readyFastBackend [podPolicy] [testPod]
           = Ok (TestSummary.Results s))
  /\ (Run brokenWorld (NewTestRunner accurateConfig) [podPolicy] [testPod]).2
     = Err ("fallback fast mode setup failed: failed to create fake client: "
            +:+ "discovery failed")
  /\ Run_with createNothing calmWorld (NewTestRunner accurateConfig) [podPolicy] [testPod]
     = (switchToFast (NewTestRunner accurateConfig),
        Err "both accurate and fast mode setup failed: no backend for mode fast")
  /\ Run_with createNothing calmWorld (NewTestRunner accurateNoFallbackConfig)
              [podPolicy] [testPod]
     = (NewTestRunner accurateNoFallbackConfig,
        Err "backend setup failed: no backend for mode accurate").
Proof.
  split; [| split; [| split; [| split]]].
  - destruct (Run_fallback_policy createWithoutAccurate calmWorld
                (NewTestRunner accurateConfig) [podPolicy] [testPod] eq_refl)
      as (H & _).
    destruct (H "accurate backend unavailable" eq_refl eq_refl eq_refl)
      as (_ & _ & Hok & _).
    exact (Hok newFastBackend readyFastBackend eq_refl Setup_calm_fast).
  - destruct (Run_fallback_policy createBackend noEnvtestWorld
                (NewTestRunner accurateConfig) [podPolicy] [testPod] eq_refl)
      as (_ & H & _).
    destruct (H _ (newAccurateBackend []) (newAccurateBackend [])
                eq_refl eq_refl eq_refl eq_refl) as (_ & Hok).
    exact (Hok readyFastBackend Setup_noEnvtest_fast).
  - destruct (Run_fallback_policy createBackend brokenWorld
                (NewTestRunner accurateConfig) [podPolicy] [testPod] eq_refl)
      as (_ & H & _).
    destruct (H _ (newAccurateBackend []) (newAccurateBackend [])
                eq_refl eq_refl eq_refl eq_refl) as (Hfatal & _).
    exact (Hfatal newFastBackend "failed to create fake client: discovery failed" eq_refl).
  - destruct (Run_fallback_policy createNothing calmWorld
                (NewTestRunner accurateConfig) [podPolicy] [testPod] eq_refl)
      as (H & _).
    destruct (H "no backend for mode accurate" eq_refl eq_refl eq_refl) as (Hfatal & _).
    exact (Hfatal "no backend for mode fast" eq_refl).
  - destruct (Run_fallback_policy createNothing calmWorld
                (NewTestRunner accurateNoFallbackConfig) [podPolicy] [testPod] eq_refl)
      as (_ & _ & H & _).
    destruct (H (or_intror eq_refl) "no backend for mode accurate") as (Hfatal & _).
    exact (Hfatal eq_refl).
Defined.

Lemma Run_summary_mode_witness :
  (exists r' s,
     Run_with createWithoutAccurate calmWorld (NewTestRunner accurateConfig)
              [podPolicy] [testPod] = (r', Ok s)
     /\ TestSummary.Mode s = ModeAccurate
     /\ TestSummary.FellBack s = true
     /\ Forall (fun res => TestResult.Mode res = ModeFast) (TestSummary.Results s))
  /\ (exists r' s,
        Run noEnvtestWorld (NewTestRunner accurateConfig) [podPolicy] [testPod]
        = (r', Ok s)
        /\ TestSummary.Mode s = ModeFast
        /\ TestSummary.FellBack s = true
        /\ Forall (fun res => TestResult.Mode res = ModeFast) (TestSummary.Results s)).
Proof.
  split.
  - destruct (Run_summary_mode createWithoutAccurate calmWorld
                (NewTestRunner accurateConfig) [podPolicy] [testPod] eq_refl)
      as (H & _).
    exact (H "accurate backend unavailable" newFastBackend readyFastBackend
             eq_refl eq_refl eq_refl eq_refl eq_refl Setup_calm_fast).
  - destruct (Run_summary_mode createBackend noEnvtestWorld
                (NewTestRunner accurateConfig) [podPolicy] [testPod] eq_refl)
      as (_ & H & _).
    exact (H _ (newAccurateBackend []) (newAccurateBackend []) readyFastBackend
             eq_refl eq_refl eq_refl eq_refl Setup_noEnvtest_fast).
Defined.

(** The two fallback runs above each produce one result, and their
    summaries carry the modes [accurate] and [fast]. *)
Example Run_fallback_results :
  (exists r' s,
     Run_with createWithoutAccurate calmWorld (NewTestRunner accurateConfig)
              [podPolicy] [testPod] = (r', Ok s)
     /\ List.length (TestSummary.Results s) = 1%nat
     /\ TestSummary.Mode s = "accurate")
  /\ (exists r' s,
        Run noEnvtestWorld (NewTestRunner accurateConfig) [podPolicy] [testPod]
        = (r', Ok s)
        /\ List.length (TestSummary.Results s) = 1%nat
        /\ TestSummary.Mode s = "fast").
Proof.
  split; eexists _, _; (split; [vm_compute; reflexivity | split; reflexivity]).
Qed.

(** ** The resolver *)

Section Resolver.

Lemma find_split {A : Type} (f : A -> bool) (l : list A) (x : A) :
  List.find f l = Some x ->
  exists before after,
    l = before ++ x :: after /\ f x = true /\ forall y, y ∈ before -> f y = false.
Proof.
  induction l as [|a l IH]; simpl; [done |].
  destruct (f a) eqn:Hfa.
  - intros [= ->]. exists [], l. repeat split; [done |].
    intros y Hy. by apply elem_of_nil in Hy.
  - intros H. destruct (IH H) as (before & after & -> & Hx & Hb).
    exists (a :: before), after. repeat split; [done |].
    intros y [-> | Hy]%elem_of_cons; auto.
Qed.

Lemma find_is_None {A : Type} (f : A -> bool) (l : list A) :
  List.find f l = None <-> forall x, x ∈ l -> f x = false.
Proof.
  split.
  - intros H x Hx. apply (find_none f l H). by apply list_elem_of_In.
  - intros H. destruct (List.find f l) as [x |] eqn:Hf; [| done].
    apply find_some in Hf as [Hin Hx]. apply list_elem_of_In in Hin.
    rewrite (H x Hin) in Hx. discriminate.
Qed.

Lemma elem_of_range {V : Type} (range : Range) (m : gmap string V) (k : string) (v : V) :
  ValidRange range -> (k, v) ∈ range V m <-> m !! k = Some v.
Proof. intros Hr. by rewrite (Hr V m), elem_of_map_to_list. Qed.

Lemma range_singleton {V : Type} (range : Range) (k : string) (v : V) :
  ValidRange range -> range V {[k := v]} = [(k, v)].
Proof.
  intros Hr. apply Permutation_singleton_r. by rewrite (Hr V), map_to_list_singleton.
Qed.

Lemma range_empty {V : Type} (range : Range) : ValidRange range -> range V ∅ = [].
Proof. intros Hr. apply Permutation_nil_r. by rewrite (Hr V), map_to_list_empty. Qed.

Lemma enumeration_range_valid : ValidRange enumeration_range.
Proof. by intros V m. Qed.

Section Index.

Context {A V : Type}.
Variable key : A -> string.
Variable val : A -> V.

(** A map filled by a loop that stores each element under its key. *)
Lemma keyed_keeps (l : list A) (m0 : gmap string V) (p : string) :
  is_Some (m0 !! p) -> is_Some (foldl (fun m x => <[key x := val x]> m) m0 l !! p).
Proof.
  revert m0. induction l as [|x l IH]; intros m0 H; simpl; [done |].
  apply IH. destruct (decide (key x = p)) as [-> | Hne].
  - rewrite lookup_insert_eq. eauto.
  - by rewrite lookup_insert_ne.
Qed.

Lemma keyed_has (l : list A) (m0 : gmap string V) (x : A) :
  x ∈ l -> is_Some (foldl (fun m x => <[key x := val x]> m) m0 l !! key x).
Proof.
  revert m0. induction l as [|a l IH]; intros m0 Hin; simpl.
  - by apply elem_of_nil in Hin.
  - apply elem_of_cons in Hin as [-> | Hin]; [| by apply IH].
    apply keyed_keeps. rewrite lookup_insert_eq. eauto.
Qed.

Lemma keyed_from (l : list A) (m0 : gmap string V) (p : string) (v : V) :
  foldl (fun m x => <[key x := val x]> m) m0 l !! p = Some v ->
  m0 !! p = Some v \/ exists x, x ∈ l /\ key x = p /\ val x = v.
Proof.
  revert m0. induction l as [|a l IH]; intros m0 H; simpl in *; [by left |].
  destruct (IH _ H) as [H0 | (x & Hin & Hp & Hv)].
  - destruct (decide (key a = p)) as [Heq | Hne].
    + rewrite <- Heq, lookup_insert_eq in H0. injection H0 as <-.
      right. exists a. split; [apply list_elem_of_here | done].
    + rewrite lookup_insert_ne in H0 by done. by left.
  - right. exists x. split; [by apply list_elem_of_further | done].
Qed.

End Index.


(** Every result is stored under its composite key, and every entry of
    the lookup map is one of the results, under its own key. *)
Lemma resultMap_keyed (results : list TestResult.t) :
  (forall r, r ∈ results -> is_Some (resultMap results !! resultKey r))
  /\ (forall k r, resultMap results !! k = Some r -> r ∈ results /\ resultKey r = k).
Proof.
  unfold resultMap. split.
  - intros r Hin. by apply (keyed_has resultKey (fun r => r)).
  - intros k r H. apply (keyed_from resultKey (fun r => r)) in H as [H | (x & Hin & Hk & ->)];
      [by rewrite lookup_empty in H | done].
Qed.

Section Resolution.

Context {Value : Type}.
Variable range : Range.
Hypothesis range_valid : ValidRange range.
Variable r : MockResolver Value.
Variable urlPath : string.
Variable vars : gmap string string.

Let resolvedPath : string := substituteVariables range urlPath vars.

Lemma ResolveAPICall_exact (response : Value) :
  apiCalls r !! resolvedPath = Some response ->
  ResolveAPICall range r urlPath vars = Ok response.
Proof. unfold ResolveAPICall. fold resolvedPath. by intros ->. Qed.

Lemma ResolveAPICall_pattern (out : Value) :
  apiCalls r !! resolvedPath = None ->
  ResolveAPICall range r urlPath vars = Ok out ->
  exists pattern,
    apiCalls r !! pattern = Some out /\ firstVisited range r resolvedPath pattern out.
Proof.
  unfold ResolveAPICall. fold resolvedPath. intros ->.
  destruct (List.find _ _) as [[pattern response] |] eqn:Hf; [| done].
  intros [= ->]. apply find_split in Hf as (before & after & Hl & Hm & Hb).
  exists pattern. split.
  - apply (elem_of_range range); [done |]. rewrite Hl.
    apply elem_of_app. right. apply list_elem_of_here.
  - by exists before, after.
Qed.

Lemma ResolveAPICall_not_found :
  apiCalls r !! resolvedPath = None ->
  (forall pattern, is_Some (apiCalls r !! pattern) ->
                   matchesPattern pattern resolvedPath = false) ->
  ResolveAPICall range r urlPath vars
  = Err ("no mock found for API call: " +:+ resolvedPath).
Proof.
  unfold ResolveAPICall. fold resolvedPath. intros -> Hnone.
  destruct (List.find _ _) as [[pattern response] |] eqn:Hf; [| done].
  apply find_some in Hf as [Hin Hm]. apply list_elem_of_In in Hin.
  apply (elem_of_range range) in Hin; [| done].
  simpl in Hm. rewrite Hnone in Hm; [done | eauto].
Qed.

Lemma ResolveAPICall_found (pattern : string) :
  is_Some (apiCalls r !! pattern) ->
  matchesPattern pattern resolvedPath = true ->
  exists out, ResolveAPICall range r urlPath vars = Ok out.
Proof.
  intros [v Hv] Hm. unfold ResolveAPICall. fold resolvedPath.
  destruct (apiCalls r !! resolvedPath); [eauto |].
  destruct (List.find _ _) as [[p response] |] eqn:Hf; [eauto |].
  exfalso. apply find_is_None with (x := (pattern, v)) in Hf; [simpl in Hf; congruence |].
  by apply (elem_of_range range).
Qed.



Lemma substituteVariables_none : vars = ∅ -> resolvedPath = urlPath.
Proof.
  intros Hv. unfold resolvedPath, substituteVariables. rewrite Hv.
  by rewrite (range_empty range).
Qed.

End Resolution.

End Resolver.

(** ** What [matchesPattern] accepts *)

Section Patterns.

Import GoRegexp.

Lemma cut_prefix_Some (p s t : string) : cut_prefix p s = Some t <-> s = p +:+ t.
Proof.
  revert s. induction p as [|a p IH]; intros s; simpl.
  - rewrite String_app_nil_l. split; congruence.
  - rewrite String_app_cons. destruct s as [|b s]; [split; discriminate |].
    destruct (Ascii.eqb_spec a b) as [-> | Hne].
    + rewrite IH. split; congruence.
    + split; [discriminate | congruence].
Qed.

Lemma cut_prefix_cons (a : ascii) (p : string) (b : ascii) (s : string) :
  cut_prefix (String a p) (String b s) = if Ascii.eqb a b then cut_prefix p s else None.
Proof. reflexivity. Qed.

Lemma QuoteMeta_cons (c : ascii) (r : string) :
  QuoteMeta (String c r)
  = if special c then String "\" (String c (QuoteMeta r)) else String c (QuoteMeta r).
Proof. reflexivity. Qed.

Lemma QuoteMeta_app (a b : string) : QuoteMeta (a +:+ b) = QuoteMeta a +:+ QuoteMeta b.
Proof.
  induction a as [|c a IH]; [done |].
  rewrite String_app_cons, !QuoteMeta_cons, IH. by destruct (special c).
Qed.

(** A quoted text begins with a backslash or with a character that needs
    no quoting. *)
Lemma QuoteMeta_head (r : string) (c : ascii) (t : string) :
  QuoteMeta r = String c t -> c = "\"%char \/ special c = false.
Proof.
  destruct r as [|d r]; [discriminate |]. rewrite QuoteMeta_cons.
  destruct (special d) eqn:Hd; intros [= <- _]; auto.
Qed.

(** Cutting a quoted special character off a quoted text is cutting the
    character off the text. *)
Lemma cut_quoted (ch : ascii) (q : string) (p : string) :
  special ch = true ->
  cut_prefix (String "\" (String ch q)) (QuoteMeta p)
  = match p with
    | EmptyString => None
    | String c p' => if Ascii.eqb ch c then cut_prefix q (QuoteMeta p') else None
    end.
Proof.
  intros Hch. destruct p as [|c p]; [reflexivity |]. rewrite QuoteMeta_cons.
  destruct (special c) eqn:Hc; cbn [cut_prefix].
  - by rewrite Ascii.eqb_refl.
  - destruct (Ascii.eqb_spec "\" c) as [<- | _]; [discriminate Hc |].
    destruct (Ascii.eqb_spec ch c) as [<- | _]; [congruence | done].
Qed.

Lemma cut_quoted_pair (ch : ascii) (p : string) :
  special ch = true ->
  cut_prefix (String "\" (String ch (String "\" (String ch ""))))
             (QuoteMeta p)
  = QuoteMeta <$> cut_prefix (String ch (String ch "")) p.
Proof.
  intros Hch. rewrite (cut_quoted ch _ p Hch).
  destruct p as [|c p]; [reflexivity |]. rewrite (cut_prefix_cons ch _ c p).
  destruct (Ascii.eqb ch c); [| reflexivity].
  rewrite (cut_quoted ch _ p Hch). destruct p as [|d p]; [reflexivity |].
  rewrite (cut_prefix_cons ch _ d p). by destruct (Ascii.eqb ch d).
Qed.

Lemma placeholder_tail_quoted (r : string) :
  placeholder_tail (QuoteMeta r) = QuoteMeta <$> name_tail r.
Proof.
  induction r as [|c r IH]; [reflexivity |].
  assert (forall x, cut_prefix "}\}" (QuoteMeta x) = None) as Hbrace.
  { intros x. destruct (QuoteMeta x) as [|d t] eqn:Hx; [reflexivity |].
    cbn [cut_prefix].
    destruct (Ascii.eqb_spec "}" d) as [<- | _]; [| reflexivity].
    by destruct (QuoteMeta_head x _ _ Hx). }
  pose proof (cut_quoted_pair "}" r eq_refl) as Hcut.
  rewrite QuoteMeta_cons. cbn [name_tail].
  destruct (Ascii.eqb_spec c "}") as [-> | Hne]; [reflexivity |].
  assert (placeholder_tail (String c (QuoteMeta r))
          = QuoteMeta <$> match name_tail r with
                          | Some rest => Some rest
                          | None => cut_prefix "}}" r
                          end) as Hinner.
  { cbn [placeholder_tail]. destruct (Ascii.eqb_spec c "}") as [-> | _]; [done |].
    rewrite IH. destruct (name_tail r); [reflexivity |]. exact Hcut. }
  destruct (special c) eqn:Hc; [| exact Hinner].
  change (placeholder_tail (String "\" (String c (QuoteMeta r))))
    with (match placeholder_tail (String c (QuoteMeta r)) with
          | Some rest => Some rest
          | None => cut_prefix "\}\}" (String c (QuoteMeta r))
          end).
  rewrite Hinner.
  destruct (match name_tail r with Some rest => Some rest | None => cut_prefix "}}" r end);
    [reflexivity |]. cbn [fmap option_fmap option_map cut_prefix].
  destruct (Ascii.eqb_spec "\" c) as [<- | _]; [apply Hbrace | reflexivity].
Qed.

Lemma placeholder_quoted (p : string) :
  placeholder (QuoteMeta p) = QuoteMeta <$> raw_placeholder p.
Proof.
  unfold placeholder, raw_placeholder.
  rewrite (cut_quoted_pair "{" p eq_refl).
  destruct (cut_prefix "{{" p) as [r |]; [| reflexivity].
  apply placeholder_tail_quoted.
Qed.

Lemma QuoteMeta_cons_app (c : ascii) (r : string) :
  QuoteMeta (String c r) = quoted_char c +:+ QuoteMeta r.
Proof. unfold quoted_char. rewrite !QuoteMeta_cons. by destruct (special c). Qed.

Lemma replace_placeholders_skip (a b : string) :
  replace_placeholders (a +:+ b) (String.length a) = replace_placeholders b 0.
Proof.
  induction a as [|c a IH]; [done |]. rewrite String_app_cons. simpl. exact IH.
Qed.

Lemma name_tail_suffix (s rest : string) :
  name_tail s = Some rest ->
  exists name, placeholderName name /\ s = name +:+ "}}" +:+ rest.
Proof.
  revert rest. induction s as [|c s IH]; intros rest; [discriminate |].
  cbn [name_tail]. destruct (Ascii.eqb_spec c "}") as [-> | Hne]; [discriminate |].
  assert (Ascii.eqb "}" c = false) as Hc by (by apply Ascii.eqb_neq).
  destruct (name_tail s) as [rest' |] eqn:Hs.
  - intros [= <-]. destruct (IH rest' eq_refl) as (name & [Hn1 Hn2] & ->).
    exists (String c name). split; [| by rewrite String_app_cons].
    split; [done |]. cbn [has_char]. by rewrite Hc, Hn2.
  - intros Hcut. apply cut_prefix_Some in Hcut as ->.
    exists (String c ""). split; [| done]. split; [done |]. cbn [has_char].
    by rewrite Hc.
Qed.

Lemma name_tail_placeholder (name rest : string) :
  placeholderName name -> name_tail (name +:+ "}}" +:+ rest) = Some rest.
Proof.
  intros [Hne Hbrace]. induction name as [|c name IH]; [done |].
  cbn [has_char] in Hbrace. apply orb_false_iff in Hbrace as [Hc Hbrace].
  apply Ascii.eqb_neq in Hc.
  rewrite String_app_cons. cbn [name_tail].
  destruct (Ascii.eqb_spec c "}") as [-> | _]; [done |].
  destruct name as [|d name].
  - rewrite String_app_nil_l. reflexivity.
  - by rewrite IH.
Qed.

Lemma raw_placeholder_Some (p rest : string) :
  raw_placeholder p = Some rest
  <-> exists name, placeholderName name /\ p = "{{" +:+ name +:+ "}}" +:+ rest.
Proof.
  unfold raw_placeholder. split.
  - destruct (cut_prefix "{{" p) as [r |] eqn:Hcut; [| discriminate].
    apply cut_prefix_Some in Hcut as ->. intros Ht.
    destruct (name_tail_suffix r rest Ht) as (name & Hn & ->). by exists name.
  - intros (name & Hn & ->).
    assert (cut_prefix "{{" ("{{" +:+ name +:+ "}}" +:+ rest)
            = Some (name +:+ "}}" +:+ rest)) as -> by reflexivity.
    by apply name_tail_placeholder.
Qed.

Lemma raw_placeholder_None (p : string) :
  raw_placeholder p = None <-> ~ startsWithPlaceholder p.
Proof.
  unfold startsWithPlaceholder. split.
  - intros Hnone (name & rest & Hn & Hp).
    assert (raw_placeholder p = Some rest) as H by (apply raw_placeholder_Some; eauto).
    congruence.
  - intros Hno. destruct (raw_placeholder p) as [rest |] eqn:Hp; [| done].
    exfalso. apply Hno. apply raw_placeholder_Some in Hp as (name & Hn & Hp). eauto.
Qed.

(** The expression of a pattern that begins with a placeholder: the class
    for the placeholder and then the expression of the rest. *)
Lemma replace_placeholders_token (p rest : string) :
  raw_placeholder p = Some rest ->
  replace_placeholders (QuoteMeta p) 0
  = "[^/]+" +:+ replace_placeholders (QuoteMeta rest) 0.
Proof.
  intros Hp. pose proof Hp as Hq.
  apply raw_placeholder_Some in Hq as (name & Hn & ->).
  assert (placeholder (QuoteMeta ("{{" +:+ name +:+ "}}" +:+ rest))
          = Some (QuoteMeta rest)) as Hph by (by rewrite placeholder_quoted, Hp).
  replace ("{{" +:+ name +:+ "}}" +:+ rest) with (("{{" +:+ name +:+ "}}") +:+ rest) in *
    by (by rewrite !String_app_assoc).
  rewrite QuoteMeta_app in *.
  destruct (QuoteMeta ("{{" +:+ name +:+ "}}")) as [|c pre] eqn:Hpre; [discriminate |].
  rewrite String_app_cons in *. cbn [replace_placeholders]. rewrite Hph.
  f_equal. cbn [String.length]. rewrite String_length_app.
  replace (S (String.length pre + String.length (QuoteMeta rest))
           - String.length (QuoteMeta rest) - 1)%nat
    with (String.length pre) by lia.
  apply replace_placeholders_skip.
Qed.

(** The expression of a pattern that begins with another character: the
    character, quoted, and then the expression of the rest. *)
Lemma replace_placeholders_literal (c : ascii) (r : string) :
  raw_placeholder (String c r) = None ->
  replace_placeholders (QuoteMeta (String c r)) 0
  = quoted_char c +:+ replace_placeholders (QuoteMeta r) 0.
Proof.
  intros Hp.
  assert (placeholder (QuoteMeta (String c r)) = None) as Hph
      by (by rewrite placeholder_quoted, Hp).
  unfold quoted_char. rewrite !QuoteMeta_cons in *.
  destruct (special c) eqn:Hc.
  - cbn [replace_placeholders]. rewrite Hph. rewrite String_app_cons. f_equal.
    assert (placeholder (String c (QuoteMeta r)) = None) as ->; [| done].
    unfold placeholder. cbn [cut_prefix].
    destruct (Ascii.eqb_spec "\" c) as [<- | _]; [| done].
    destruct (QuoteMeta r) as [|d t] eqn:Hr; [done |]. cbn [cut_prefix].
    destruct (Ascii.eqb_spec "{" d) as [<- | _]; [| done].
    by destruct (QuoteMeta_head r _ _ Hr).
  - cbn [replace_placeholders]. by rewrite Hph.
Qed.

Lemma parse_quoted_char (c : ascii) (s : string) :
  parse (quoted_char c +:+ s) = cons (Lit c) <$> parse s.
Proof.
  unfold quoted_char. rewrite QuoteMeta_cons.
  destruct (special c) eqn:Hc.
  - change (parse (String "\" (String c s)) = cons (Lit c) <$> parse s).
    cbn [parse]. by rewrite Hc.
  - change (parse (String c s) = cons (Lit c) <$> parse s).
    destruct c as [[] [] [] [] [] [] [] []]; try discriminate Hc; reflexivity.
Qed.

Lemma parse_class (s : string) :
  parse ("[^/]+" +:+ s) = cons NotSlashPlus <$> parse s.
Proof. reflexivity. Qed.

(** The class-plus takes a segment and leaves the rest to the rest of the
    expression. *)
Lemma MatchString_NotSlashPlus (re : list node) (s : string) :
  MatchString (NotSlashPlus :: re) s = true
  <-> exists seg rest, s = seg +:+ rest /\ segment seg /\ MatchString re rest = true.
Proof.
  cbn [MatchString]. induction s as [|d s IH].
  - split; [discriminate |]. intros (seg & rest & Hs & [Hne _] & _).
    destruct seg; [done | discriminate].
  - rewrite andb_true_iff, negb_true_iff, orb_true_iff, IH. split.
    + intros [Hd [(seg & rest & -> & [Hne Hslash] & Hm) | Hm]].
      * exists (String d seg), rest. split; [done |]. split; [| done].
        split; [done |]. cbn [has_char]. by rewrite Ascii.eqb_sym, Hd.
      * exists (String d ""), s. split; [done |]. split; [| done].
        split; [done |]. cbn [has_char]. by rewrite Ascii.eqb_sym, Hd.
    + intros (seg & rest & Hs & [Hne Hslash] & Hm).
      destruct seg as [|c seg]; [done |]. rewrite String_app_cons in Hs.
      injection Hs as <- ->. cbn [has_char] in Hslash.
      apply orb_false_iff in Hslash as [Hc Hslash]. rewrite Ascii.eqb_sym in Hc.
      split; [done |]. destruct seg as [|c' seg].
      * right. by rewrite String_app_nil_l.
      * left. exists (String c' seg), rest. by repeat split.
Qed.

Lemma matchesPattern_unfold (p u : string) :
  matchesPattern p u
  = match parse (replace_placeholders (QuoteMeta p) 0 +:+ "$") with
    | Some re => MatchString re u
    | None => false
    end.
Proof. reflexivity. Qed.

Lemma matchesPattern_empty (u : string) : matchesPattern "" u = true <-> u = "".
Proof.
  rewrite matchesPattern_unfold.
  change (String.eqb u "" = true <-> u = ""). apply String.eqb_eq.
Qed.

Lemma matchesPattern_token (p rest u : string) :
  raw_placeholder p = Some rest ->
  matchesPattern p u = true
  <-> exists seg u', u = seg +:+ u' /\ segment seg /\ matchesPattern rest u' = true.
Proof.
  intros Hp. rewrite matchesPattern_unfold, (replace_placeholders_token p rest Hp).
  rewrite String_app_assoc, parse_class.
  setoid_rewrite (matchesPattern_unfold rest).
  destruct (parse (replace_placeholders (QuoteMeta rest) 0 +:+ "$")) as [re |].
  - apply MatchString_NotSlashPlus.
  - split; [discriminate |]. by intros (seg & u' & _ & _ & H).
Qed.

Lemma matchesPattern_literal (c : ascii) (r u : string) :
  raw_placeholder (String c r) = None ->
  matchesPattern (String c r) u = true
  <-> exists u', u = String c u' /\ matchesPattern r u' = true.
Proof.
  intros Hp. rewrite matchesPattern_unfold, (replace_placeholders_literal c r Hp).
  rewrite String_app_assoc, parse_quoted_char.
  setoid_rewrite (matchesPattern_unfold r).
  destruct (parse (replace_placeholders (QuoteMeta r) 0 +:+ "$")) as [re |].
  - cbn [fmap option_fmap option_map MatchString]. destruct u as [|d u].
    + split; [discriminate |]. by intros (u' & [=] & _).
    + rewrite andb_true_iff. split.
      * intros [Hd Hm]. apply Ascii.eqb_eq in Hd as <-. by exists u.
      * intros (u' & [= <- <-] & Hm). by rewrite Ascii.eqb_refl.
  - split; [discriminate |]. by intros (u' & _ & H).
Qed.

Lemma PatternMatches_matchesPattern :
  forall p u, PatternMatches p u -> matchesPattern p u = true.
Proof.
  intros p u H.
  induction H as [| name rest' seg url Hn Hs Hpm IH | c rest' url Hno Hpm IH].
  - by apply matchesPattern_empty.
  - apply (matchesPattern_token _ rest'); [apply raw_placeholder_Some; eauto |].
    by exists seg, url.
  - apply matchesPattern_literal; [by apply raw_placeholder_None |]. by exists url.
Qed.

Lemma matchesPattern_PatternMatches (n : nat) (p u : string) :
  (String.length p <= n)%nat -> matchesPattern p u = true -> PatternMatches p u.
Proof.
  revert p u. induction n as [|n IH]; intros p u Hlen Hm.
  - destruct p; [| simpl in Hlen; lia].
    apply matchesPattern_empty in Hm as ->. constructor.
  - destruct p as [|c r]; [apply matchesPattern_empty in Hm as ->; constructor |].
    destruct (raw_placeholder (String c r)) as [rest |] eqn:Hp.
    + destruct (proj1 (matchesPattern_token _ rest u Hp) Hm) as (seg & u' & -> & Hs & Hm').
      pose proof Hp as Hq. apply raw_placeholder_Some in Hq as (name & Hn & Heq).
      rewrite Heq. apply matches_placeholder; [done | done |].
      apply IH; [| done].
      rewrite Heq in Hlen. rewrite !String_length_app in Hlen. simpl in Hlen. lia.
    + destruct (proj1 (matchesPattern_literal c r u Hp) Hm) as (u' & -> & Hm').
      apply matches_literal; [by apply raw_placeholder_None |].
      apply IH; [simpl in Hlen; lia | done].
Qed.

(** [matchesPattern] accepts exactly the paths that the pattern matches in
    the words of the specification. *)
Lemma matchesPattern_spec (p u : string) :
  matchesPattern p u = true <-> PatternMatches p u.
Proof.
  split; [by apply (matchesPattern_PatternMatches (String.length p)) |].
  apply PatternMatches_matchesPattern.
Qed.

End Patterns.

(** ** What [ReplaceAll] replaces *)

Section Replacing.





End Replacing.

(** ** What the resolver returns *)

Section Resolving.






(** C9: the data-call lookup succeeds exactly on the keys of its map, with
    the value stored there, and otherwise fails with the error that names
    the entry: a key that looks like a pattern answers only to itself.
    [ResolveAPICall] fails with the error that names the resolved path when
    no registered pattern equals or matches it, and a value it returns is
    the response of such a pattern.  On the empty configuration both
    lookups fail for every argument. *)
Theorem resolution_not_found (range : Range) :
  ValidRange range ->
  (forall (Value : Type) (r : MockResolver Value) (name : string),
     (forall value, ResolveGlobalContext r name = Ok value
                    <-> globalCtx r !! name = Some value)
     /\ (globalCtx r !! name = None ->
         ResolveGlobalContext r name
         = Err ("no mock found for GlobalContextEntry: " +:+ name)))
  /\ (forall (Value : Type) (r : MockResolver Value) (urlPath : string)
             (vars : gmap string string),
        let resolvedPath := substituteVariables range urlPath vars in
        ((forall pattern, is_Some (apiCalls r !! pattern) ->
            pattern <> resolvedPath /\ matchesPattern pattern resolvedPath = false) ->
         ResolveAPICall range r urlPath vars
         = Err ("no mock found for API call: " +:+ resolvedPath))
        /\ (forall out, ResolveAPICall range r urlPath vars = Ok out ->
              exists pattern,
                apiCalls r !! pattern = Some out
                /\ (pattern = resolvedPath \/ matchesPattern pattern resolvedPath = true)))
  /\ (forall (Value : Type) (urlPath : string) (vars : gmap string string)
             (name : string),
        exists r : MockResolver Value,
          NewMockResolver None = Ok r
          /\ NewMockResolver (Some MockConfig.empty) = Ok r
          /\ ResolveAPICall range r urlPath vars
             = Err ("no mock found for API call: "
                    +:+ substituteVariables range urlPath vars)
          /\ ResolveGlobalContext r name
             = Err ("no mock found for GlobalContextEntry: " +:+ name))
  /\ (forall r : MockResolver string,
        NewMockResolver (Some configmapsConfig) = Ok r ->
        ResolveGlobalContext r "deployments-{{namespace}}" = Ok "3"
        /\ ResolveGlobalContext r "deployments-prod"
           = Err "no mock found for GlobalContextEntry: deployments-prod").
Proof.
  intros Hr. split; [| split; [| split]].
  - intros Value r name. unfold ResolveGlobalContext.
    destruct (globalCtx r !! name) as [v |]; split; try done.
    intros value. split; congruence.
  - intros Value r urlPath vars resolvedPath. split.
    + intros Hnone. apply ResolveAPICall_not_found; [done | |].
      * destruct (apiCalls r !! substituteVariables range urlPath vars) eqn:He; [| done].
        destruct (Hnone (substituteVariables range urlPath vars)) as [Hne _]; [eauto |].
        done.
      * intros pattern Hp. by apply Hnone.
    + intros out Hout.
      destruct (apiCalls r !! resolvedPath) as [v |] eqn:He.
      * exists resolvedPath. rewrite (ResolveAPICall_exact range r urlPath vars v He) in Hout.
        injection Hout as <-. auto.
      * destruct (ResolveAPICall_pattern range Hr r urlPath vars out He Hout)
          as (pattern & Hp & (_ & _ & _ & Hm & _)).
        exists pattern. auto.
  - intros Value urlPath vars name.
    exists (mkMockResolver MockConfig.empty ∅ ∅ None).
    split; [reflexivity |]. split; [reflexivity |]. split.
    + apply ResolveAPICall_not_found; [done | apply lookup_empty |].
      intros pattern [v Hv]. simpl in Hv. by rewrite lookup_empty in Hv.
    + unfold ResolveGlobalContext. simpl. by rewrite lookup_empty.
  - intros r [= <-]. split; reflexivity.
Qed.

Lemma resolution_not_found_witness :
  exists r : MockResolver string,
    NewMockResolver None = Ok r
    /\ ResolveAPICall enumeration_range r "/api/v1/namespaces/default/secrets" ∅
       = Err ("no mock found for API call: "
              +:+ substituteVariables enumeration_range
                    "/api/v1/namespaces/default/secrets" ∅)
    /\ ResolveGlobalContext r "deployments"
       = Err "no mock found for GlobalContextEntry: deployments".
Proof.
  destruct (resolution_not_found enumeration_range enumeration_range_valid)
    as (_ & _ & H & _).
  destruct (H string "/api/v1/namespaces/default/secrets" ∅ "deployments")
    as (r & Hnew & _ & Hapi & Hctx).
  exists r. split; [exact Hnew |]. split; [exact Hapi | exact Hctx].
Defined.

End Resolving.

(** ** The mock HTTP server *)

Section Server.

Variable canon : string -> string.

Lemma Contains_unfold (s sub : string) :
  GoStrings.Contains s sub
  = GoStrings.HasPrefix s sub
    || match s with
       | EmptyString => false
       | String _ r => GoStrings.Contains r sub
       end.
Proof. by destruct s. Qed.

Lemma Contains_true (s sub : string) :
  GoStrings.Contains s sub = true <-> Occurs sub s.
Proof.
  unfold Occurs. split.
  - induction s as [|c s IH]; rewrite Contains_unfold, orb_true_iff.
    + intros [H | H]; [| done]. apply HasPrefix_true in H as [t Ht].
      exists "", t. by rewrite String_app_nil_l.
    + intros [H | H].
      * apply HasPrefix_true in H as [t Ht]. exists "", t. by rewrite String_app_nil_l.
      * destruct (IH H) as (a & b & ->). exists (String c a), b.
        by rewrite String_app_cons.
  - intros (a & b & ->). induction a as [|c a IH]; rewrite Contains_unfold, orb_true_iff.
    + left. apply HasPrefix_true. exists b. by rewrite String_app_nil_l.
    + right. by rewrite String_app_cons.
Qed.

Lemma Contains_false (s sub : string) :
  GoStrings.Contains s sub = false <-> ~ Occurs sub s.
Proof. rewrite <- Contains_true. by destruct (GoStrings.Contains s sub). Qed.

Lemma set_Body_same (r : Request.t) : Request.set_Body (Request.Body r) r = r.
Proof. by destruct r. Qed.

(** Whatever [matches] answers, the request is as it was: a body that was
    read is put back. *)
Lemma matches_restores (mock : HTTPCallMock.t) (r : Request.t) :
  (matches canon mock r).2 = r.
Proof.
  unfold matches, matchesRequestMatcher.
  repeat (match goal with
          | |- context [if ?b then _ else _] => destruct b
          | |- context [match ?o with Some _ => _ | None => _ end] => destruct o
          end; simpl; try done).
  all: destruct (Request.Body r) as [unread | err] eqn:Hb; simpl;
    try (destruct (GoStrings.Contains _ _); simpl); rewrite <- Hb; apply set_Body_same.
Qed.

Lemma headers_match (m : RequestMatcher.t) (r : Request.t) :
  forallb (fun kv => String.eqb (Header_Get canon (Request.Header r) kv.1) kv.2)
          (map_to_list (RequestMatcher.Headers m)) = true
  <-> forall key value, RequestMatcher.Headers m !! key = Some value ->
                        Header_Get canon (Request.Header r) key = value.
Proof.
  rewrite forallb_forall. split.
  - intros H key value Hk. apply String.eqb_eq.
    apply (H (key, value)). by apply list_elem_of_In, elem_of_map_to_list.
  - intros H [key value] Hin. apply list_elem_of_In, elem_of_map_to_list in Hin.
    apply String.eqb_eq. by apply H.
Qed.

Lemma body_match (m : RequestMatcher.t) (r : Request.t) :
  RequestMatcher.BodyPattern m <> "" ->
  match ReadAll (Request.Body r) with
  | (Err _, _) => false
  | (Ok body, _) => GoStrings.Contains body (RequestMatcher.BodyPattern m)
  end = true
  <-> exists body, Request.Body r = Reader body
                   /\ Occurs (RequestMatcher.BodyPattern m) body.
Proof.
  intros _. destruct (Request.Body r) as [unread | err]; simpl.
  - rewrite Contains_true. split; [eauto |]. by intros (body & [= <-] & H).
  - split; [done |]. by intros (body & [=] & _).
Qed.

Lemma matchesRequestMatcher_true (m : RequestMatcher.t) (r : Request.t) :
  (matchesRequestMatcher canon m r).1 = true
  <-> (forall key value, RequestMatcher.Headers m !! key = Some value ->
                         Header_Get canon (Request.Header r) key = value)
      /\ (RequestMatcher.BodyPattern m <> "" ->
          exists body, Request.Body r = Reader body
                       /\ Occurs (RequestMatcher.BodyPattern m) body).
Proof.
  unfold matchesRequestMatcher. rewrite <- headers_match.
  destruct (forallb _ _); simpl; [| split; [done | by intros [? _]]].
  destruct (String.eqb_spec (RequestMatcher.BodyPattern m) "") as [He | Hne]; simpl.
  - split; [| done]. intros _. split; [done |]. by intros H.
  - rewrite <- (body_match m r Hne).
    destruct (Request.Body r) as [unread | err]; simpl.
    + destruct (GoStrings.Contains unread _); simpl; split; try done; tauto.
    + split; [done |]. intros [_ H]. by apply H.
Qed.

Lemma matches_true (mock : HTTPCallMock.t) (r : Request.t) :
  (matches canon mock r).1 = true <-> Matches canon mock r.
Proof.
  unfold matches, Matches, SameMethod, GoStrings.EqualFold.
  destruct (String.eqb_spec (HTTPCallMock.Method mock) "") as [He | Hne]; simpl.
  2: destruct (String.eqb_spec (GoStrings.ToLower (HTTPCallMock.Method mock))
                               (GoStrings.ToLower (Request.Method r))) as [Hm | Hm]; simpl.
  3: { split; [done |]. intros [H _]. exfalso. by apply Hm, H. }
  all: destruct (GoStrings.Contains (Request.URL_String r) (HTTPCallMock.URL mock)) eqn:H1;
    [apply Contains_true in H1 | apply Contains_false in H1];
    (destruct (GoStrings.Contains (HTTPCallMock.URL mock) (Request.URL_String r)) eqn:H2;
     [apply Contains_true in H2 | apply Contains_false in H2]);
    (destruct (GoStrings.Contains (Request.URL_Path r) (HTTPCallMock.URL mock)) eqn:H3;
     [apply Contains_true in H3 | apply Contains_false in H3]);
    simpl; try (split; [done | intros (_ & [? | [? | ?]] & _); done]).
  all: destruct (HTTPCallMock.RequestMatcher mock) as [m |] eqn:Hrm;
    [ rewrite matchesRequestMatcher_true; split;
      [ intros Hb; split; [done |]; split; [tauto |]; by intros ? [= <-]
      | intros (_ & _ & Hb); by apply Hb ]
    | split; [| done]; intros _; split; [done |]; split; [tauto | done] ].
Qed.

Lemma matches_false (mock : HTTPCallMock.t) (r : Request.t) :
  (matches canon mock r).1 = false <-> ~ Matches canon mock r.
Proof. rewrite <- matches_true. by destruct (matches canon mock r).1. Qed.

End Server.

Section Handler.

Variable canon : string -> string.
Variable range : Range.
Hypothesis range_valid : ValidRange range.









End Handler.


(** ** The comparator *)

Section Comparator.

Variable range : Range.
Hypothesis range_valid : ValidRange range.

Lemma size_filter_range (P : string * TestResult.t -> Prop)
    `{!forall kv, Decision (P kv)} (m : gmap string TestResult.t) :
  size (filter P m) = List.length (filter P (range _ m)).
Proof.
  rewrite (range_valid _ m), map_filter_alt, map_size_list_to_map; [done |].
  apply (sublist_NoDup _ ((map_to_list m).*1)); [apply NoDup_fst_map_to_list |].
  apply fmap_sublist, sublist_filter.
Qed.

Lemma compareFast_cases (am : gmap string TestResult.t) (kv : string * TestResult.t) :
  (agrees am kv /\ ~ diverges am kv /\ ~ missingFrom am kv /\ divergenceIn am kv = None)
  \/ (~ agrees am kv /\ diverges am kv /\ ~ missingFrom am kv
      /\ exists a, am !! kv.1 = Some a
                   /\ divergenceIn am kv = Some (divergenceOf kv.1 kv.2 a))
  \/ (~ agrees am kv /\ ~ diverges am kv /\ missingFrom am kv /\ divergenceIn am kv = None).
Proof.
  unfold agrees, diverges, missingFrom, divergenceIn.
  destruct (am !! kv.1) as [a |] eqn:Ha.
  - destruct (String.eqb_spec (TestResult.Status kv.2) (TestResult.Status a)) as [He | Hne].
    + left. split; [by exists a |]. split; [| done]. intros (o & [= <-] & H). by apply H.
    + right. left. split; [intros (o & [= <-] & H); by apply Hne |].
      split; [by exists a |]. split; [done |]. by exists a.
  - right. right. split; [by intros (o & [=] & _) |]. split; [by intros (o & [=] & _) |].
    done.
Qed.

Lemma foldl_compareFast (am : gmap string TestResult.t) (l : list (string * TestResult.t))
    (report : ComparisonReport) :
  let report' := foldl (compareFast am) report l in
  Matching report' = (Matching report + Z.of_nat (List.length (filter (agrees am) l)))%Z
  /\ Divergent report'
     = (Divergent report + Z.of_nat (List.length (filter (diverges am) l)))%Z
  /\ OnlyInFast report'
     = (OnlyInFast report + Z.of_nat (List.length (filter (missingFrom am) l)))%Z
  /\ OnlyInAccurate report' = OnlyInAccurate report
  /\ Divergences report' = Divergences report ++ omap (divergenceIn am) l.
Proof.
  revert report. induction l as [|kv l IH]; intros report; simpl.
  - rewrite app_nil_r. repeat split; lia.
  - destruct (IH (compareFast am report kv)) as (-> & -> & -> & -> & ->).
    rewrite !filter_cons.
    destruct (compareFast_cases am kv)
      as [(Ha & Hd & Hm & Hdiv) | [(Ha & Hd & Hm & acc & Hl & Hdiv) | (Ha & Hd & Hm & Hdiv)]];
      rewrite Hdiv;
      repeat (match goal with
              | |- context [decide ?P] => destruct (decide P); [try tauto | try tauto]
              end);
      unfold compareFast; destruct kv as [key fastResult]; simpl in *;
      unfold missingFrom in *; cbn [fst snd] in *.
    + destruct Ha as (acc & Hl & He). cbn [fst snd] in *. rewrite Hl.
      apply String.eqb_eq in He. rewrite He. simpl. repeat split; lia.
    + rewrite Hl. destruct Hd as (acc' & Hl' & Hne). cbn [fst snd] in *.
      assert (acc' = acc) as -> by congruence.
      apply String.eqb_neq in Hne. rewrite Hne. simpl.
      rewrite <- app_assoc. repeat split; lia.
    + rewrite Hm. simpl. repeat split; lia.
Qed.

Lemma foldl_compareAccurate (fm : gmap string TestResult.t)
    (l : list (string * TestResult.t)) (report : ComparisonReport) :
  let report' := foldl (compareAccurate fm) report l in
  Matching report' = Matching report
  /\ Divergent report' = Divergent report
  /\ OnlyInFast report' = OnlyInFast report
  /\ OnlyInAccurate report'
     = (OnlyInAccurate report + Z.of_nat (List.length (filter (missingFrom fm) l)))%Z
  /\ Divergences report' = Divergences report.
Proof.
  revert report. induction l as [|kv l IH]; intros report; simpl.
  - repeat split; lia.
  - destruct (IH (compareAccurate fm report kv)) as (-> & -> & -> & -> & ->).
    rewrite filter_cons. unfold compareAccurate.
    destruct (decide (missingFrom fm kv)) as [Hm | Hm]; unfold missingFrom in Hm.
    + rewrite Hm. simpl. repeat split; lia.
    + destruct (fm !! kv.1); [| done]. simpl. repeat split; lia.
Qed.

Lemma length_divergences (am : gmap string TestResult.t)
    (l : list (string * TestResult.t)) :
  List.length (omap (divergenceIn am) l) = List.length (filter (diverges am) l).
Proof.
  induction l as [|kv l IH]; [done |]. simpl. rewrite filter_cons.
  destruct (compareFast_cases am kv)
    as [(Ha & Hd & Hm & Hdiv) | [(Ha & Hd & Hm & a & Hl & Hdiv) | (Ha & Hd & Hm & Hdiv)]];
    rewrite Hdiv; destruct (decide (diverges am kv)); try tauto;
    first [exact IH | simpl; f_equal; exact IH].
Qed.




End Comparator.


(** ** The cases of the repository's tests, on the embedding *)

Section Tests.

(** [TestConfigValidation] *)
Example Validate_cases :
  Validate (mkTestConfig ModeFast ["policy.yaml"] ["resource.yaml"] [] false) = None
  /\ Validate (mkTestConfig ModeAccurate ["policy.yaml"] ["resource.yaml"] [] false) = None
  /\ Validate (mkTestConfig ModeFast [] ["resource.yaml"] [] false)
     = Some "at least one policy path is required"
  /\ Validate (mkTestConfig ModeFast ["policy.yaml"] [] [] false)
     = Some "at least one resource path is required"
  /\ Validate (mkTestConfig "invalid" ["policy.yaml"] ["resource.yaml"] [] false)
     = Some "invalid mode: invalid".
Proof. repeat split; reflexivity. Qed.

(** [TestInferResourceFromKind] *)
Example inferResourceFromKind_cases :
  map inferResourceFromKind
      ["Deployment"; "Pod"; "Service"; "Policy"; "Ingress"; "Namespace"; "NetworkPolicy"]
  = ["deployments"; "pods"; "services"; "policies"; "ingresses"; "namespaces";
     "networkpolicies"].
Proof. reflexivity. Qed.

(** [TestEnhancedFakeDiscovery] and [TestEnhancedFakeDiscoveryRegisterCustom] *)
Example discovery_cases :
  let widgets := GVR "example.com" "v1" "widgets" in
  let widget := GVK "example.com" "v1" "Widget" in
  let once := RegisterResource newEnhancedFakeDiscovery widgets widget in
  ResourceCount newEnhancedFakeDiscovery = 60%nat
  /\ ResourceCount once = 61%nat
  /\ ResourceCount (RegisterResource once widgets widget) = 61%nat
  /\ gvrToGVK once !! widgets = Some widget.
Proof. cbv zeta. repeat split; vm_compute; reflexivity. Qed.

(** [TestFastBackendSetupTeardown] and [TestFastBackendEmptySetup] *)
Example fastBackend_cases :
  IsReady newFastBackend = false
  /\ IsReady (Setup calmWorld newFastBackend []).1 = true
  /\ (Setup calmWorld newFastBackend []).2 = None
  /\ BackendMode (Setup calmWorld newFastBackend [testPod]).1 = ModeFast
  /\ IsReady (Teardown calmWorld (Setup calmWorld newFastBackend [testPod]).1).1 = false
  /\ Client (Teardown calmWorld (Setup calmWorld newFastBackend [testPod]).1).1 = None.
Proof. repeat split; reflexivity. Qed.

(** [TestRunnerFastMode] and [TestRunnerPolicyResourceMismatch] *)
Example Run_cases :
  (exists r' s,
     Run calmWorld (NewTestRunner fastConfig) [podPolicy] [testPod] = (r', Ok s)
     /\ TestSummary.Mode s = ModeFast
     /\ TestSummary.FellBack s = false
     /\ List.length (TestSummary.Results s) = 1%nat
     /\ TestSummary.Pass s = 1%Z)
  /\ (exists r' s,
        Run calmWorld (NewTestRunner fastConfig) [deploymentPolicy] [testPod] = (r', Ok s)
        /\ List.length (TestSummary.Results s) = 1%nat
        /\ TestSummary.Skip s = 1%Z).
Proof.
  split; eexists _, _; (split; [vm_compute; reflexivity | repeat split; reflexivity]).
Qed.

(** [TestMockResolver_ResolveAPICall] *)
Example ResolveAPICall_cases :
  let exact : MockConfig.t string :=
    MockConfig.mk [APICallMock.mk "/api/v1/namespaces/default/configmaps" "" "items"] [] [] in
  (forall r, NewMockResolver (Some exact) = Ok r ->
     ResolveAPICall enumeration_range r "/api/v1/namespaces/default/configmaps" ∅
     = Ok "items")
  /\ (forall r, NewMockResolver (Some configmapsConfig) = Ok r ->
        ResolveAPICall enumeration_range r configmapsPattern {["namespace" := "prod"]}
        = Ok "items")
  /\ (forall r : MockResolver string, NewMockResolver (Some MockConfig.empty) = Ok r ->
        ResolveAPICall enumeration_range r "/api/v1/namespaces/default/secrets" ∅
        = Err "no mock found for API call: /api/v1/namespaces/default/secrets").
Proof.
  cbv zeta. repeat split; intros r [= <-]; vm_compute; reflexivity.
Qed.

(** What the placeholder expression takes for a placeholder, and what the
    resulting expression matches. *)
Example matchesPattern_cases :
  GoRegexp.QuoteMeta "/api/{{ns}}/x.y" = "/api/\{\{ns\}\}/x\.y"
  /\ GoRegexp.replace_placeholders (GoRegexp.QuoteMeta "/api/{{ns}}/x.y") 0
     = "/api/[^/]+/x\.y"
  /\ matchesPattern "/api/{{ns}}/x.y" "/api/prod/x.y" = true
  /\ matchesPattern "/api/{{ns}}/x.y" "/api/prod/xzy" = false
  /\ matchesPattern "/api/{{ns}}/x.y" "/api/a/b/x.y" = false
  /\ matchesPattern "/api/{{ns}}/x.y" "/api//x.y" = false
  /\ matchesPattern "/api/{{}}" "/api/prod" = false
  /\ matchesPattern "/api/{{}}" "/api/{{}}" = true.
Proof. repeat split; reflexivity. Qed.

(** [strings.ReplaceAll] on overlapping and repeated occurrences. *)
Example ReplaceAll_cases :
  GoStrings.ReplaceAll "aaa" "aa" "b" = "ba"
  /\ GoStrings.ReplaceAll "/x/{{ns}}/{{ns}}" "{{ns}}" "p" = "/x/p/p"
  /\ GoStrings.ReplaceAll "ab" "" "-" = "-a-b-".
Proof. repeat split; reflexivity. Qed.

(** [TestHTTPMockServer], with shorter bodies. *)
Example handler_cases :
  let s := mkHTTPMockServer
             [HTTPCallMock.mk "/validate" "POST" None (HTTPResponse.mk 200 ∅ "valid");
              HTTPCallMock.mk "/deny" "POST" None (HTTPResponse.mk 403 ∅ "denied")] in
  let post path := Request.mk "POST" path path {["Content-Type" := "application/json"]}
                              (Reader "") in
  let answer r :=
    (handler CanonicalMIMEHeaderKey enumeration_range s ResponseWriter.new r).1 in
  ResponseWriter.WriteHeader (answer (post "/validate")) = Some 200%Z
  /\ ResponseWriter.Written (answer (post "/validate")) = "valid"
  /\ ResponseWriter.WriteHeader (answer (post "/deny")) = Some 403%Z
  /\ ResponseWriter.WriteHeader (answer unknownRequest) = Some 404%Z
  /\ ResponseWriter.Written (answer unknownRequest) = notFoundBody.
Proof. cbv zeta. repeat split; vm_compute; reflexivity. Qed.

(** Header names in the canonical form of [net/http]. *)
Example CanonicalMIMEHeaderKey_cases :
  CanonicalMIMEHeaderKey "content-type" = "Content-Type"
  /\ CanonicalMIMEHeaderKey "X-TOKEN" = "X-Token"
  /\ CanonicalMIMEHeaderKey "x token" = "x token".
Proof. repeat split; reflexivity. Qed.

End Tests.

(* ===================================================================== *)
(** * Part III: further properties of the code                             *)
(* ===================================================================== *)

(** ** The discovery registry of the fast backend *)

Section Registry.

Lemma existsb_is (gvr : GroupVersionResource) (l : list GroupVersionResource) :
  existsb (fun existing => bool_decide (existing = gvr)) l = true <-> gvr ∈ l.
Proof.
  rewrite existsb_exists. split.
  - intros (x & Hx & He). apply bool_decide_eq_true in He as <-. by apply list_elem_of_In.
  - intros H. exists gvr. split; [by apply list_elem_of_In | by apply bool_decide_eq_true].
Qed.

Lemma RegisterResource_listed (d : enhancedFakeDiscovery) (gvr : GroupVersionResource)
    (gvk : GroupVersionKind) :
  gvr ∈ resources d -> RegisterResource d gvr gvk = d.
Proof.
  intros H. unfold RegisterResource. apply existsb_is in H. by rewrite H.
Qed.

Lemma RegisterResource_new (d : enhancedFakeDiscovery) (gvr : GroupVersionResource)
    (gvk : GroupVersionKind) :
  gvr ∉ resources d ->
  RegisterResource d gvr gvk
  = mkDiscovery (resources d ++ [gvr]) (<[gvr := gvk]> (gvrToGVK d)).
Proof.
  intros H. unfold RegisterResource.
  destruct (existsb _ _) eqn:E; [| done]. by apply existsb_is in E.
Qed.

Lemma addCore_resources (l : list (string * string * string * string))
    (d : enhancedFakeDiscovery) :
  resources (foldl addCore d l)
  = resources d ++ map (fun r => GVR r.1.1.1 r.1.1.2 r.1.2) l.
Proof.
  revert d. induction l as [| [[[g v] r] k] l IH]; intros d; simpl.
  - by rewrite app_nil_r.
  - rewrite IH. simpl. by rewrite <- app_assoc.
Qed.

Lemma addCore_kinds (l : list (string * string * string * string))
    (d : enhancedFakeDiscovery) :
  (forall gvr, gvr ∈ resources d <-> is_Some (gvrToGVK d !! gvr)) ->
  forall gvr, gvr ∈ resources (foldl addCore d l)
              <-> is_Some (gvrToGVK (foldl addCore d l) !! gvr).
Proof.
  revert d. induction l as [| [[[g v] r] k] l IH]; intros d Hd; simpl; [done |].
  apply IH. intros gvr. simpl. rewrite elem_of_app, list_elem_of_singleton.
  destruct (decide (gvr = GVR g v r)) as [-> | Hne].
  - rewrite lookup_insert_eq. split; [by eauto | by right].
  - rewrite lookup_insert_ne by done. rewrite Hd.
    split; [intros [H | H]; [done | by subst] | by left].
Qed.

Lemma newEnhancedFakeDiscovery_consistent : consistentRegistry newEnhancedFakeDiscovery.
Proof.
  split.
  - unfold newEnhancedFakeDiscovery. rewrite addCore_resources. simpl.
    apply (bool_decide_unpack _). by vm_compute.
  - apply addCore_kinds. intros gvr. simpl. rewrite lookup_empty.
    split; [by intros ?%elem_of_nil | by intros [? ?]].
Qed.

Lemma RegisterResource_consistent (d : enhancedFakeDiscovery)
    (gvr : GroupVersionResource) (gvk : GroupVersionKind) :
  consistentRegistry d -> consistentRegistry (RegisterResource d gvr gvk).
Proof.
  intros [Hnd Hk]. destruct (decide (gvr ∈ resources d)) as [Hin | Hnin].
  - by rewrite RegisterResource_listed.
  - rewrite RegisterResource_new by done. split; simpl.
    + apply NoDup_app. split; [done |]. split; [| apply NoDup_singleton].
      intros x Hx ->%list_elem_of_singleton. done.
    + intros x. rewrite elem_of_app, list_elem_of_singleton.
      destruct (decide (x = gvr)) as [-> | Hne].
      * rewrite lookup_insert_eq. split; [by eauto | by right].
      * rewrite lookup_insert_ne by done. rewrite Hk.
        split; [intros [H | H]; [done | by subst] | by left].
Qed.

Lemma fastBackend_register_consistent (d : enhancedFakeDiscovery) (obj : Object) :
  consistentRegistry d -> consistentRegistry (fastBackend_register d obj).
Proof.
  intros H. unfold fastBackend_register. destruct (String.eqb _ _); [done |].
  by apply RegisterResource_consistent.
Qed.

Lemma consistent_size (d : enhancedFakeDiscovery) :
  consistentRegistry d -> ResourceCount d = size (gvrToGVK d).
Proof.
  intros [Hnd Hk]. unfold ResourceCount.
  rewrite <- size_dom, <- (size_list_to_set (C := gset GroupVersionResource)) by done.
  f_equal. apply set_eq. intros x. rewrite elem_of_list_to_set, elem_of_dom. apply Hk.
Qed.


Lemma RegisterResource_prefix (d : enhancedFakeDiscovery) (gvr : GroupVersionResource)
    (gvk : GroupVersionKind) :
  resources d `prefix_of` resources (RegisterResource d gvr gvk).
Proof.
  destruct (decide (gvr ∈ resources d)) as [Hin | Hnin].
  - by rewrite RegisterResource_listed.
  - rewrite RegisterResource_new by done. by exists [gvr].
Qed.

Lemma RegisterResource_keeps (d : enhancedFakeDiscovery) (gvr : GroupVersionResource)
    (gvk : GroupVersionKind) (other : GroupVersionResource) :
  other ∈ resources d \/ other <> gvr ->
  gvrToGVK (RegisterResource d gvr gvk) !! other = gvrToGVK d !! other.
Proof.
  intros H. destruct (decide (gvr ∈ resources d)) as [Hin | Hnin].
  - by rewrite RegisterResource_listed.
  - rewrite RegisterResource_new by done. simpl. apply lookup_insert_ne.
    intros ->. by destruct H.
Qed.

(** X2: [RegisterResource] keeps the first registration of a resource
    identity.  Registering an identity that is already listed changes
    nothing, whatever kind is given; registering a new one appends it to the
    list, raises the count by one and records its kind; the identities that
    were listed stay in front, in their order, and no kind of another
    identity changes. *)
Theorem RegisterResource_first_wins (d : enhancedFakeDiscovery)
    (gvr : GroupVersionResource) (gvk gvk' : GroupVersionKind) :
  RegisterResource (RegisterResource d gvr gvk) gvr gvk' = RegisterResource d gvr gvk
  /\ gvr ∈ AllGVRs (RegisterResource d gvr gvk)
  /\ AllGVRs d `prefix_of` AllGVRs (RegisterResource d gvr gvk)
  /\ (gvr ∈ AllGVRs d -> RegisterResource d gvr gvk = d)
  /\ (gvr ∉ AllGVRs d ->
      AllGVRs (RegisterResource d gvr gvk) = AllGVRs d ++ [gvr]
      /\ ResourceCount (RegisterResource d gvr gvk) = S (ResourceCount d)
      /\ gvrToGVK (RegisterResource d gvr gvk) !! gvr = Some gvk)
  /\ (forall other, other ∈ AllGVRs d \/ other <> gvr ->
        gvrToGVK (RegisterResource d gvr gvk) !! other = gvrToGVK d !! other).
Proof.
  unfold AllGVRs.
  assert (Hin : gvr ∈ resources (RegisterResource d gvr gvk)).
  { destruct (decide (gvr ∈ resources d)) as [Hin | Hnin].
    - by rewrite RegisterResource_listed.
    - rewrite RegisterResource_new by done. simpl. apply elem_of_app. right.
      by apply list_elem_of_singleton. }
  split; [by apply RegisterResource_listed |].
  split; [done |].
  split; [apply RegisterResource_prefix |].
  split; [apply RegisterResource_listed |].
  split; [| intros other; apply RegisterResource_keeps].
  intros Hnin. rewrite RegisterResource_new by done. simpl.
  split; [done |]. split; [| apply lookup_insert_eq].
  unfold ResourceCount. simpl. rewrite length_app. simpl. lia.
Qed.

Lemma fastBackend_register_prefix (d : enhancedFakeDiscovery) (obj : Object) :
  resources d `prefix_of` resources (fastBackend_register d obj).
Proof.
  unfold fastBackend_register. destruct (String.eqb _ _); [done |].
  apply RegisterResource_prefix.
Qed.

Lemma fastBackend_register_keeps (d : enhancedFakeDiscovery) (obj : Object)
    (other : GroupVersionResource) :
  other ∈ resources d ->
  gvrToGVK (fastBackend_register d obj) !! other = gvrToGVK d !! other.
Proof.
  intros H. unfold fastBackend_register. destruct (String.eqb _ _); [done |].
  apply RegisterResource_keeps. by left.
Qed.

Lemma fastBackend_register_count (d : enhancedFakeDiscovery) (obj : Object) :
  (ResourceCount (fastBackend_register d obj) <= S (ResourceCount d))%nat.
Proof.
  unfold fastBackend_register. destruct (String.eqb _ _); [lia |].
  destruct (decide (GVR (gvkGroup (GroupVersionKind_of obj))
                        (gvkVersion (GroupVersionKind_of obj))
                        (fastBackend_resource (gvkKind (GroupVersionKind_of obj)))
                    ∈ resources d)) as [Hin | Hnin].
  - rewrite RegisterResource_listed by done. lia.
  - rewrite RegisterResource_new by done. unfold ResourceCount. simpl.
    rewrite length_app. simpl. lia.
Qed.

Lemma foldl_register_prefix (objects : list Object) (d : enhancedFakeDiscovery) :
  resources d `prefix_of` resources (foldl fastBackend_register d objects).
Proof.
  revert d. induction objects as [| obj objects IH]; intros d; simpl; [done |].
  etrans; [apply fastBackend_register_prefix | apply IH].
Qed.

Lemma foldl_register_keeps (objects : list Object) (d : enhancedFakeDiscovery)
    (other : GroupVersionResource) :
  other ∈ resources d ->
  gvrToGVK (foldl fastBackend_register d objects) !! other = gvrToGVK d !! other.
Proof.
  revert d. induction objects as [| obj objects IH]; intros d H; simpl; [done |].
  rewrite IH.
  - by apply fastBackend_register_keeps.
  - destruct (fastBackend_register_prefix d obj) as [k ->]. apply elem_of_app. by left.
Qed.

Lemma foldl_register_count (objects : list Object) (d : enhancedFakeDiscovery) :
  (ResourceCount (foldl fastBackend_register d objects)
   <= ResourceCount d + List.length objects)%nat.
Proof.
  revert d. induction objects as [| obj objects IH]; intros d; simpl; [lia |].
  specialize (IH (fastBackend_register d obj)).
  pose proof (fastBackend_register_count d obj). lia.
Qed.

Lemma foldl_register_consistent (objects : list Object) (d : enhancedFakeDiscovery) :
  consistentRegistry d -> consistentRegistry (foldl fastBackend_register d objects).
Proof.
  revert d. induction objects as [| obj objects IH]; intros d H; simpl; [done |].
  by apply IH, fastBackend_register_consistent.
Qed.

Lemma String_app_inj_r (s s' t : string) : s +:+ t = s' +:+ t -> s = s'.
Proof.
  revert s'. induction s as [| c s IH]; intros [| c' s'] H.
  - done.
  - apply (f_equal String.length) in H. rewrite String_app_nil_l in H.
    rewrite String_length_app in H. simpl in H. lia.
  - apply (f_equal String.length) in H. rewrite String_app_nil_l in H.
    rewrite String_length_app in H. simpl in H. lia.
  - rewrite !String_app_cons in H. injection H as -> H. f_equal. by apply IH.
Qed.

Lemma fastBackend_register_shaped (d0 d : enhancedFakeDiscovery) (obj : Object) :
  seedShaped d0 d -> seedShaped d0 (fastBackend_register d obj).
Proof.
  intros H. unfold fastBackend_register. destruct (String.eqb _ _); [done |].
  set (gvr := GVR _ _ _). set (gvk := GroupVersionKind_of obj).
  destruct (decide (gvr ∈ resources d)) as [Hin | Hnin].
  - by rewrite RegisterResource_listed.
  - rewrite RegisterResource_new by done. intros x k. simpl.
    destruct (decide (x = gvr)) as [-> | Hne].
    + rewrite lookup_insert_eq. intros [= <-]. by right.
    + rewrite lookup_insert_ne by done. apply H.
Qed.

Lemma foldl_register_shaped (objects : list Object) (d0 d : enhancedFakeDiscovery) :
  seedShaped d0 d -> seedShaped d0 (foldl fastBackend_register d objects).
Proof.
  revert d. induction objects as [| obj objects IH]; intros d H; simpl; [done |].
  by apply IH, fastBackend_register_shaped.
Qed.

Lemma fastBackend_register_listed (d : enhancedFakeDiscovery) (obj : Object) :
  objKind obj <> "" ->
  GVR (objGroup obj) (objVersion obj) (fastBackend_resource (objKind obj))
  ∈ resources (fastBackend_register d obj).
Proof.
  intros Hk. unfold fastBackend_register. simpl.
  destruct (String.eqb_spec (objKind obj) ""); [done |].
  set (gvr := GVR _ _ _).
  destruct (decide (gvr ∈ resources d)) as [Hin | Hnin].
  - by rewrite RegisterResource_listed.
  - rewrite RegisterResource_new by done. simpl. apply elem_of_app. right.
    by apply list_elem_of_singleton.
Qed.

Lemma foldl_register_listed (objects : list Object) (d : enhancedFakeDiscovery)
    (obj : Object) :
  obj ∈ objects -> objKind obj <> "" ->
  GVR (objGroup obj) (objVersion obj) (fastBackend_resource (objKind obj))
  ∈ resources (foldl fastBackend_register d objects).
Proof.
  revert d. induction objects as [| o objects IH]; intros d Hin Hk.
  - by apply elem_of_nil in Hin.
  - simpl. apply elem_of_cons in Hin as [-> | Hin]; [| by apply IH].
    destruct (foldl_register_prefix objects (fastBackend_register d o)) as [k ->].
    apply elem_of_app. left. by apply fastBackend_register_listed.
Qed.

(** X1: whatever the seed objects, the registry that [fastBackend.Setup]
    builds lists no resource identity twice, has a kind for exactly the
    identities it lists, and its count is the number of its kind entries. *)
Theorem fastBackend_discovery_consistent (objects : list Object) :
  let d := fastBackend_discovery objects in
  NoDup (AllGVRs d)
  /\ (forall gvr, gvr ∈ AllGVRs d <-> is_Some (gvrToGVK d !! gvr))
  /\ ResourceCount d = size (gvrToGVK d).
Proof.
  intros d.
  assert (H : consistentRegistry d)
    by apply foldl_register_consistent, newEnhancedFakeDiscovery_consistent.
  split; [apply H |]. split; [apply H |]. by apply consistent_size.
Qed.

(** X3: the registry that [fastBackend.Setup] builds keeps the catalog:
    its sixty identities stay in front with their kinds, and at most one
    identity is added per seed object.  Every seed object with a non-empty
    kind has the identity made of its group, its version and its lower-cased
    kind followed by [s] listed; unless the catalog already has that
    identity, the kind recorded for it has the group and version of the
    object and its kind up to the case of the letters. *)
Theorem fastBackend_discovery_seeds (objects : list Object) :
  let d := fastBackend_discovery objects in
  AllGVRs newEnhancedFakeDiscovery `prefix_of` AllGVRs d
  /\ (forall gvr, gvr ∈ AllGVRs newEnhancedFakeDiscovery ->
        gvrToGVK d !! gvr = gvrToGVK newEnhancedFakeDiscovery !! gvr)
  /\ (60 <= ResourceCount d <= 60 + List.length objects)%nat
  /\ (forall obj, obj ∈ objects -> objKind obj <> "" ->
        let gvr := GVR (objGroup obj) (objVersion obj)
                       (GoStrings.ToLower (objKind obj) +:+ "s") in
        gvr ∈ AllGVRs d
        /\ (gvr ∉ AllGVRs newEnhancedFakeDiscovery ->
            exists gvk, gvrToGVK d !! gvr = Some gvk
                        /\ gvkGroup gvk = objGroup obj
                        /\ gvkVersion gvk = objVersion obj
                        /\ SameKind (gvkKind gvk) (objKind obj))).
Proof.
  intros d. unfold AllGVRs.
  pose proof (foldl_register_prefix objects newEnhancedFakeDiscovery) as Hp.
  split; [done |].
  split; [intros gvr; apply foldl_register_keeps |].
  split.
  { pose proof (foldl_register_count objects newEnhancedFakeDiscovery) as Hc.
    change (ResourceCount newEnhancedFakeDiscovery) with 60%nat in Hc.
    split; [| exact Hc].
    destruct Hp as [k Hk]. unfold ResourceCount, d, fastBackend_discovery.
    rewrite Hk, length_app.
    change (List.length (resources newEnhancedFakeDiscovery)) with 60%nat. lia. }
  intros obj Hin Hkind. set (gvr := GVR _ _ _).
  assert (Hl : gvr ∈ resources d) by by apply foldl_register_listed.
  split; [done |]. intros Hnew.
  assert (Hc : consistentRegistry d)
    by apply foldl_register_consistent, newEnhancedFakeDiscovery_consistent.
  destruct (proj1 (proj2 Hc gvr) Hl) as [gvk Hgvk]. exists gvk. split; [done |].
  assert (Hs : seedShaped newEnhancedFakeDiscovery d).
  { apply foldl_register_shaped. intros x k Hx. left.
    apply newEnhancedFakeDiscovery_consistent. by eauto. }
  destruct (Hs gvr gvk Hgvk) as [? | Heq]; [done |].
  unfold gvr in Heq. injection Heq as Hg Hv Hr.
  split; [done |]. split; [done |].
  unfold fastBackend_resource in Hr. symmetry. by apply String_app_inj_r in Hr.
Qed.

End Registry.

Section Finding.

Variable range : KindRange.
Hypothesis range_valid : ValidKindRange range.

Lemma elem_of_kind_range (m : gmap GroupVersionResource GroupVersionKind)
    (gvr : GroupVersionResource) (gvk : GroupVersionKind) :
  (gvr, gvk) ∈ range m <-> m !! gvr = Some gvk.
Proof. rewrite (range_valid m). apply elem_of_map_to_list. Qed.

Lemma sameKind_eqb (k1 k2 : string) :
  String.eqb (GoStrings.ToLower k1) (GoStrings.ToLower k2) = true <-> SameKind k1 k2.
Proof. unfold SameKind. by destruct (String.eqb_spec (GoStrings.ToLower k1) (GoStrings.ToLower k2)). Qed.

Lemma FindResource_found (d : enhancedFakeDiscovery) (kind : string)
    (gvr : GroupVersionResource) :
  FindResource range d kind = (gvr, true) ->
  exists gvk, gvrToGVK d !! gvr = Some gvk /\ SameKind (gvkKind gvk) kind.
Proof.
  unfold FindResource. destruct (List.find _ _) as [[x k] |] eqn:E; [| done].
  intros [= <-]. apply find_split in E as (before & after & Hl & Hk & _).
  exists k. split.
  - apply elem_of_kind_range. rewrite Hl. apply elem_of_app. right. apply list_elem_of_here.
  - by apply sameKind_eqb.
Qed.

Lemma FindResource_none (d : enhancedFakeDiscovery) (kind : string) :
  (FindResource range d kind).2 = false
  <-> forall gvr gvk, gvrToGVK d !! gvr = Some gvk -> ~ SameKind (gvkKind gvk) kind.
Proof.
  unfold FindResource. destruct (List.find _ _) as [[x k] |] eqn:E; simpl.
  - split; [done |]. intros H. exfalso.
    apply find_split in E as (before & after & Hl & Hk & _).
    apply (H x k).
    + apply elem_of_kind_range. rewrite Hl. apply elem_of_app. right. apply list_elem_of_here.
    + by apply sameKind_eqb.
  - split; [| done]. intros _ gvr gvk Hm Hs.
    pose proof (proj1 (find_is_None _ _) E (gvr, gvk)
                      (proj2 (elem_of_kind_range _ _ _) Hm)) as Hf.
    simpl in Hf. by rewrite (proj2 (sameKind_eqb _ _) Hs) in Hf.
Qed.

(** X4: [FindResource] looks a kind up without regard to the case of its
    letters.  An identity it returns has a recorded kind that is the given
    one up to case; it reports failure exactly when no recorded kind is, and
    then returns the zero identity; when one identity only has such a kind
    it is the one returned, in every visiting order of the map; and a kind
    registered for a new identity is found afterwards. *)
Theorem FindResource_by_kind (d : enhancedFakeDiscovery) (kind : string) :
  (forall gvr, FindResource range d kind = (gvr, true) ->
     exists gvk, gvrToGVK d !! gvr = Some gvk /\ SameKind (gvkKind gvk) kind)
  /\ ((FindResource range d kind).2 = false
      <-> forall gvr gvk, gvrToGVK d !! gvr = Some gvk -> ~ SameKind (gvkKind gvk) kind)
  /\ ((FindResource range d kind).2 = false ->
      (FindResource range d kind).1 = GVR "" "" "")
  /\ (forall gvr gvk,
        gvrToGVK d !! gvr = Some gvk -> SameKind (gvkKind gvk) kind ->
        (forall gvr' gvk', gvrToGVK d !! gvr' = Some gvk' ->
                           SameKind (gvkKind gvk') kind -> gvr' = gvr) ->
        FindResource range d kind = (gvr, true))
  /\ (forall gvr gvk,
        gvr ∉ AllGVRs d -> SameKind (gvkKind gvk) kind ->
        (FindResource range (RegisterResource d gvr gvk) kind).2 = true).
Proof.
  split; [apply FindResource_found |].
  split; [apply FindResource_none |].
  split.
  { unfold FindResource. by destruct (List.find _ _) as [[x k] |]. }
  split.
  - intros gvr gvk Hm Hs Hu.
    destruct (FindResource range d kind) as [x [|]] eqn:E.
    + destruct (FindResource_found _ _ _ E) as (k & Hk & Hsk).
      by rewrite (Hu x k Hk Hsk).
    + exfalso. apply (proj1 (FindResource_none d kind)) with (gvr := gvr) (gvk := gvk); try done.
      by rewrite E.
  - intros gvr gvk Hnew Hs.
    destruct (FindResource range (RegisterResource d gvr gvk) kind) as [x [|]] eqn:E; [done |].
    exfalso.
    apply (proj1 (FindResource_none (RegisterResource d gvr gvk) kind))
      with (gvr := gvr) (gvk := gvk); try done.
    + by rewrite E.
    + rewrite RegisterResource_new by done. apply lookup_insert_eq.
Qed.

End Finding.

Lemma kindEnumeration_valid : ValidKindRange kindEnumeration.
Proof. by intros m. Qed.

Lemma widgetGVR_new : widgetGVR ∉ AllGVRs newEnhancedFakeDiscovery.
Proof. apply (bool_decide_unpack _). by vm_compute. Qed.

Lemma FindResource_by_kind_witness :
  (FindResource kindEnumeration
     (RegisterResource newEnhancedFakeDiscovery widgetGVR widgetGVK) "WIDGET").2 = true.
Proof.
  apply (FindResource_by_kind kindEnumeration kindEnumeration_valid
           newEnhancedFakeDiscovery "WIDGET").
  - apply widgetGVR_new.
  - reflexivity.
Defined.

Section FirstsBy.

Context {A K : Type} `{EqDecision K}.
Variable key : A -> K.

Lemma firstsBy_elem (l : list A) (seen : list K) (x : A) :
  x ∈ firstsBy key seen l -> x ∈ l /\ key x ∉ seen.
Proof.
  revert seen. induction l as [| y l IH]; intros seen; simpl.
  - by intros ?%elem_of_nil.
  - destruct (decide (key y ∈ seen)) as [Hs | Hs].
    + intros [? ?]%IH. split; [by apply list_elem_of_further | done].
    + intros [-> | Hx]%elem_of_cons.
      * split; [apply list_elem_of_here | done].
      * apply IH in Hx as [? Hn]. split; [by apply list_elem_of_further |].
        intros ?. apply Hn. by apply list_elem_of_further.
Qed.

Lemma firstsBy_NoDup (l : list A) (seen : list K) :
  NoDup (map key (firstsBy key seen l)).
Proof.
  revert seen. induction l as [| y l IH]; intros seen; simpl; [apply NoDup_nil_2 |].
  destruct (decide (key y ∈ seen)) as [Hs | Hs]; [apply IH |].
  simpl. apply NoDup_cons. split; [| apply IH].
  intros Hin. apply list_elem_of_In, in_map_iff in Hin as (x & Hk & Hx).
  apply list_elem_of_In, firstsBy_elem in Hx as [_ Hn]. apply Hn. rewrite Hk.
  apply list_elem_of_here.
Qed.

Lemma firstsBy_keys (l : list A) (seen : list K) (k : K) :
  k ∈ map key (firstsBy key seen l) <-> (k ∉ seen) /\ exists x, x ∈ l /\ key x = k.
Proof.
  revert seen. induction l as [| y l IH]; intros seen; simpl.
  - split; [by intros ?%elem_of_nil | by intros (_ & x & ?%elem_of_nil & _)].
  - destruct (decide (key y ∈ seen)) as [Hs | Hs].
    + rewrite IH. split.
      * intros (Hn & x & Hx & Hk). split; [done |]. exists x.
        split; [by apply list_elem_of_further | done].
      * intros (Hn & x & Hx & Hk). split; [done |].
        apply elem_of_cons in Hx as [-> | Hx]; [by subst | by exists x].
    + simpl. rewrite elem_of_cons, IH. split.
      * intros [-> | (Hn & x & Hx & Hk)].
        -- split; [done |]. exists y. split; [apply list_elem_of_here | done].
        -- split; [intros ?; apply Hn; by apply list_elem_of_further |].
           exists x. split; [by apply list_elem_of_further | done].
      * intros (Hn & x & Hx & Hk).
        destruct (decide (k = key y)) as [-> | Hne]; [by left | right].
        split.
        -- intros [? | ?]%elem_of_cons; done.
        -- apply elem_of_cons in Hx as [-> | Hx]; [done | by exists x].
Qed.

Lemma firstsBy_first (l : list A) (seen : list K) (x : A) :
  x ∈ firstsBy key seen l ->
  exists before after,
    l = before ++ x :: after /\ forall y, y ∈ before -> key y <> key x.
Proof.
  revert seen. induction l as [| y l IH]; intros seen; simpl.
  - by intros ?%elem_of_nil.
  - destruct (decide (key y ∈ seen)) as [Hs | Hs].
    + intros Hx. pose proof (firstsBy_elem _ _ _ Hx) as [_ Hn].
      apply IH in Hx as (before & after & -> & Hb).
      exists (y :: before), after. split; [done |].
      intros z [-> | Hz]%elem_of_cons; [| by apply Hb]. by intros Heq; rewrite Heq in Hs.
    + intros [-> | Hx]%elem_of_cons.
      * exists [], l. split; [done |]. by intros z ?%elem_of_nil.
      * pose proof (firstsBy_elem _ _ _ Hx) as [_ Hn].
        apply IH in Hx as (before & after & -> & Hb).
        exists (y :: before), after. split; [done |].
        intros z [-> | Hz]%elem_of_cons; [| by apply Hb].
        intros Heq. apply Hn. rewrite Heq. apply list_elem_of_here.
Qed.

Lemma firstsBy_sublist (l : list A) (seen : list K) :
  firstsBy key seen l `sublist_of` l.
Proof.
  revert seen. induction l as [| y l IH]; intros seen; simpl; [done |].
  destruct (decide (key y ∈ seen)); [apply sublist_cons, IH | apply sublist_skip, IH].
Qed.

Lemma firstsBy_seen (l : list A) (seen seen' : list K) :
  (forall k, k ∈ seen <-> k ∈ seen') -> firstsBy key seen l = firstsBy key seen' l.
Proof.
  revert seen seen'. induction l as [| y l IH]; intros seen seen' H; simpl; [done |].
  destruct (decide (key y ∈ seen)) as [Hs | Hs], (decide (key y ∈ seen')) as [Hs' | Hs'].
  - by apply IH.
  - by apply H in Hs.
  - by apply H in Hs'.
  - f_equal. apply IH. intros k. rewrite !elem_of_cons, H. done.
Qed.

Lemma firstsBy_app (l l' : list A) (seen : list K) :
  firstsBy key seen (l ++ l')
  = firstsBy key seen l ++ firstsBy key (map key l ++ seen) l'.
Proof.
  revert seen. induction l as [| y l IH]; intros seen; simpl; [done |].
  destruct (decide (key y ∈ seen)) as [Hs | Hs].
  - rewrite IH. f_equal. apply firstsBy_seen. intros k.
    rewrite elem_of_cons, !elem_of_app. split; [by auto |].
    intros [-> | H]; by auto.
  - simpl. f_equal. rewrite IH. f_equal. apply firstsBy_seen. intros k.
    rewrite !elem_of_cons, !elem_of_app, !elem_of_cons. tauto.
Qed.

End FirstsBy.

Section Groups.

Lemma listGroup_firstsBy (l : list GroupVersionResource) (seen : gset string)
    (seenList : list string) (groups : list APIGroup.t) :
  (forall g, g ∈ seen <-> g ∈ seenList) ->
  (foldl listGroup (seen, groups) l).2
  = groups ++ map groupOf (firstsBy gvrGroup seenList l).
Proof.
  revert seen seenList groups. induction l as [| x l IH]; intros seen seenList groups H; simpl.
  - by rewrite app_nil_r.
  - destruct (decide (gvrGroup x ∈ seenList)) as [Hs | Hs].
    + rewrite bool_decide_eq_true_2 by by apply H. by apply IH.
    + rewrite bool_decide_eq_false_2 by by rewrite H.
      rewrite (IH _ (gvrGroup x :: seenList)).
      * simpl. by rewrite <- app_assoc.
      * intros g. rewrite elem_of_union, elem_of_singleton, elem_of_cons, H. done.
Qed.

Lemma ListGroups_firstsBy (d : enhancedFakeDiscovery) :
  ListGroups d = map groupOf (firstsBy gvrGroup [] (resources d)).
Proof.
  unfold ListGroups. rewrite (listGroup_firstsBy _ _ []); [done |].
  intros g. rewrite elem_of_empty. split; [done | by intros ?%elem_of_nil].
Qed.

(** X5: [ListGroups] reports each API group of the registry once.  The
    group names are those of the listed identities, without repetition; each
    entry is built from the first identity listed for its group and carries
    that identity's version only, as its single version and as its preferred
    one, under the name group, slash, version (for the core group: slash,
    version). *)
Theorem ListGroups_groups (d : enhancedFakeDiscovery) :
  NoDup (map APIGroup.Name (ListGroups d))
  /\ (forall g, g ∈ map APIGroup.Name (ListGroups d)
                <-> exists gvr, gvr ∈ AllGVRs d /\ gvrGroup gvr = g)
  /\ (forall group, group ∈ ListGroups d ->
        exists before gvr after,
          AllGVRs d = before ++ gvr :: after
          /\ (forall other, other ∈ before -> gvrGroup other <> gvrGroup gvr)
          /\ APIGroup.Name group = gvrGroup gvr
          /\ APIGroup.Versions group = [APIGroup.PreferredVersion group]
          /\ APIGroup.PreferredVersion group
             = GroupVersionForDiscovery.mk (gvrGroup gvr +:+ "/" +:+ gvrVersion gvr)
                                           (gvrVersion gvr)).
Proof.
  rewrite ListGroups_firstsBy. unfold AllGVRs.
  assert (Hn : forall l, map APIGroup.Name (map groupOf l) = map gvrGroup l).
  { intros l. rewrite map_map. by apply map_ext. }
  rewrite Hn. split; [apply firstsBy_NoDup |]. split.
  - intros g. rewrite firstsBy_keys. split.
    + by intros (_ & H).
    + intros H. split; [by intros ?%elem_of_nil | done].
  - intros group Hg. apply list_elem_of_In, in_map_iff in Hg as (gvr & <- & Hg).
    apply list_elem_of_In, firstsBy_first in Hg as (before & after & Hl & Hb).
    by exists before, gvr, after.
Qed.

End Groups.

Section Discovery.

Lemma addGroupVersion_firstsBy (l : list GroupVersionResource) (seen : gset GroupVersion)
    (seenList : list GroupVersion) (result : list GroupVersion) :
  (forall g, g ∈ seen <-> g ∈ seenList) ->
  (foldl addGroupVersion (seen, result) l).2
  = result ++ map groupVersionOf (firstsBy groupVersionOf seenList l).
Proof.
  revert seen seenList result. induction l as [| x l IH]; intros seen seenList result H; simpl.
  - by rewrite app_nil_r.
  - fold (groupVersionOf x). destruct (decide (groupVersionOf x ∈ seenList)) as [Hs | Hs].
    + rewrite bool_decide_eq_true_2 by by apply H. simpl. by apply IH.
    + rewrite bool_decide_eq_false_2 by by rewrite H. simpl.
      rewrite (IH _ (groupVersionOf x :: seenList)).
      * simpl. by rewrite <- app_assoc.
      * intros g. rewrite elem_of_union, elem_of_singleton, elem_of_cons, H. done.
Qed.

Lemma GetAllGroupVersions_firstsBy (c : fakeDiscoveryClient) :
  GetAllGroupVersions c
  = map groupVersionOf (firstsBy groupVersionOf [] (registeredResources c)).
Proof.
  unfold GetAllGroupVersions. rewrite (addGroupVersion_firstsBy _ _ []); [done |].
  intros g. rewrite elem_of_empty. split; [done | by intros ?%elem_of_nil].
Qed.

(** X6: [GetAllGroupVersions] returns the group/version pairs of the
    registered resources without repetition, in the order the resources are
    registered; registering more resources only appends to it. *)
Theorem GetAllGroupVersions_unique (c : fakeDiscoveryClient) :
  NoDup (GetAllGroupVersions c)
  /\ (forall gv, gv ∈ GetAllGroupVersions c
                 <-> exists res, res ∈ registeredResources c
                                 /\ gvrGroup res = gvGroup gv
                                 /\ gvrVersion res = gvVersion gv)
  /\ GetAllGroupVersions c `sublist_of` map groupVersionOf (registeredResources c)
  /\ (forall resources,
        GetAllGroupVersions c
        `prefix_of` GetAllGroupVersions (RegisterCustomResources c resources)).
Proof.
  rewrite GetAllGroupVersions_firstsBy.
  split; [apply firstsBy_NoDup |]. split; [| split].
  - intros gv. rewrite firstsBy_keys. split.
    + intros (_ & res & Hres & <-). by exists res.
    + intros (res & Hres & Hg & Hv). split; [by intros ?%elem_of_nil |].
      exists res. split; [done |]. destruct gv. simpl in *. by subst.
  - apply fmap_sublist, firstsBy_sublist.
  - intros rs. rewrite GetAllGroupVersions_firstsBy. simpl.
    rewrite firstsBy_app, map_app. by eexists.
Qed.

Lemma HasResource_true (c : fakeDiscoveryClient) (gvr : GroupVersionResource) :
  HasResource c gvr = true <-> gvr ∈ registeredResources c.
Proof.
  unfold HasResource. rewrite existsb_exists. split.
  - intros (x & Hx & He). apply andb_true_iff in He as [He Hr].
    apply andb_true_iff in He as [Hg Hv].
    apply String.eqb_eq in Hg, Hv, Hr. destruct x, gvr. simpl in *. subst.
    by apply list_elem_of_In.
  - intros H. exists gvr. split; [by apply list_elem_of_In |].
    by rewrite !String.eqb_refl.
Qed.

(** X7: [HasResource] is membership in the registered resources.  It
    holds after [RegisterCustomResources] and [RegisterKyvernoResources] for
    what held before and for the resources registered, and on a new client
    for the default resources and the additional ones.  Registration does
    not remove duplicates: the list grows by the number of resources given. *)
Theorem HasResource_registered (c : fakeDiscoveryClient) (gvr : GroupVersionResource) :
  (HasResource c gvr = true <-> gvr ∈ registeredResources c)
  /\ (forall resources,
        HasResource (RegisterCustomResources c resources) gvr
        = HasResource c gvr || bool_decide (gvr ∈ resources))
  /\ HasResource (RegisterKyvernoResources c) gvr
     = HasResource c gvr || bool_decide (gvr ∈ kyvernoResources)
  /\ (forall additional,
        HasResource (NewEnhancedFakeDiscoveryClient additional) gvr
        = bool_decide (gvr ∈ defaultKubernetesResources) || bool_decide (gvr ∈ additional))
  /\ (forall resources,
        List.length (registeredResources (RegisterCustomResources c resources))
        = (List.length (registeredResources c) + List.length resources)%nat).
Proof.
  assert (Happ : forall l1 l2,
            HasResource (mkFakeDiscoveryClient (l1 ++ l2)) gvr
            = HasResource (mkFakeDiscoveryClient l1) gvr || bool_decide (gvr ∈ l2)).
  { intros l1 l2. apply eq_true_iff_eq.
    rewrite orb_true_iff, !HasResource_true, bool_decide_eq_true. simpl.
    apply elem_of_app. }
  split; [apply HasResource_true |].
  split; [intros rs; destruct c; apply Happ |].
  split; [destruct c; apply Happ |].
  split.
  - intros additional. unfold NewEnhancedFakeDiscoveryClient. rewrite Happ. f_equal.
    apply eq_true_iff_eq. by rewrite HasResource_true, bool_decide_eq_true.
  - intros rs. simpl. apply length_app.
Qed.


Lemma HasPrefix_slash (s : string) :
  GoStrings.HasPrefix s "/"
  = match s with String c _ => Ascii.eqb c "/" | EmptyString => false end.
Proof.
  destruct s as [| c r]; [done |].
  destruct (Ascii.eqb_spec c "/") as [-> | Hne].
  - apply HasPrefix_true. by exists r.
  - destruct (GoStrings.HasPrefix (String c r) "/") eqn:E; [| done].
    apply HasPrefix_true in E as [t Ht]. rewrite String_app_cons in Ht.
    by injection Ht as -> _.
Qed.

Lemma count_from_unfold (s : string) :
  GoStringsMore.count_from "/" s 0
  = match s with
    | EmptyString => 0%nat
    | String c r =>
        if Ascii.eqb c "/" then S (GoStringsMore.count_from "/" r 0)
        else GoStringsMore.count_from "/" r 0
    end.
Proof.
  destruct s as [| c r]; [done |].
  change (GoStringsMore.count_from "/" (String c r) 0)
    with (if GoStrings.HasPrefix (String c r) "/"
          then S (GoStringsMore.count_from "/" r 0)
          else GoStringsMore.count_from "/" r 0).
  by rewrite HasPrefix_slash.
Qed.

Lemma index_from_unfold (s : string) (i : nat) :
  GoStringsMore.index_from "/" s i
  = match s with
    | EmptyString => None
    | String c r =>
        if Ascii.eqb c "/" then Some i else GoStringsMore.index_from "/" r (S i)
    end.
Proof.
  destruct s as [| c r]; [done |].
  change (GoStringsMore.index_from "/" (String c r) i)
    with (if GoStrings.HasPrefix (String c r) "/" then Some i
          else GoStringsMore.index_from "/" r (S i)).
  by rewrite HasPrefix_slash.
Qed.

Lemma has_char_cons (c d : ascii) (r : string) :
  has_char c (String d r) = Ascii.eqb c d || has_char c r.
Proof. done. Qed.

Lemma count_no_slash (s : string) :
  has_char "/" s = false -> GoStringsMore.count_from "/" s 0 = 0%nat.
Proof.
  induction s as [| c r IH]; [done |]. rewrite has_char_cons, count_from_unfold.
  intros [Hc Hr]%orb_false_iff. rewrite Ascii.eqb_sym in Hc. rewrite Hc. by apply IH.
Qed.

Lemma count_slash_app (a b : string) :
  has_char "/" a = false ->
  GoStringsMore.count_from "/" (a +:+ String "/" b) 0
  = S (GoStringsMore.count_from "/" b 0).
Proof.
  induction a as [| c r IH].
  - intros _. rewrite String_app_nil_l, count_from_unfold. by rewrite Ascii.eqb_refl.
  - rewrite has_char_cons, String_app_cons, count_from_unfold.
    intros [Hc Hr]%orb_false_iff. rewrite Ascii.eqb_sym in Hc. rewrite Hc. by apply IH.
Qed.

Lemma index_slash_app (a b : string) (i : nat) :
  has_char "/" a = false ->
  GoStringsMore.index_from "/" (a +:+ String "/" b) i = Some (i + String.length a)%nat.
Proof.
  revert i. induction a as [| c r IH]; intros i.
  - intros _. rewrite String_app_nil_l, index_from_unfold, Ascii.eqb_refl. simpl.
    f_equal. lia.
  - rewrite has_char_cons, String_app_cons, index_from_unfold.
    intros [Hc Hr]%orb_false_iff. rewrite Ascii.eqb_sym in Hc. rewrite Hc, IH by done.
    simpl. f_equal. lia.
Qed.

Lemma ParseGroupVersion_version (v : string) :
  has_char "/" v = false -> ParseGroupVersion v = Ok (GV "" v).
Proof.
  intros Hv. unfold ParseGroupVersion. destruct v as [| c r]; [done |].
  replace ((String.length (String c r) =? 0)%nat || String.eqb (String c r) "/") with false.
  - unfold GoStringsMore.Count. by rewrite count_no_slash.
  - destruct (String.eqb_spec (String c r) "/") as [E | _]; [| done].
    by rewrite E in Hv.
Qed.

Lemma ParseGroupVersion_group_version (g v : string) :
  has_char "/" g = false -> has_char "/" v = false ->
  ParseGroupVersion (g +:+ "/" +:+ v) = Ok (GV g v).
Proof.
  intros Hg Hv. unfold ParseGroupVersion.
  destruct (String.eqb_spec (g +:+ "/" +:+ v) "/") as [E | Hne].
  - assert (Hlen : (String.length g + S (String.length v) = 1)%nat).
    { apply (f_equal String.length) in E. by rewrite String_length_app in E. }
    destruct g; [| simpl in Hlen; lia]. destruct v; [| simpl in Hlen; lia].
    by rewrite orb_true_r.
  - destruct (Nat.eqb_spec (String.length (g +:+ "/" +:+ v)) 0) as [E | _].
    { rewrite String_length_app in E. simpl in E. lia. }
    simpl orb. cbv iota.
    unfold GoStringsMore.Count, GoStringsMore.Index.
    change ("/" +:+ v) with (String "/" v).
    rewrite count_slash_app, count_no_slash, index_slash_app by done.
    simpl Nat.add. rewrite Nat2Z.id. do 2 f_equal.
    + apply substring_0_app.
    + replace (g +:+ String "/" v) with ((g +:+ "/") +:+ v)
        by by rewrite String_app_assoc.
      replace (String.length g + 1)%nat with (String.length (g +:+ "/"))
        by (rewrite String_length_app; simpl; lia).
      rewrite substring_skip_app.
      replace (String.length ((g +:+ "/") +:+ v) - String.length (g +:+ "/"))%nat
        with (String.length v) by (rewrite !String_length_app; lia).
      apply substring_all.
Qed.

Lemma ParseGroupVersion_malformed (g v rest : string) :
  has_char "/" g = false -> has_char "/" v = false ->
  ParseGroupVersion (g +:+ "/" +:+ v +:+ "/" +:+ rest)
  = Err ("unexpected GroupVersion string: " +:+ (g +:+ "/" +:+ v +:+ "/" +:+ rest)).
Proof.
  intros Hg Hv. unfold ParseGroupVersion.
  destruct (String.eqb_spec (g +:+ "/" +:+ v +:+ "/" +:+ rest) "/") as [E | Hne].
  { apply (f_equal String.length) in E. rewrite !String_length_app in E.
    simpl in E. lia. }
  destruct (Nat.eqb_spec (String.length (g +:+ "/" +:+ v +:+ "/" +:+ rest)) 0) as [E | _].
  { rewrite String_length_app in E. simpl in E. lia. }
  simpl orb. cbv iota. unfold GoStringsMore.Count.
  change ("/" +:+ v +:+ "/" +:+ rest) with (String "/" (v +:+ String "/" rest)).
  by rewrite !count_slash_app.
Qed.

Lemma foldl_filter {A : Type} (P : A -> Prop) `{forall x, Decision (P x)}
    (f : A -> bool) (acc l : list A) :
  (forall x, f x = true <-> P x) ->
  foldl (fun result res => if f res then result ++ [res] else result) acc l
  = acc ++ filter P l.
Proof.
  intros Hf. revert acc. induction l as [| x l IH]; intros acc; simpl.
  - by rewrite app_nil_r.
  - rewrite IH. destruct (f x) eqn:E.
    + rewrite filter_cons_True by by apply Hf. by rewrite <- app_assoc.
    + rewrite filter_cons_False; [done |]. intros HP. apply Hf in HP. congruence.
Qed.

Lemma ServerResources_parsed (l : list GroupVersionResource) (groupVersion g v : string) :
  ParseGroupVersion groupVersion = Ok (GV g v) ->
  ServerResourcesForGroupVersion l groupVersion
  = filter (fun res => gvrGroup res = g /\ gvrVersion res = v) l.
Proof.
  intros Hp. unfold ServerResourcesForGroupVersion. rewrite Hp. simpl.
  rewrite (foldl_filter (fun res => gvrGroup res = g /\ gvrVersion res = v)); [done |].
  intros x. by rewrite andb_true_iff, !String.eqb_eq.
Qed.

(** X8: for a group and a version without slashes,
    [GetResourcesForGroupVersion] on group, slash, version returns the
    registered resources of that group and version, in their order, and on
    the version alone those of the core group; a string with more slashes
    gives the empty list; and every resource returned is one that
    [HasResource] reports. *)
Theorem GetResourcesForGroupVersion_filter (c : fakeDiscoveryClient) (g v : string) :
  has_char "/" g = false -> has_char "/" v = false ->
  GetResourcesForGroupVersion c (g +:+ "/" +:+ v)
  = filter (fun res => gvrGroup res = g /\ gvrVersion res = v) (registeredResources c)
  /\ GetResourcesForGroupVersion c v
     = filter (fun res => gvrGroup res = "" /\ gvrVersion res = v) (registeredResources c)
  /\ (forall rest, GetResourcesForGroupVersion c (g +:+ "/" +:+ v +:+ "/" +:+ rest) = [])
  /\ (forall groupVersion res,
        res ∈ GetResourcesForGroupVersion c groupVersion -> HasResource c res = true).
Proof.
  intros Hg Hv. unfold GetResourcesForGroupVersion.
  split; [by apply ServerResources_parsed, ParseGroupVersion_group_version |].
  split; [by apply ServerResources_parsed, ParseGroupVersion_version |].
  split.
  - intros rest. unfold ServerResourcesForGroupVersion.
    by rewrite ParseGroupVersion_malformed.
  - intros gv res. unfold ServerResourcesForGroupVersion.
    destruct (ParseGroupVersion gv) as [[g' v'] | err]; [| by intros ?%elem_of_nil].
    simpl.
    rewrite (foldl_filter (fun res => gvrGroup res = g' /\ gvrVersion res = v')).
    + simpl. intros [_ Hin]%list_elem_of_filter. by apply HasResource_true.
    + intros x. by rewrite andb_true_iff, !String.eqb_eq.
Qed.

End Discovery.

Lemma GetResourcesForGroupVersion_filter_witness :
  GetResourcesForGroupVersion (NewEnhancedFakeDiscoveryClient []) "batch/v1"
  = [GVR "batch" "v1" "cronjobs"; GVR "batch" "v1" "jobs"]
  /\ GetResourcesForGroupVersion (NewEnhancedFakeDiscoveryClient []) "/v1/pods" = [].
Proof.
  destruct (GetResourcesForGroupVersion_filter (NewEnhancedFakeDiscoveryClient [])
              "batch" "v1" eq_refl eq_refl) as (H1 & _ & _ & _).
  destruct (GetResourcesForGroupVersion_filter (NewEnhancedFakeDiscoveryClient [])
              "" "v1" eq_refl eq_refl) as (_ & _ & H3 & _).
  split; [exact H1 | exact (H3 "pods")].
Defined.

(** ** Parsing modes *)

Section Modes.

Import GoStringsMore.

Lemma asciiSpace_lower (c : ascii) :
  asciiSpace (GoStrings.lower_ascii c) = asciiSpace c.
Proof. by destruct c as [[] [] [] [] [] [] [] []]. Qed.

Lemma lower_ascii_idem (c : ascii) :
  GoStrings.lower_ascii (GoStrings.lower_ascii c) = GoStrings.lower_ascii c.
Proof. by destruct c as [[] [] [] [] [] [] [] []]. Qed.

Lemma ToLower_idem (s : string) : GoStrings.ToLower (GoStrings.ToLower s) = GoStrings.ToLower s.
Proof. induction s as [| c r IH]; [done |]. simpl. by rewrite lower_ascii_idem, IH. Qed.

Lemma ToLower_trimLeft (s : string) :
  GoStrings.ToLower (trimLeft s) = trimLeft (GoStrings.ToLower s).
Proof.
  induction s as [| c r IH]; [done |]. simpl. rewrite asciiSpace_lower.
  by destruct (asciiSpace c).
Qed.

Lemma ToLower_empty (s : string) : GoStrings.ToLower s = "" <-> s = "".
Proof. by destruct s. Qed.

Lemma trimRight_cons (c : ascii) (r : string) :
  trimRight (String c r)
  = if asciiSpace c && String.eqb (trimRight r) "" then "" else String c (trimRight r).
Proof. done. Qed.

Lemma ToLower_trimRight (s : string) :
  GoStrings.ToLower (trimRight s) = trimRight (GoStrings.ToLower s).
Proof.
  induction s as [| c r IH]; [done |].
  change (GoStrings.ToLower (String c r))
    with (String (GoStrings.lower_ascii c) (GoStrings.ToLower r)).
  rewrite !trimRight_cons, asciiSpace_lower, <- IH.
  destruct (String.eqb_spec (trimRight r) "") as [E | Hne].
  - rewrite E. change (GoStrings.ToLower "") with "". rewrite String.eqb_refl.
    destruct (asciiSpace c); reflexivity.
  - destruct (String.eqb_spec (GoStrings.ToLower (trimRight r)) "") as [E' | _].
    + by apply (proj1 (ToLower_empty _)) in E'.
    + by rewrite !andb_false_r.
Qed.

Lemma ToLower_TrimSpace (s : string) :
  GoStrings.ToLower (TrimSpace s) = TrimSpace (GoStrings.ToLower s).
Proof. unfold TrimSpace. by rewrite ToLower_trimRight, ToLower_trimLeft. Qed.

Lemma trimLeft_whitespace (ws : string) : whitespace ws = true -> trimLeft ws = "".
Proof.
  induction ws as [| c r IH]; [done |]. simpl. intros [Hc Hr]%andb_true_iff.
  rewrite Hc. by apply IH.
Qed.

Lemma trimRight_whitespace (ws : string) : whitespace ws = true -> trimRight ws = "".
Proof.
  induction ws as [| c r IH]; [done |]. rewrite trimRight_cons.
  cbn [whitespace]. intros [Hc Hr]%andb_true_iff.
  by rewrite Hc, IH.
Qed.

Lemma trimLeft_pad (ws s : string) :
  whitespace ws = true -> trimLeft (ws +:+ s) = trimLeft s.
Proof.
  induction ws as [| c r IH]; [done |]. rewrite String_app_cons. simpl.
  intros [Hc Hr]%andb_true_iff. rewrite Hc. by apply IH.
Qed.

Lemma trimRight_pad (s ws : string) :
  whitespace ws = true -> trimRight (s +:+ ws) = trimRight s.
Proof.
  intros Hws. induction s as [| c r IH].
  - rewrite String_app_nil_l. by apply trimRight_whitespace.
  - rewrite String_app_cons, !trimRight_cons. by rewrite IH.
Qed.

Lemma TrimSpace_pad (pre s post : string) :
  whitespace pre = true -> whitespace post = true ->
  TrimSpace (pre +:+ s +:+ post) = TrimSpace s.
Proof.
  intros Hpre Hpost. unfold TrimSpace. rewrite trimLeft_pad by done.
  induction s as [| c r IH].
  - rewrite String_app_nil_l. by rewrite trimLeft_whitespace.
  - rewrite String_app_cons. simpl. destruct (asciiSpace c); [done |].
    by rewrite <- String_app_cons, trimRight_pad.
Qed.

Lemma ParseTestMode_Ok (quote : string -> string) (s : string) (m : TestMode) :
  ParseTestMode quote s = Ok m
  <-> let word := GoStrings.ToLower (TrimSpace s) in
      (word ∈ fastWords /\ m = ModeFast)
      \/ ((word ∉ fastWords) /\ word ∈ accurateWords /\ m = ModeAccurate).
Proof.
  unfold ParseTestMode. cbv zeta.
  set (word := GoStrings.ToLower (TrimSpace s)).
  assert (Hex : forall l, existsb (String.eqb word) l = true <-> word ∈ l).
  { intros l. rewrite existsb_exists. split.
    - intros (x & Hx & ->%String.eqb_eq). by apply list_elem_of_In.
    - intros H. exists word. split; [by apply list_elem_of_In | apply String.eqb_refl]. }
  fold fastWords accurateWords.
  destruct (existsb (String.eqb word) fastWords) eqn:Ef.
  - apply Hex in Ef. split.
    + intros [= <-]. by left.
    + intros [[_ ->] | [Hn _]]; done.
  - assert (Hnf : word ∉ fastWords) by (intros H; apply Hex in H; congruence).
    destruct (existsb (String.eqb word) accurateWords) eqn:Ea.
    + apply Hex in Ea. split.
      * intros [= <-]. by right.
      * intros [[? _] | (_ & _ & ->)]; done.
    + split; [done |]. intros [[? _] | (_ & Ha & _)]; [done |].
      apply Hex in Ha. congruence.
Qed.

(** X9: a mode that [ParseTestMode] returns is one of the two modes of the
    runner.  Parsing its text again gives it back; it has a description;
    with it a configuration passes [Validate] exactly when it has a policy
    path and a resource path; and [createBackend] builds a backend of that
    mode for it. *)
Theorem ParseTestMode_modes (quote : string -> string) (s : string) (m : TestMode) :
  ParseTestMode quote s = Ok m ->
  (m = ModeFast \/ m = ModeAccurate)
  /\ ParseTestMode quote (TestMode_String m) = Ok m
  /\ Description m <> "Unknown mode"
  /\ forall c : TestConfig,
       (Validate (set_Mode m c) = None <-> PolicyPaths c <> [] /\ ResourcePaths c <> [])
       /\ exists b, createBackend (NewTestRunner (set_Mode m c)) = Ok b
                    /\ BackendMode b = m.
Proof.
  intros H. assert (Hm : m = ModeFast \/ m = ModeAccurate).
  { apply ParseTestMode_Ok in H as [[_ ->] | (_ & _ & ->)]; by auto. }
  split; [done |].
  destruct Hm as [-> | ->]; (split; [done |]); (split; [done |]); intros c;
    (split; [| by eexists]); unfold Validate; simpl;
    destruct (PolicyPaths c), (ResourcePaths c); simpl; split; try done;
    intros [? ?]; done.
Qed.

(** X10: [ParseTestMode] does not depend on the case of the letters of
    its argument or on white space around it: padding a text with white
    space and changing the case of its letters does not change the mode that
    is returned, nor whether one is. *)
Theorem ParseTestMode_insensitive (quote : string -> string) (s s' pre post : string) :
  whitespace pre = true -> whitespace post = true ->
  GoStrings.ToLower s' = GoStrings.ToLower s ->
  forall m, ParseTestMode quote (pre +:+ s' +:+ post) = Ok m
            <-> ParseTestMode quote s = Ok m.
Proof.
  intros Hpre Hpost Hs m. rewrite !ParseTestMode_Ok. cbv zeta.
  by rewrite TrimSpace_pad, !ToLower_TrimSpace, Hs.
Qed.

End Modes.

Lemma ParseTestMode_modes_witness :
  ParseTestMode quoted "quick" = Ok ModeFast
  /\ exists b, createBackend (NewTestRunner (set_Mode ModeFast DefaultConfig)) = Ok b
               /\ BackendMode b = ModeFast.
Proof.
  split; [reflexivity |].
  apply (ParseTestMode_modes quoted "quick" ModeFast eq_refl).
Defined.

Lemma ParseTestMode_insensitive_witness :
  ParseTestMode quoted "  Accurate " = Ok ModeAccurate
  <-> ParseTestMode quoted "ACCURATE" = Ok ModeAccurate.
Proof.
  apply (ParseTestMode_insensitive quoted "ACCURATE" "Accurate" "  " " ");
    reflexivity.
Defined.

(** ** When a run succeeds, how it fails and what it leaves behind *)

Section Running.

Variable w : World.
Variable r : TestRunner.
Variable policies : list Policy.
Variable resources : list Object.


Lemma Setup_fast_cases (objects : list Object) :
  Setup w newFastBackend objects
  = match fakeNewClient w with
    | Some err => (newFastBackend, Some ("failed to create fake client: " +:+ err))
    | None =>
        (mkBackend fastBackend (Some (fakeClient (fastBackend_discovery objects))) true [],
         None)
    end.
Proof. done. Qed.

Lemma Setup_accurate_Ok (crds : list string) (objects : list Object) :
  (exists b, Setup w (newAccurateBackend crds) objects = (b, None))
  <-> accurateSetupOk w.
Proof.
  unfold Setup, accurateSetupOk. simpl.
  destruct (envtestStart w) as [e1 |];
    [split; [intros [b [=]] | intros ([=] & _)] |].
  destruct (dynamicNewForConfig w) as [e2 |];
    [split; [intros [b [=]] | intros (_ & [=] & _)] |].
  destruct (kubernetesNewForConfig w) as [e3 |];
    [split; [intros [b [=]] | intros (_ & _ & [=] & _)] |].
  destruct (realNewClient w) as [e4 |];
    [split; [intros [b [=]] | intros (_ & _ & _ & [=])] |].
  split; [done | intros _; by eexists].
Qed.

Lemma Setup_error_state (b b' : TestBackend) (objects : list Object) (err : string) :
  Setup w b objects = (b', Some err) -> b' = b.
Proof.
  unfold Setup. destruct (variant b).
  - destruct (fakeNewClient w); by intros [= <- _].
  - destruct (envtestStart w); [by intros [= <- _] |].
    destruct (dynamicNewForConfig w); [by intros [= <- _] |].
    destruct (kubernetesNewForConfig w); [by intros [= <- _] |].
    destruct (realNewClient w); by intros [= <- _].
Qed.

Lemma runPhases_Ok_ready (r0 : TestRunner) (b : TestBackend) (summary : TestSummary.t) :
  Client b <> None ->
  exists r' s, runPhases w r0 b summary policies resources = (r', Ok s).
Proof. apply runPhases_total. Qed.

Lemma createBackend_mode (b : TestBackend) :
  createBackend r = Ok b ->
  BackendMode b = Mode (config r) /\ Client b = None /\ IsReady b = false
  /\ (Mode (config r) = ModeFast -> b = newFastBackend)
  /\ (Mode (config r) = ModeAccurate -> b = newAccurateBackend (CRDPaths (config r))).
Proof.
  unfold createBackend.
  destruct (String.eqb_spec (Mode (config r)) ModeFast) as [E | Hf].
  - intros [= <-]. rewrite E. by repeat split.
  - destruct (String.eqb_spec (Mode (config r)) ModeAccurate) as [E | Ha]; [| done].
    intros [= <-]. rewrite E. by repeat split.
Qed.

(** What a successful run leaves behind, for the repository's constructor. *)
Lemma Run_Ok_inv (r' : TestRunner) (s : TestSummary.t) :
  Run w r policies resources = (r', Ok s) ->
  Validate (config r) = None
  /\ config r' = config r
  /\ exists b,
       Client b <> None /\ IsReady b = true
       /\ backend r' = Some (Teardown w b).1
       /\ BackendMode b = TestSummary.Mode s
       /\ evaluatePolicies b policies resources = Ok (TestSummary.Results s)
       /\ ((TestSummary.FellBack s = false
            /\ exists b0, createBackend r = Ok b0 /\ Setup w b0 resources = (b, None))
           \/ (TestSummary.FellBack s = true
               /\ fallbackApplies r /\ ~ accurateSetupOk w
               /\ Setup w newFastBackend resources = (b, None))).
Proof.
  unfold Run, Run_with. destruct (Validate (config r)) eqn:Hv; [intros [=] |].
  destruct (createBackend_valid r Hv) as [b0 Hc]. rewrite Hc.
  intros H. split; [done |].
  apply runSetup_Ok_inv in H as [[b [Hs H]] | (b1 & e & fast & Hs & Hm & Ha & Hs2 & H)];
    apply runPhases_Ok in H as (He & Hmode & Hfb & _ & Hcfg & Hb & _); simpl in *.
  - split; [done |]. exists b.
    destruct (Setup_Ok _ _ _ _ Hs) as (Hcl & Hvar & Hr).
    repeat split; try done.
    + rewrite Hmode. destruct (createBackend_mode b0 Hc) as (<- & _).
      unfold BackendMode. by rewrite Hvar.
    + left. split; [done |]. by exists b0.
  - split; [done |]. exists fast.
    destruct (Setup_Ok _ _ _ _ Hs2) as (Hcl & Hvar & Hr).
    repeat split; try done.
    + rewrite Hmode. unfold BackendMode. by rewrite Hvar.
    + right. repeat split; try done.
      intros Hok. destruct (createBackend_mode b0 Hc) as (_ & _ & _ & _ & Hacc).
      rewrite (Hacc Hm) in Hs.
      apply (Setup_accurate_Ok (CRDPaths (config r)) resources) in Hok as [b Hb'].
      congruence.
Qed.


(** X12: the errors of [Run].  A failing [Run] leaves the configuration
    as it was, and its error is either [invalid config:] followed by the
    reason of [Validate], with the runner untouched; or, for a valid
    configuration, [backend setup failed:] followed by the error of [Setup]
    when the fallback does not apply, or [fallback fast mode setup failed:]
    followed by the error of the fake client when it does.  The runner then
    holds the backend whose [Setup] failed, which is not ready and has no
    client.  No other error is possible. *)
Theorem Run_errors (r' : TestRunner) (err : string) :
  Run w r policies resources = (r', Err err) ->
  config r' = config r
  /\ ((exists reason, Validate (config r) = Some reason
                      /\ err = "invalid config: " +:+ reason /\ r' = r)
      \/ (Validate (config r) = None
          /\ exists b0 cause,
               createBackend r = Ok b0
               /\ (Setup w b0 resources).2 = Some cause
               /\ backend r' = Some b0
               /\ IsReady b0 = false /\ Client b0 = None
               /\ ((~ (Mode (config r) = ModeAccurate /\ AutoFallback (config r) = true)
                    /\ err = "backend setup failed: " +:+ cause)
                   \/ (Mode (config r) = ModeAccurate /\ AutoFallback (config r) = true
                       /\ exists cause2,
                            fakeNewClient w = Some cause2
                            /\ err = "fallback fast mode setup failed: "
                                     +:+ "failed to create fake client: " +:+ cause2)))).
Proof.
  unfold Run, Run_with. destruct (Validate (config r)) as [reason |] eqn:Hv.
  { intros [= <- <-]. split; [done |]. left. by exists reason. }
  destruct (createBackend_valid r Hv) as [b0 Hc]. rewrite Hc. unfold runSetup.
  destruct (Setup w b0 resources) as [b [cause |]] eqn:Hs.
  - pose proof (Setup_error_state _ _ _ _ Hs) as ->. simpl.
    destruct (String.eqb (Mode (config r)) ModeAccurate && AutoFallback (config r)) eqn:Hf.
    + apply (fallback_condition r) in Hf as [Hm Ha].
      rewrite Setup_fast_cases. destruct (fakeNewClient w) as [cause2 |] eqn:Hfk.
      * intros [= <- <-]. split; [done |]. right. split; [done |].
        destruct (createBackend_mode b0 Hc) as (_ & Hcl & Hr & _).
        exists b0, cause. rewrite Hs. repeat split; try done. right.
        repeat split; try done. by exists cause2.
      * intros H. exfalso.
        destruct (runPhases_total w
                    {| config := config r;
                       backend := Some (mkBackend fastBackend
                                          (Some (fakeClient (fastBackend_discovery resources)))
                                          true []) |}
                    (mkBackend fastBackend
                       (Some (fakeClient (fastBackend_discovery resources))) true [])
                    (TestSummary.set_Mode ModeFast
                       (TestSummary.set_fallback cause (TestSummary.new (Mode (config r)))))
                    policies resources) as (r1 & s1 & H1); [done |].
        simpl in H. rewrite H1 in H. discriminate H.
    + intros [= <- <-]. split; [done |]. right. split; [done |].
      destruct (createBackend_mode b0 Hc) as (_ & Hcl & Hr & _).
      exists b0, cause. rewrite Hs. repeat split; try done. left. split; [| done].
      intros [Hm Ha]. rewrite Hm, Ha in Hf. discriminate Hf.
  - intros H. exfalso.
    destruct (runPhases_total w {| config := config r; backend := Some b |} b
                (TestSummary.new (Mode (config r))) policies resources)
      as (r1 & s1 & H1); [by destruct (Setup_Ok _ _ _ _ Hs) |].
    simpl in H. rewrite H1 in H. discriminate H.
Qed.


Lemma Teardown_state (b : TestBackend) :
  (variant b = fastBackend \/ envtestStop w = None ->
   IsReady (Teardown w b).1 = false /\ Client (Teardown w b).1 = None)
  /\ (variant b = accurateBackend -> envtestStop w <> None -> (Teardown w b).1 = b).
Proof.
  unfold Teardown. destruct (variant b) eqn:Hv.
  - split; [done |]. by intros [=].
  - destruct (envtestStop w) as [err |].
    + split; [| done]. by intros [[=] | [=]].
    + split; [done |]. by intros _ H.
Qed.

(** X13: after a successful [Run] the runner holds the backend that
    evaluated, of the mode that the summary names, and has its configuration
    unchanged.  The backend has been torn down: it is not ready and has no
    client; except that an accurate backend whose process could not be
    stopped is left ready with its client, the summary being returned all
    the same.  A run that fell back holds a fast backend. *)
Theorem Run_teardown (r' : TestRunner) (s : TestSummary.t) :
  Run w r policies resources = (r', Ok s) ->
  config r' = config r
  /\ exists b,
       backend r' = Some b
       /\ BackendMode b = TestSummary.Mode s
       /\ (TestSummary.FellBack s = true -> variant b = fastBackend)
       /\ (variant b = fastBackend \/ envtestStop w = None ->
           IsReady b = false /\ Client b = None)
       /\ (variant b = accurateBackend -> envtestStop w <> None ->
           IsReady b = true /\ Client b <> None).
Proof.
  intros H. apply Run_Ok_inv in H as (_ & Hcfg & b & Hcl & Hr & Hb & Hm & _ & Hcase).
  split; [done |]. exists (Teardown w b).1. split; [done |].
  pose proof (Teardown_variant w b) as Hvar.
  destruct (Teardown_state b) as [Hdown Hkeep].
  split; [unfold BackendMode in *; by rewrite Hvar |].
  split.
  { intros Hfb. rewrite Hvar.
    destruct Hcase as [[Hn _] | (_ & _ & _ & Hs)]; [congruence |].
    by destruct (Setup_Ok _ _ _ _ Hs) as (_ & -> & _). }
  split.
  - rewrite Hvar. apply Hdown.
  - rewrite Hvar. intros Hv Hstop. by rewrite (Hkeep Hv Hstop).
Qed.

Lemma evaluateRule_status (pol : Policy) (resource : Object) (mode : TestMode)
    (rule : Rule) :
  TestResult.Status (evaluateRule pol resource mode rule) = "pass"
  \/ TestResult.Status (evaluateRule pol resource mode rule) = "skip".
Proof.
  unfold evaluateRule.
  destruct (HasValidate rule), (HasMutate rule), (HasGenerate rule),
    (HasVerifyImages rule); simpl; by auto.
Qed.

Lemma evaluatePair_status (b : TestBackend) (resource : Object) (pol : Policy) :
  Forall (fun res => TestResult.Status res = "pass" \/ TestResult.Status res = "skip")
         (evaluatePair b resource [] pol)
  /\ (1 <= List.length (evaluatePair b resource [] pol))%nat.
Proof.
  unfold evaluatePair. destruct (policyMatchesResource pol resource) eqn:Hm; simpl.
  - rewrite foldl_snoc, evaluatePolicyRules_map. simpl. rewrite map_id. split.
    + apply Forall_forall. intros x Hx.
      apply list_elem_of_In, in_map_iff in Hx as (rule & <- & _). apply evaluateRule_status.
    + rewrite length_map. apply policyMatchesResource_true in Hm as (rule & Hr & _).
      destruct (Rules pol); [by apply elem_of_nil in Hr | simpl; lia].
  - split; [| lia]. apply Forall_cons. split; [by right | apply Forall_nil_2].
Qed.

Lemma length_concat_ge {A B : Type} (f : B -> list A) (l : list B) (n : nat) :
  (forall x, n <= List.length (f x))%nat ->
  (List.length l * n <= List.length (concat (map f l)))%nat.
Proof.
  intros H. induction l as [| x l IH]; simpl; [lia |].
  rewrite length_app. specialize (H x). lia.
Qed.

Lemma evaluatePolicies_status (b : TestBackend) (results : list TestResult.t) :
  evaluatePolicies b policies resources = Ok results ->
  Forall (fun res => TestResult.Status res = "pass" \/ TestResult.Status res = "skip")
         results
  /\ (List.length resources * List.length policies <= List.length results)%nat.
Proof.
  unfold evaluatePolicies. destruct (Client b); [| done]. intros [= <-].
  rewrite foldl_resources. simpl. split.
  - apply Forall_concat, Forall_forall. intros l Hl.
    apply list_elem_of_In, in_map_iff in Hl as (resource & <- & _).
    apply Forall_concat, Forall_forall. intros l Hl.
    apply list_elem_of_In, in_map_iff in Hl as (pol & <- & _).
    apply evaluatePair_status.
  - apply length_concat_ge. intros resource.
    pose proof (length_concat_ge (evaluatePair b resource []) policies 1) as H.
    rewrite Nat.mul_1_r in H. apply H. intros pol. apply evaluatePair_status.
Qed.

Lemma countStatus_other (status : string) (results : list TestResult.t) :
  status <> "pass" -> status <> "skip" ->
  Forall (fun res => TestResult.Status res = "pass" \/ TestResult.Status res = "skip")
         results ->
  countStatus status results = 0%Z.
Proof.
  intros Hp Hs H. induction H as [| x l [Hx | Hx] _ IH].
  - done.
  - rewrite countStatus_cons, IH. unfold countStatus.
    rewrite filter_cons_False by congruence. done.
  - rewrite countStatus_cons, IH. unfold countStatus.
    rewrite filter_cons_False by congruence. done.
Qed.

Lemma countStatus_pass_skip (results : list TestResult.t) :
  Forall (fun res => TestResult.Status res = "pass" \/ TestResult.Status res = "skip")
         results ->
  (countStatus "pass" results + countStatus "skip" results)%Z
  = Z.of_nat (List.length results).
Proof.
  intros H. induction H as [| x l [Hx | Hx] _ IH]; [done | |];
    rewrite (countStatus_cons "pass"), (countStatus_cons "skip"); unfold countStatus in *;
    simpl List.length.
  - rewrite filter_cons_True by done. rewrite filter_cons_False by congruence.
    simpl. lia.
  - rewrite filter_cons_False by congruence. rewrite filter_cons_True by done.
    simpl. lia.
Qed.

(** X14: the stand-in evaluation never fails a resource.  In a summary
    that [Run] returns every result has the status [pass] or [skip] and the
    mode of the summary; the counters [Fail], [Warn] and [Error] are zero,
    [Pass] and [Skip] add up to the number of results, and there is at least
    one result for each pair of a resource and a policy. *)
Theorem Run_pass_or_skip (r' : TestRunner) (s : TestSummary.t) :
  Run w r policies resources = (r', Ok s) ->
  Forall (fun res => (TestResult.Status res = "pass" \/ TestResult.Status res = "skip")
                     /\ TestResult.Mode res = TestSummary.Mode s)
         (TestSummary.Results s)
  /\ TestSummary.Fail s = 0%Z /\ TestSummary.Warn s = 0%Z /\ TestSummary.Error s = 0%Z
  /\ (TestSummary.Pass s + TestSummary.Skip s)%Z
     = Z.of_nat (List.length (TestSummary.Results s))
  /\ (List.length resources * List.length policies
      <= List.length (TestSummary.Results s))%nat.
Proof.
  intros H.
  destruct (Run_with_Ok_inv createBackend _ _ _ _ _ _ H) as [(Hp & Hf & Hw & He & Hk) _].
  apply Run_Ok_inv in H as (_ & _ & b & _ & _ & _ & Hm & Hev & _).
  destruct (evaluatePolicies_status b _ Hev) as [Hst Hlen].
  split.
  { pose proof (evaluatePolicies_Mode _ _ _ _ Hev) as Hmode. rewrite Hm in Hmode.
    apply Forall_forall. intros x Hx. split.
    - by apply (proj1 (Forall_forall _ _) Hst).
    - by apply (proj1 (Forall_forall _ _) Hmode). }
  rewrite Hp, Hf, Hw, He, Hk.
  rewrite !countStatus_other by done. rewrite countStatus_pass_skip by done.
  done.
Qed.

End Running.

Lemma Run_teardown_witness :
  exists r' s b,
    Run stuckWorld (NewTestRunner accurateNoFallbackConfig) [podPolicy] [testPod] = (r', Ok s)
    /\ backend r' = Some b /\ IsReady b = true.
Proof.
  destruct (Run stuckWorld (NewTestRunner accurateNoFallbackConfig) [podPolicy] [testPod])
    as [r' [s | err]] eqn:E; [| by vm_compute in E].
  destruct (Run_teardown stuckWorld (NewTestRunner accurateNoFallbackConfig)
              [podPolicy] [testPod] r' s E) as (_ & b & Hb & Hm & _ & _ & Hkeep).
  exists r', s, b. split; [done |]. split; [done |].
  apply Hkeep; [| done].
  assert (Hs : TestSummary.Mode s = ModeAccurate) by (vm_compute in E; by injection E as _ <-).
  rewrite Hs in Hm. unfold BackendMode in Hm. by destruct (variant b).
Defined.

Lemma Run_pass_or_skip_witness :
  exists r' s,
    Run calmWorld (NewTestRunner fastConfig) [podPolicy; deploymentPolicy] [testPod]
    = (r', Ok s)
    /\ TestSummary.Fail s = 0%Z
    /\ (TestSummary.Pass s + TestSummary.Skip s)%Z = 2%Z.
Proof.
  destruct (Run calmWorld (NewTestRunner fastConfig) [podPolicy; deploymentPolicy] [testPod])
    as [r' [s | err]] eqn:E; [| by vm_compute in E].
  destruct (Run_pass_or_skip calmWorld (NewTestRunner fastConfig)
              [podPolicy; deploymentPolicy] [testPod] r' s E)
    as (_ & Hf & _ & _ & Hsum & _).
  exists r', s. split; [done |]. split; [done |]. rewrite Hsum.
  vm_compute in E. by injection E as _ <-.
Defined.

Lemma Run_errors_witness :
  exists cause,
    (Run brokenWorld (NewTestRunner accurateConfig) [podPolicy] [testPod]).2
    = Err ("fallback fast mode setup failed: " +:+ "failed to create fake client: "
           +:+ cause).
Proof.
  destruct (Run brokenWorld (NewTestRunner accurateConfig) [podPolicy] [testPod])
    as [r' [s | err]] eqn:E; [by vm_compute in E |].
  destruct (Run_errors brokenWorld (NewTestRunner accurateConfig) [podPolicy] [testPod]
              r' err E) as (_ & [(reason & Hv & _) | (_ & b0 & cause & _ & _ & _ & _ & _ & Hc)]).
  - by vm_compute in Hv.
  - destruct Hc as [[Hn _] | (_ & _ & cause2 & _ & ->)].
    + exfalso. apply Hn. by split.
    + by exists cause2.
Defined.

(** ** More on the comparator *)

Section Comparing.

Variable range : Range.
Hypothesis range_valid : ValidRange range.

Lemma CompareResults_counts (fast accurate : TestSummary.t) :
  let fastMap := resultMap (TestSummary.Results fast) in
  let accurateMap := resultMap (TestSummary.Results accurate) in
  let report := CompareResults range fast accurate in
  Matching report = Z.of_nat (size (filter (agrees accurateMap) fastMap))
  /\ Divergent report = Z.of_nat (size (filter (diverges accurateMap) fastMap))
  /\ OnlyInFast report = Z.of_nat (size (filter (missingFrom accurateMap) fastMap))
  /\ OnlyInAccurate report = Z.of_nat (size (filter (missingFrom fastMap) accurateMap))
  /\ List.length (Divergences report) = size (filter (diverges accurateMap) fastMap).
Proof.
  unfold CompareResults. cbv zeta.
  set (fm := resultMap (TestSummary.Results fast)).
  set (am := resultMap (TestSummary.Results accurate)).
  set (report0 := mkReport fast accurate 0 0 0 0 [] (S754_zero false)).
  destruct (foldl_compareAccurate fm (range _ am)
              (foldl (compareFast am) report0 (range _ fm)))
    as (Hm2 & Hd2 & Hf2 & Ha2 & Hv2).
  destruct (foldl_compareFast am (range _ fm) report0) as (Hm1 & Hd1 & Hf1 & Ha1 & Hv1).
  cbv zeta in *. simpl.
  rewrite Hm2, Hd2, Hf2, Ha2, Hv2, Hm1, Hd1, Hf1, Ha1, Hv1. simpl.
  rewrite !(size_filter_range range range_valid), length_divergences.
  repeat split; lia.
Qed.

Lemma filter_three (am : gmap string TestResult.t) (l : list (string * TestResult.t)) :
  (List.length (filter (agrees am) l) + List.length (filter (diverges am) l)
   + List.length (filter (missingFrom am) l))%nat
  = List.length l.
Proof.
  induction l as [| kv l IH]; [done |]. rewrite !filter_cons.
  destruct (compareFast_cases am kv)
    as [(Ha & Hd & Hm & _) | [(Ha & Hd & Hm & _) | (Ha & Hd & Hm & _)]];
    destruct (decide (agrees am kv)), (decide (diverges am kv)),
      (decide (missingFrom am kv)); try tauto; simpl; lia.
Qed.

Lemma size_three (am fm : gmap string TestResult.t) :
  (size (filter (agrees am) fm) + size (filter (diverges am) fm)
   + size (filter (missingFrom am) fm))%nat
  = size fm.
Proof.
  rewrite !(size_filter_range range range_valid), filter_three.
  rewrite (range_valid _ fm). apply length_map_to_list.
Qed.

Lemma size_filter_dom (P Q : string * TestResult.t -> Prop)
    `{!forall kv, Decision (P kv)} `{!forall kv, Decision (Q kv)}
    (m1 m2 : gmap string TestResult.t) :
  (forall k, (exists x, m1 !! k = Some x /\ P (k, x))
             <-> (exists y, m2 !! k = Some y /\ Q (k, y))) ->
  size (filter P m1) = size (filter Q m2).
Proof.
  intros Hiff. rewrite <- !size_dom. f_equal. apply set_eq. intros k.
  rewrite !elem_of_dom. unfold is_Some.
  setoid_rewrite map_lookup_filter_Some. apply Hiff.
Qed.

Lemma agrees_sym (am fm : gmap string TestResult.t) :
  size (filter (agrees am) fm) = size (filter (agrees fm) am).
Proof.
  apply size_filter_dom. intros k. unfold agrees. simpl. split.
  - intros (x & Hx & y & Hy & He). exists y. split; [done |]. by exists x.
  - intros (y & Hy & x & Hx & He). exists x. split; [done |]. by exists y.
Qed.

Lemma diverges_sym (am fm : gmap string TestResult.t) :
  size (filter (diverges am) fm) = size (filter (diverges fm) am).
Proof.
  apply size_filter_dom. intros k. unfold diverges. simpl. split.
  - intros (x & Hx & y & Hy & He). exists y. split; [done |]. by exists x.
  - intros (y & Hy & x & Hx & He). exists x. split; [done |]. by exists y.
Qed.

Lemma resultMap_snoc (results : list TestResult.t) (r : TestResult.t) :
  resultMap (results ++ [r]) = <[resultKey r := r]> (resultMap results).
Proof. unfold resultMap. by rewrite foldl_app. Qed.

Lemma resultMap_size (results : list TestResult.t) :
  (size (resultMap results) <= List.length results)%nat
  /\ (NoDup (map resultKey results) -> size (resultMap results) = List.length results).
Proof.
  induction results as [| r results [IH1 IH2]] using rev_ind; [done |].
  rewrite resultMap_snoc, length_app. simpl.
  destruct (resultMap results !! resultKey r) as [x |] eqn:E.
  - split.
    + rewrite map_size_insert_Some by by eauto. lia.
    + rewrite map_app. intros Hnd. apply NoDup_app in Hnd as (_ & Hnd & _). exfalso.
      destruct (resultMap_keyed results) as [_ Hk]. apply Hk in E as [Hin Hkey].
      apply (Hnd (resultKey r)); [| apply list_elem_of_here].
      apply list_elem_of_In, in_map_iff. exists x. split; [done | by apply list_elem_of_In].
  - rewrite map_size_insert_None by done. split; [lia |].
    rewrite map_app. intros Hnd. apply NoDup_app in Hnd as (Hnd & _). rewrite IH2 by done.
    lia.
Qed.

(** X15: the counters of [CompareResults] partition the keys.  Matching,
    divergent and only-in-fast count the distinct keys of the fast results,
    and matching, divergent and only-in-accurate those of the accurate ones;
    the distinct keys are at most the results, and all of them when no two
    results share a key.  Swapping the two summaries keeps the matching and
    the divergent counts, exchanges the two only-in counts, and records as
    many divergences. *)
Theorem CompareResults_partition (fast accurate : TestSummary.t) :
  let report := CompareResults range fast accurate in
  let swapped := CompareResults range accurate fast in
  (Matching report + Divergent report + OnlyInFast report)%Z
  = Z.of_nat (size (resultMap (TestSummary.Results fast)))
  /\ (Matching report + Divergent report + OnlyInAccurate report)%Z
     = Z.of_nat (size (resultMap (TestSummary.Results accurate)))
  /\ (size (resultMap (TestSummary.Results fast))
      <= List.length (TestSummary.Results fast))%nat
  /\ (NoDup (map resultKey (TestSummary.Results fast)) ->
      (Matching report + Divergent report + OnlyInFast report)%Z
      = Z.of_nat (List.length (TestSummary.Results fast)))
  /\ Matching swapped = Matching report
  /\ Divergent swapped = Divergent report
  /\ OnlyInFast swapped = OnlyInAccurate report
  /\ OnlyInAccurate swapped = OnlyInFast report
  /\ Z.of_nat (List.length (Divergences swapped)) = Divergent report.
Proof.
  intros report swapped.
  destruct (CompareResults_counts fast accurate) as (Hm & Hd & Hf & Ha & Hl).
  destruct (CompareResults_counts accurate fast) as (Hm' & Hd' & Hf' & Ha' & Hl').
  cbv zeta in *. fold report in Hm, Hd, Hf, Ha, Hl. fold swapped in Hm', Hd', Hf', Ha', Hl'.
  set (fm := resultMap (TestSummary.Results fast)) in *.
  set (am := resultMap (TestSummary.Results accurate)) in *.
  pose proof (size_three am fm) as H3. pose proof (size_three fm am) as H3'.
  pose proof (agrees_sym am fm) as Hsa. pose proof (diverges_sym am fm) as Hsd.
  destruct (resultMap_size (TestSummary.Results fast)) as [Hle Heq]. fold fm in Hle, Heq.
  repeat split; try lia.
  intros Hnd. specialize (Heq Hnd). lia.
Qed.

End Comparing.

Section SameInputs.

Variable range : Range.
Hypothesis range_valid : ValidRange range.

Lemma evaluatePair_keyStatus (b1 b2 : TestBackend) (resource : Object) (pol : Policy) :
  map keyStatus (evaluatePair b1 resource [] pol)
  = map keyStatus (evaluatePair b2 resource [] pol).
Proof.
  unfold evaluatePair. destruct (policyMatchesResource pol resource); simpl; [| done].
  rewrite !foldl_snoc, !evaluatePolicyRules_map. simpl. rewrite !map_id, !map_map.
  apply map_ext. intros rule. unfold evaluateRule.
  by destruct (HasValidate rule), (HasMutate rule), (HasGenerate rule),
    (HasVerifyImages rule).
Qed.

Lemma evaluatePolicies_keyStatus (b1 b2 : TestBackend) (policies : list Policy)
    (resources : list Object) (l1 l2 : list TestResult.t) :
  evaluatePolicies b1 policies resources = Ok l1 ->
  evaluatePolicies b2 policies resources = Ok l2 ->
  map keyStatus l1 = map keyStatus l2.
Proof.
  unfold evaluatePolicies. destruct (Client b1); [| done]. destruct (Client b2); [| done].
  intros [= <-] [= <-]. rewrite !foldl_resources. simpl.
  rewrite !concat_map, !map_map. f_equal. apply map_ext. intros resource.
  rewrite !concat_map, !map_map. f_equal. apply map_ext. intros pol.
  apply evaluatePair_keyStatus.
Qed.

Lemma resultMap_statuses (l1 l2 : list TestResult.t) :
  map keyStatus l1 = map keyStatus l2 ->
  TestResult.Status <$> resultMap l1 = TestResult.Status <$> resultMap l2.
Proof.
  revert l2. induction l1 as [| r1 l1 IH] using rev_ind; intros l2 H.
  - destruct l2; [done | discriminate H].
  - destruct l2 as [| r2 l2 _] using rev_ind.
    { rewrite map_app in H. simpl in H. by destruct (map keyStatus l1). }
    rewrite !map_app in H. simpl in H. apply app_inj_tail in H as [H [= Hk Hs]].
    rewrite !resultMap_snoc, !fmap_insert, Hk, Hs. f_equal. by apply IH.
Qed.

Lemma same_statuses_counts (fm am : gmap string TestResult.t) :
  TestResult.Status <$> fm = TestResult.Status <$> am ->
  size (filter (diverges am) fm) = 0%nat
  /\ size (filter (missingFrom am) fm) = 0%nat
  /\ size (filter (agrees am) fm) = size fm.
Proof.
  intros H.
  assert (Hl : forall k x, fm !! k = Some x ->
                 exists y, am !! k = Some y /\ TestResult.Status x = TestResult.Status y).
  { intros k x Hx. assert (Hk := f_equal (fun m => m !! k) H). simpl in Hk.
    rewrite !lookup_fmap, Hx in Hk. simpl in Hk.
    destruct (am !! k) as [y |]; [| done]. injection Hk as Hk. by exists y. }
  assert (Hd : filter (diverges am) fm = ∅).
  { apply map_empty. intros k. apply map_lookup_filter_None. right.
    intros x Hx (y & Hy & Hne). simpl in *.
    destruct (Hl k x Hx) as (y' & Hy' & He). congruence. }
  assert (Hm : filter (missingFrom am) fm = ∅).
  { apply map_empty. intros k. apply map_lookup_filter_None. right.
    intros x Hx Hn. unfold missingFrom in Hn. simpl in *.
    destruct (Hl k x Hx) as (y' & Hy' & He). congruence. }
  pose proof (size_three range range_valid am fm) as H3.
  rewrite Hd, Hm, !map_size_empty in *. repeat split; lia.
Qed.

(** X16: comparing two successful runs on the same policies and
    resources, whatever their configurations and backends, reports no
    divergence and no key on one side only: every distinct key matches.  The
    stand-in evaluation gives the same statuses in both modes. *)
Theorem CompareResults_same_inputs (w1 w2 : World) (r1 r2 r1' r2' : TestRunner)
    (policies : list Policy) (resources : list Object) (s1 s2 : TestSummary.t) :
  Run w1 r1 policies resources = (r1', Ok s1) ->
  Run w2 r2 policies resources = (r2', Ok s2) ->
  let report := CompareResults range s1 s2 in
  Divergent report = 0%Z /\ Divergences report = []
  /\ OnlyInFast report = 0%Z /\ OnlyInAccurate report = 0%Z
  /\ Matching report = Z.of_nat (size (resultMap (TestSummary.Results s1))).
Proof.
  intros H1 H2 report.
  apply Run_Ok_inv in H1 as (_ & _ & b1 & _ & _ & _ & _ & He1 & _).
  apply Run_Ok_inv in H2 as (_ & _ & b2 & _ & _ & _ & _ & He2 & _).
  pose proof (resultMap_statuses _ _ (evaluatePolicies_keyStatus _ _ _ _ _ _ He1 He2)) as Hst.
  destruct (CompareResults_counts range range_valid s1 s2) as (Hm & Hd & Hf & Ha & Hl).
  cbv zeta in *. fold report in Hm, Hd, Hf, Ha, Hl.
  destruct (same_statuses_counts _ _ Hst) as (Hd0 & Hf0 & Hm0).
  destruct (same_statuses_counts _ _ (eq_sym Hst)) as (_ & Ha0 & _).
  rewrite Hd0 in Hd, Hl. rewrite Hf0 in Hf. rewrite Ha0 in Ha. rewrite Hm0 in Hm.
  repeat split; try done. by destruct (Divergences report).
Qed.

End SameInputs.

Section Keys.

Lemma split_at_slash (a a' b b' : string) :
  has_char "/" a = false -> has_char "/" a' = false ->
  a +:+ "/" +:+ b = a' +:+ "/" +:+ b' -> a = a' /\ b = b'.
Proof.
  change ("/" +:+ b) with (String "/" b). change ("/" +:+ b') with (String "/" b').
  revert a'. induction a as [| c a IH]; intros [| c' a'] Ha Ha' H.
  - rewrite !String_app_nil_l in H. by injection H as ->.
  - rewrite String_app_nil_l in H. rewrite String_app_cons in H. injection H as <- _.
    cbn [has_char] in Ha'. by rewrite Ascii.eqb_refl in Ha'.
  - rewrite String_app_nil_l in H. rewrite String_app_cons in H. injection H as -> _.
    cbn [has_char] in Ha. by rewrite Ascii.eqb_refl in Ha.
  - rewrite !String_app_cons in H. injection H as -> H.
    cbn [has_char] in Ha, Ha'. apply orb_false_iff in Ha as [_ Ha], Ha' as [_ Ha'].
    destruct (IH a' Ha Ha' H) as [-> ->]. done.
Qed.

(** X17: for results whose policy name, rule name and resource kind hold
    no slash, the key of [CompareResults] identifies exactly the policy
    name, the rule name, the resource kind and the resource name: the
    namespace of the resource, the status, the message and the mode are not
    part of it.  Of two results with one key, the lookup map keeps the
    later one. *)
Theorem resultKey_injective (r1 r2 : TestResult.t) :
  slashFree r1 -> slashFree r2 ->
  (resultKey r1 = resultKey r2
   <-> TestResult.PolicyName r1 = TestResult.PolicyName r2
       /\ TestResult.RuleName r1 = TestResult.RuleName r2
       /\ TestResult.ResourceKind r1 = TestResult.ResourceKind r2
       /\ TestResult.ResourceName r1 = TestResult.ResourceName r2)
  /\ (resultKey r1 = resultKey r2 ->
      resultMap [r1; r2] = {[resultKey r2 := r2]}).
Proof.
  intros (Hp1 & Hr1 & Hk1) (Hp2 & Hr2 & Hk2). split; [split |].
  - unfold resultKey. intros H.
    apply split_at_slash in H as [Hp H]; [| done | done].
    apply split_at_slash in H as [Hr H]; [| done | done].
    apply split_at_slash in H as [Hk H]; [| done | done]. done.
  - unfold resultKey. by intros (-> & -> & -> & ->).
  - intros H. unfold resultMap. simpl. rewrite H. apply insert_insert_eq.
Qed.

End Keys.

Lemma CompareResults_same_inputs_witness :
  exists r1' r2' s1 s2,
    Run calmWorld (NewTestRunner fastConfig) [podPolicy; deploymentPolicy] [testPod]
    = (r1', Ok s1)
    /\ Run calmWorld (NewTestRunner accurateConfig) [podPolicy; deploymentPolicy] [testPod]
       = (r2', Ok s2)
    /\ TestSummary.Mode s1 = ModeFast /\ TestSummary.Mode s2 = ModeAccurate
    /\ Divergent (CompareResults enumeration_range s1 s2) = 0%Z
    /\ Divergences (CompareResults enumeration_range s1 s2) = [].
Proof.
  destruct (Run calmWorld (NewTestRunner fastConfig) [podPolicy; deploymentPolicy] [testPod])
    as [r1' [s1 | err]] eqn:E1; [| by vm_compute in E1].
  destruct (Run calmWorld (NewTestRunner accurateConfig) [podPolicy; deploymentPolicy]
              [testPod]) as [r2' [s2 | err]] eqn:E2; [| by vm_compute in E2].
  destruct (CompareResults_same_inputs enumeration_range enumeration_range_valid
              _ _ _ _ _ _ _ _ _ _ E1 E2) as (Hd & Hl & _).
  exists r1', r2', s1, s2. repeat split; try done.
  - vm_compute in E1. by injection E1 as _ <-.
  - vm_compute in E2. by injection E2 as _ <-.
Defined.

Lemma resultKey_injective_witness :
  resultKey defaultResult = resultKey prodResult
  /\ resultMap [defaultResult; prodResult] = {[resultKey prodResult := prodResult]}.
Proof.
  assert (H1 : slashFree defaultResult) by by repeat split.
  assert (H2 : slashFree prodResult) by by repeat split.
  destruct (resultKey_injective defaultResult prodResult H1 H2) as [Hiff Hmap].
  assert (Hk : resultKey defaultResult = resultKey prodResult) by by apply Hiff.
  split; [exact Hk | exact (Hmap Hk)].
Defined.

(** ** Registration of mocks *)

Section Registration.

Section Last.

Context {A V : Type}.
Variable key : A -> string.
Variable val : A -> V.

Lemma keyed_other (l : list A) (m0 : gmap string V) (p : string) :
  (forall y, y ∈ l -> key y <> p) ->
  foldl (fun m x => <[key x := val x]> m) m0 l !! p = m0 !! p.
Proof.
  revert m0. induction l as [| y l IH]; intros m0 H; simpl; [done |].
  rewrite IH.
  - apply lookup_insert_ne, H, list_elem_of_here.
  - intros z Hz. by apply H, list_elem_of_further.
Qed.

Lemma keyed_last (before after : list A) (x : A) (m0 : gmap string V) :
  (forall y, y ∈ after -> key y <> key x) ->
  foldl (fun m x => <[key x := val x]> m) m0 (before ++ x :: after) !! key x
  = Some (val x).
Proof.
  intros H. rewrite foldl_app. simpl. rewrite keyed_other by done.
  apply lookup_insert_eq.
Qed.

End Last.

Lemma HasGlobalContext_true {Value : Type} (r : MockResolver Value) (name : string) :
  HasGlobalContext r name = true <-> exists value, ResolveGlobalContext r name = Ok value.
Proof.
  unfold HasGlobalContext, ResolveGlobalContext. rewrite bool_decide_eq_true.
  destruct (globalCtx r !! name) as [v |].
  - split; [intros _; by exists v | by eauto].
  - split; [by intros [? ?] | by intros [? [=]]].
Qed.

Lemma ResolveAPICall_empty_vars {Value : Type} (range : Range) (r : MockResolver Value)
    (p : string) (v : Value) :
  ValidRange range -> apiCalls r !! p = Some v -> ResolveAPICall range r p ∅ = Ok v.
Proof.
  intros Hr Hp. unfold ResolveAPICall, substituteVariables.
  rewrite (range_empty range Hr). simpl. by rewrite Hp.
Qed.

Lemma NewMockResolver_Ok {Value : Type} (config : MockConfig.t Value) :
  exists r,
    NewMockResolver (Some config) = Ok r
    /\ mockConfig r = config
    /\ apiCalls r = indexAPICalls (MockConfig.APICallMocks config)
    /\ globalCtx r
       = foldl (fun m mock =>
                  <[GlobalContextMock.Name mock := GlobalContextMock.Value_ mock]> m)
               ∅ (MockConfig.GlobalContextMocks config)
    /\ httpServer r
       = match MockConfig.HTTPCallMocks config with
         | [] => None
         | ms => Some (mkHTTPMockServer ms)
         end.
Proof.
  unfold NewMockResolver. simpl.
  destruct (MockConfig.HTTPCallMocks config) as [| h hs]; simpl; by eexists.
Qed.

(** X18: [NewMockResolver] never fails, and the last registration of a
    name wins.  The resolver keeps the configuration; it has an HTTP server,
    with the configured mocks in their order, exactly when HTTP mocks are
    configured; a global context name resolves to the value of the last mock
    configured under it, and an API-call path without variables to the
    response of the last mock configured for it; and [HasGlobalContext]
    holds exactly for the configured names. *)
Theorem NewMockResolver_last_wins {Value : Type} (config : MockConfig.t Value) :
  exists r,
    NewMockResolver (Some config) = Ok r
    /\ mockConfig r = config
    /\ (httpServer r = None <-> MockConfig.HTTPCallMocks config = [])
    /\ (forall server, httpServer r = Some server ->
          mocks server = MockConfig.HTTPCallMocks config)
    /\ (forall before mock after,
          MockConfig.GlobalContextMocks config = before ++ mock :: after ->
          (forall later, later ∈ after ->
             GlobalContextMock.Name later <> GlobalContextMock.Name mock) ->
          ResolveGlobalContext r (GlobalContextMock.Name mock)
          = Ok (GlobalContextMock.Value_ mock))
    /\ (forall before mock after,
          MockConfig.APICallMocks config = before ++ mock :: after ->
          (forall later, later ∈ after ->
             APICallMock.URLPath later <> APICallMock.URLPath mock) ->
          forall range, ValidRange range ->
            ResolveAPICall range r (APICallMock.URLPath mock) ∅
            = Ok (APICallMock.Response mock))
    /\ (forall name, HasGlobalContext r name = true
                     <-> exists mock, mock ∈ MockConfig.GlobalContextMocks config
                                      /\ GlobalContextMock.Name mock = name).
Proof.
  destruct (NewMockResolver_Ok config) as (r & Hr & Hc & Ha & Hg & Hh).
  exists r. split; [done |]. split; [done |].
  split; [rewrite Hh; by destruct (MockConfig.HTTPCallMocks config) |].
  split.
  { intros server. rewrite Hh.
    destruct (MockConfig.HTTPCallMocks config); [done | by intros [= <-]]. }
  split; [| split].
  - intros before mock after Hl Hlater. unfold ResolveGlobalContext.
    rewrite Hg, Hl.
    by rewrite (keyed_last GlobalContextMock.Name GlobalContextMock.Value_).
  - intros before mock after Hl Hlater range Hrange.
    apply ResolveAPICall_empty_vars; [done |]. rewrite Ha, Hl. unfold indexAPICalls.
    by rewrite (keyed_last APICallMock.URLPath APICallMock.Response).
  - intros name. unfold HasGlobalContext. rewrite bool_decide_eq_true, Hg. split.
    + intros [v Hv].
      apply (keyed_from GlobalContextMock.Name GlobalContextMock.Value_) in Hv
        as [Hv | (mock & Hin & Hn & _)]; [by rewrite lookup_empty in Hv |].
      by exists mock.
    + intros (mock & Hin & <-).
      by apply (keyed_has GlobalContextMock.Name GlobalContextMock.Value_).
Qed.

(** X19: [AddGlobalContextMock] and lookup.  After adding a value under a
    name, [ResolveGlobalContext] returns it and [HasGlobalContext] holds for
    the name; every other name resolves as before; API calls resolve as
    before; and in every resolver [HasGlobalContext] holds exactly when
    [ResolveGlobalContext] succeeds. *)
Theorem AddGlobalContextMock_lookup {Value : Type} (r : MockResolver Value)
    (name : string) (value : Value) :
  ResolveGlobalContext (AddGlobalContextMock r name value) name = Ok value
  /\ HasGlobalContext (AddGlobalContextMock r name value) name = true
  /\ (forall other, other <> name ->
        ResolveGlobalContext (AddGlobalContextMock r name value) other
        = ResolveGlobalContext r other
        /\ HasGlobalContext (AddGlobalContextMock r name value) other
           = HasGlobalContext r other)
  /\ (forall range urlPath vars,
        ResolveAPICall range (AddGlobalContextMock r name value) urlPath vars
        = ResolveAPICall range r urlPath vars)
  /\ (forall other, HasGlobalContext r other = true
                    <-> exists found, ResolveGlobalContext r other = Ok found).
Proof.
  split; [| split; [| split; [| split]]].
  - unfold ResolveGlobalContext. simpl. by rewrite lookup_insert_eq.
  - unfold HasGlobalContext. simpl. rewrite lookup_insert_eq. by apply bool_decide_eq_true.
  - intros other Hne. unfold ResolveGlobalContext, HasGlobalContext. simpl.
    by rewrite lookup_insert_ne.
  - done.
  - apply HasGlobalContext_true.
Qed.

Section Adding.

Context {Value : Type}.
Variable range : Range.
Hypothesis range_valid : ValidRange range.

(** X20: [AddAPICallMock] and lookup.  After registering a response for a
    path, resolving that very path without variables, or with variables that
    leave it unchanged, returns the response, whatever patterns are
    registered: the exact entry has priority.  A call for another path, which
    the new path does not match as a pattern, still gets the response of its
    exact entry if it had one, and still fails with the same error if it
    failed.  Global context lookups are not affected. *)
Theorem AddAPICallMock_exact (r : MockResolver Value) (urlPath : string)
    (response : Value) :
  ResolveAPICall range (AddAPICallMock r urlPath response) urlPath ∅ = Ok response
  /\ (forall vars, substituteVariables range urlPath vars = urlPath ->
        ResolveAPICall range (AddAPICallMock r urlPath response) urlPath vars
        = Ok response)
  /\ (forall other vars,
        let resolvedPath := substituteVariables range other vars in
        resolvedPath <> urlPath -> matchesPattern urlPath resolvedPath = false ->
        (forall out, apiCalls r !! resolvedPath = Some out ->
           ResolveAPICall range (AddAPICallMock r urlPath response) other vars = Ok out)
        /\ (forall err, ResolveAPICall range r other vars = Err err ->
              ResolveAPICall range (AddAPICallMock r urlPath response) other vars
              = Err err))
  /\ (forall name,
        ResolveGlobalContext (AddAPICallMock r urlPath response) name
        = ResolveGlobalContext r name).
Proof.
  split; [| split; [| split]].
  - apply ResolveAPICall_empty_vars; [done |]. simpl. apply lookup_insert_eq.
  - intros vars Hs. unfold ResolveAPICall. rewrite Hs. simpl.
    by rewrite lookup_insert_eq.
  - intros other vars resolvedPath Hne Hnm. split.
    + intros out Hout. unfold ResolveAPICall. fold resolvedPath. simpl.
      by rewrite lookup_insert_ne, Hout.
    + intros err. unfold ResolveAPICall. fold resolvedPath. simpl.
      rewrite lookup_insert_ne by done.
      destruct (apiCalls r !! resolvedPath) as [out |]; [done |].
      destruct (List.find _ (range Value (apiCalls r))) as [[k x] |] eqn:E; [done |].
      intros [= <-].
      destruct (List.find _ (range Value (<[urlPath := response]> (apiCalls r))))
        as [[k x] |] eqn:E'; [| done].
      exfalso. apply find_split in E' as (before & after & Hl & Hm & _). simpl in Hm.
      assert (Hin : (k, x) ∈ range Value (<[urlPath := response]> (apiCalls r))).
      { rewrite Hl. apply elem_of_app. right. apply list_elem_of_here. }
      apply (elem_of_range range) in Hin; [| done].
      destruct (decide (k = urlPath)) as [-> | Hk]; [congruence |].
      rewrite lookup_insert_ne in Hin by done.
      apply (elem_of_range range) in Hin; [| done].
      pose proof (proj1 (find_is_None _ _) E (k, x) Hin) as Hf. simpl in Hf. congruence.
  - done.
Qed.

End Adding.

End Registration.

Lemma NewMockResolver_last_wins_witness :
  exists r, NewMockResolver (Some repeatedConfig) = Ok r
            /\ ResolveGlobalContext r "deployments" = Ok "2".
Proof.
  destruct (NewMockResolver_last_wins repeatedConfig)
    as (r & Hr & _ & _ & _ & Hg & _).
  exists r. split; [done |].
  apply (Hg [GlobalContextMock.mk "deployments" "1"]
            (GlobalContextMock.mk "deployments" "2") []); [done |].
  by intros later ?%elem_of_nil.
Defined.

Lemma AddAPICallMock_exact_witness :
  exists r : MockResolver string,
    NewMockResolver None = Ok r
    /\ ResolveAPICall enumeration_range (AddAPICallMock r "/api/v1/pods" "items")
                      "/api/v1/pods" ∅ = Ok "items".
Proof.
  eexists. split; [reflexivity |].
  exact (proj1 (AddAPICallMock_exact enumeration_range enumeration_range_valid _ _ _)).
Defined.

Section Appending.

Variable canon : string -> string.
Variable range : Range.

Lemma handle_app_none (ms rest : list HTTPCallMock.t) (w : ResponseWriter.t)
    (r : Request.t) :
  (forall mock, mock ∈ ms -> ~ Matches canon mock r) ->
  handle canon range (ms ++ rest) w r = handle canon range rest w r.
Proof.
  induction ms as [| m ms IH]; intros H; [done |]. simpl.
  pose proof (matches_restores canon m r) as Hr.
  destruct (matches canon m r) as [[|] r0] eqn:E; simpl in Hr; subst r0.
  - exfalso. apply (H m); [apply list_elem_of_here |].
    apply matches_true. by rewrite E.
  - apply IH. intros mock Hin. by apply H, list_elem_of_further.
Qed.

Lemma handle_app_some (ms rest : list HTTPCallMock.t) (w : ResponseWriter.t)
    (r : Request.t) :
  (exists mock, mock ∈ ms /\ Matches canon mock r) ->
  handle canon range (ms ++ rest) w r = handle canon range ms w r.
Proof.
  induction ms as [| m ms IH]; intros (mock & Hin & Hm).
  - by apply elem_of_nil in Hin.
  - simpl. pose proof (matches_restores canon m r) as Hr.
    destruct (matches canon m r) as [[|] r0] eqn:E; simpl in Hr; subst r0; [done |].
    apply IH. exists mock. split; [| done].
    apply elem_of_cons in Hin as [-> | Hin]; [| done].
    exfalso. apply (matches_false canon m r); [by rewrite E | done].
Qed.

(** X21: [AddMock] appends.  A request that an earlier mock of the server
    matches is answered as before the addition, so an added mock never
    takes over a request from an earlier one; a request that no earlier mock
    matches is answered by the added mock when it matches, and otherwise
    still gets the not-found answer. *)
Theorem AddMock_appends (s : HTTPMockServer) (mock : HTTPCallMock.t)
    (w : ResponseWriter.t) (r : Request.t) :
  mocks (AddMock s mock) = mocks s ++ [mock]
  /\ ((exists earlier, earlier ∈ mocks s /\ Matches canon earlier r) ->
      handler canon range (AddMock s mock) w r = handler canon range s w r)
  /\ ((forall earlier, earlier ∈ mocks s -> ~ Matches canon earlier r) ->
      (Matches canon mock r ->
       handler canon range (AddMock s mock) w r = (respond canon range mock w, r))
      /\ (~ Matches canon mock r ->
          handler canon range (AddMock s mock) w r = handler canon range s w r)).
Proof.
  unfold handler. simpl. split; [done |]. split; [apply handle_app_some |].
  intros Hnone. rewrite handle_app_none by done. simpl.
  pose proof (matches_restores canon mock r) as Hr.
  destruct (matches canon mock r) as [[|] r0] eqn:E; simpl in Hr; subst r0.
  - split; [done |]. intros Hn. exfalso. apply Hn, matches_true. by rewrite E.
  - split.
    + intros Hm. exfalso. apply (matches_false canon mock r); [by rewrite E | done].
    + intros _. symmetry. rewrite <- (app_nil_r (mocks s)) at 1.
      by rewrite handle_app_none.
Qed.

End Appending.

(** ** URL paths and resolver wrappers *)

Section Paths.

Lemma split_from_unfold (s cur : string) :
  GoStringsMore.split_from "/" s 0 cur
  = match s with
    | EmptyString => [cur]
    | String c r =>
        if Ascii.eqb c "/" then cur :: GoStringsMore.split_from "/" r 0 ""
        else GoStringsMore.split_from "/" r 0 (cur +:+ String c "")
    end.
Proof.
  destruct s as [| c r]; [done |].
  change (GoStringsMore.split_from "/" (String c r) 0 cur)
    with (if GoStrings.HasPrefix (String c r) "/"
          then cur :: GoStringsMore.split_from "/" r 0 ""
          else GoStringsMore.split_from "/" r 0 (cur +:+ String c "")).
  by rewrite HasPrefix_slash.
Qed.

Lemma Split_slash_one (s : string) :
  (List.length (GoStringsMore.Split s "/") =? 1)%nat = negb (has_char "/" s).
Proof.
  unfold GoStringsMore.Split.
  assert (H : forall cur,
            (List.length (GoStringsMore.split_from "/" s 0 cur) =? 1)%nat
            = negb (has_char "/" s)
            /\ (1 <= List.length (GoStringsMore.split_from "/" s 0 cur))%nat).
  { induction s as [| c r IH]; intros cur; [done |].
    rewrite split_from_unfold, has_char_cons, (Ascii.eqb_sym "/" c).
    destruct (Ascii.eqb c "/").
    - destruct (IH "") as [_ Hge]. simpl. split; [| lia].
      destruct (List.length (GoStringsMore.split_from "/" r 0 "")); [lia | done].
    - apply IH. }
  apply H.
Qed.

Lemma BuildURLPath_shape (apiVersion resource namespace name : string) :
  BuildURLPath apiVersion resource namespace name
  = (if has_char "/" apiVersion then "/apis/" else "/api/") +:+ apiVersion
    +:+ (if String.eqb namespace "" then "" else "/namespaces/" +:+ namespace)
    +:+ "/" +:+ resource
    +:+ (if String.eqb name "" then "" else "/" +:+ name).
Proof.
  unfold BuildURLPath. rewrite Split_slash_one.
  destruct (has_char "/" apiVersion), (String.eqb namespace ""), (String.eqb name "");
    simpl negb; cbv iota;
    rewrite ?String_app_nil_l, ?String_app_assoc, ?String_app_nil_l, ?String_app_empty_r;
    reflexivity.
Qed.

Lemma not_placeholder_start (c : ascii) (rest : string) :
  c <> "{"%char -> ~ startsWithPlaceholder (String c rest).
Proof.
  intros Hc (name & tail & _ & H). change ("{{" +:+ name +:+ "}}" +:+ tail)
    with (String "{" (String "{" (name +:+ "}}" +:+ tail))) in H. by injection H.
Qed.

Lemma PatternMatches_prefix (a p u : string) :
  has_char "{" a = false -> PatternMatches p u -> PatternMatches (a +:+ p) (a +:+ u).
Proof.
  induction a as [| c a IH]; intros Ha H.
  - by rewrite !String_app_nil_l.
  - rewrite has_char_cons in Ha. apply orb_false_iff in Ha as [Hc Ha].
    rewrite !String_app_cons. apply matches_literal; [| by apply IH].
    apply not_placeholder_start. intros ->. by rewrite Ascii.eqb_refl in Hc.
Qed.

Lemma PatternMatches_refl (a : string) :
  has_char "{" a = false -> PatternMatches a a.
Proof.
  intros Ha. rewrite <- (String_app_empty_r a). apply PatternMatches_prefix; [done |].
  apply matches_end.
Qed.

Lemma has_char_app (c : ascii) (a b : string) :
  has_char c (a +:+ b) = has_char c a || has_char c b.
Proof.
  induction a as [| d a IH]; [done |].
  by rewrite String_app_cons, !has_char_cons, IH, orb_assoc.
Qed.

(** X22: [BuildURLPath] writes [/api/] and the version for a version
    without a slash and [/apis/] and the group/version otherwise, then
    [/namespaces/] and the namespace when one is given, the resource, and the
    name when one is given.  A path built with a placeholder as its
    namespace is a pattern that matches the path built with any one-segment
    namespace, when the other components hold no opening brace; so a mock
    registered for the pattern answers the call for the concrete path. *)
Theorem BuildURLPath_pattern (apiVersion resource name : string) :
  (forall namespace,
     BuildURLPath apiVersion resource namespace name
     = (if has_char "/" apiVersion then "/apis/" else "/api/") +:+ apiVersion
       +:+ (if String.eqb namespace "" then "" else "/namespaces/" +:+ namespace)
       +:+ "/" +:+ resource
       +:+ (if String.eqb name "" then "" else "/" +:+ name))
  /\ (has_char "{" apiVersion = false -> has_char "{" resource = false ->
      has_char "{" name = false ->
      forall variable namespace,
        placeholderName variable -> segment namespace ->
        matchesPattern
          (BuildURLPath apiVersion resource ("{{" +:+ variable +:+ "}}") name)
          (BuildURLPath apiVersion resource namespace name) = true
        /\ forall (Value : Type) (range : Range) (r : MockResolver Value)
                  (response : Value),
             ValidRange range ->
             exists out,
               ResolveAPICall range
                 (AddAPICallMock r
                    (BuildURLPath apiVersion resource ("{{" +:+ variable +:+ "}}") name)
                    response)
                 (BuildURLPath apiVersion resource namespace name) ∅
               = Ok out).
Proof.
  split; [intros namespace; apply BuildURLPath_shape |].
  intros Hv Hr Hn variable namespace Hvar Hseg.
  assert (Hm : matchesPattern
                 (BuildURLPath apiVersion resource ("{{" +:+ variable +:+ "}}") name)
                 (BuildURLPath apiVersion resource namespace name) = true).
  { apply matchesPattern_spec. rewrite !BuildURLPath_shape.
    destruct (String.eqb_spec namespace "") as [-> | _]; [by destruct Hseg |].
    change (String.eqb ("{{" +:+ variable +:+ "}}") "") with false. cbv iota.
    set (tail := "/" +:+ resource +:+ (if String.eqb name "" then "" else "/" +:+ name)).
    assert (Htail : has_char "{" tail = false).
    { unfold tail. rewrite !has_char_app, Hr. destruct (String.eqb name ""); [done |].
      by rewrite has_char_app, Hn. }
    apply PatternMatches_prefix; [by destruct (has_char "/" apiVersion) |].
    apply PatternMatches_prefix; [done |].
    rewrite !String_app_assoc.
    apply (PatternMatches_prefix "/namespaces/"); [done |].
    apply matches_placeholder; [done | done |]. by apply PatternMatches_refl. }
  split; [done |]. intros Value range r response Hrange.
  set (pattern := BuildURLPath apiVersion resource ("{{" +:+ variable +:+ "}}") name) in *.
  set (path := BuildURLPath apiVersion resource namespace name) in *.
  assert (Hsub : substituteVariables range path ∅ = path).
  { unfold substituteVariables. by rewrite (range_empty range Hrange). }
  destruct (apiCalls (AddAPICallMock r pattern response) !! path) as [out |] eqn:E.
  - exists out. unfold ResolveAPICall. by rewrite Hsub, E.
  - pose proof (ResolveAPICall_found range Hrange (AddAPICallMock r pattern response)
                  path ∅ pattern) as Hf.
    apply Hf.
    + simpl. rewrite lookup_insert_eq. by eauto.
    + by rewrite Hsub.
Qed.

Lemma writeLabel_fold (l : list (string * string)) (sel : string) (first : bool) :
  (foldl writeLabel (sel, first) l).1
  = match l with
    | [] => sel
    | _ => (if first then sel else sel +:+ ",") +:+ selectorOf l
    end.
Proof.
  revert sel first. induction l as [| kv l IH]; intros sel first; [done |].
  cbn [foldl writeLabel]. rewrite IH. unfold selectorOf.
  destruct l as [| kv' l].
  - simpl. destruct first; simpl; by rewrite ?String_app_assoc.
  - cbn [map String.concat]. destruct first; simpl negb; cbv iota;
      by rewrite ?String_app_assoc.
Qed.

(** X23: [BuildListURLPath] is [BuildURLPath] without a name, followed,
    when there are labels, by [?labelSelector=] and the labels written as
    key, equals sign, value, separated by commas, in the order in which the
    label map is visited; nothing is escaped. *)
Theorem BuildListURLPath_selector (range : Range) (apiVersion resource namespace : string)
    (labels : gmap string string) :
  ValidRange range ->
  (labels = ∅ ->
   BuildListURLPath range apiVersion resource namespace labels
   = BuildURLPath apiVersion resource namespace "")
  /\ (labels <> ∅ ->
      BuildListURLPath range apiVersion resource namespace labels
      = BuildURLPath apiVersion resource namespace ""
        +:+ "?labelSelector=" +:+ selectorOf (range _ labels))
  /\ (forall key value, labels = {[key := value]} ->
        BuildListURLPath range apiVersion resource namespace labels
        = BuildURLPath apiVersion resource namespace ""
          +:+ "?labelSelector=" +:+ key +:+ "=" +:+ value).
Proof.
  intros Hr.
  assert (Hne : labels <> ∅ ->
            BuildListURLPath range apiVersion resource namespace labels
            = BuildURLPath apiVersion resource namespace ""
              +:+ "?labelSelector=" +:+ selectorOf (range _ labels)).
  { intros Hl. unfold BuildListURLPath.
    destruct (Nat.ltb_spec 0 (size labels)) as [_ | Hz].
    - rewrite writeLabel_fold.
      destruct (range string labels) as [| kv l] eqn:E; [| by rewrite String_app_nil_l].
      exfalso. apply Hl. apply map_to_list_empty_iff.
      apply Permutation_nil_r. by rewrite <- (Hr _ labels), E.
    - exfalso. apply Hl. apply map_size_empty_iff. lia. }
  split; [| split; [done |]].
  - intros ->. unfold BuildListURLPath. by rewrite map_size_empty.
  - intros key value ->. rewrite Hne.
    + rewrite (range_singleton range key value Hr). unfold selectorOf. simpl. done.
    + apply insert_non_empty.
Qed.

End Paths.

Lemma BuildListURLPath_selector_witness :
  BuildListURLPath enumeration_range "v1" "pods" "default" {["app" := "web"]}
  = "/api/v1/namespaces/default/pods?labelSelector=app=web".
Proof.
  destruct (BuildListURLPath_selector enumeration_range "v1" "pods" "default"
              {["app" := "web"]} enumeration_range_valid) as (_ & _ & H).
  exact (H "app" "web" eq_refl).
Defined.

Lemma BuildURLPath_pattern_witness :
  matchesPattern (BuildURLPath "apps/v1" "deployments" "{{namespace}}" "my-app")
                 "/apis/apps/v1/namespaces/prod/deployments/my-app" = true.
Proof.
  destruct (BuildURLPath_pattern "apps/v1" "deployments" "my-app") as [_ H].
  destruct (H eq_refl eq_refl eq_refl "namespace" "prod") as [Hm _].
  - by split.
  - by split.
  - exact Hm.
Defined.

Section Wrappers.

Context {Value : Type}.

(** X24: [GlobalContextResolver.Has] holds exactly when
    [GlobalContextResolver.Resolve] succeeds.  Without a resolver, [Has] is
    false and both [Resolve] methods fail with [resolver not initialized];
    with one, the three methods are those of the resolver. *)
Theorem GlobalContextResolver_Has_Resolve (resolver : option (MockResolver Value))
    (name : string) :
  let g := NewGlobalContextResolver resolver in
  (GlobalContextResolver_Has g name = true
   <-> exists value, GlobalContextResolver_Resolve g name = Ok value)
  /\ (resolver = None ->
      GlobalContextResolver_Has g name = false
      /\ GlobalContextResolver_Resolve g name = Err "resolver not initialized"
      /\ forall range urlPath vars,
           APICallResolver_Resolve range (NewAPICallResolver resolver) urlPath vars
           = Err "resolver not initialized")
  /\ (forall inner, resolver = Some inner ->
        GlobalContextResolver_Has g name = HasGlobalContext inner name
        /\ GlobalContextResolver_Resolve g name = ResolveGlobalContext inner name
        /\ forall range urlPath vars,
             APICallResolver_Resolve range (NewAPICallResolver resolver) urlPath vars
             = ResolveAPICall range inner urlPath vars).
Proof.
  unfold GlobalContextResolver_Has, GlobalContextResolver_Resolve, APICallResolver_Resolve.
  simpl. split; [| split].
  - destruct resolver as [inner |].
    + apply HasGlobalContext_true.
    + split; [done | by intros [? [=]]].
  - intros ->. by repeat split.
  - intros inner ->. by repeat split.
Qed.

End Wrappers.

(** ** Context loaders and the test context *)

Section Loading.

Context {Value Ctx : Type}.
Variable marshal : Value -> Result string.
Variable AddContextEntry : Ctx -> string -> string -> Ctx * option string.
Variable range : Range.

(** X25: [mockGctxLoader.LoadData].  An entry without a global reference
    is an error.  When the store is missing or has no mock for the
    referenced name, the call succeeds and loads nothing: loader and engine
    context are as before.  When the store has a mock, its value is
    marshalled and added to the engine context under the name of the entry,
    and the loader holds the data; a marshalling error and an error of the
    engine context are reported.  A success either changed nothing or loaded
    the data; an error leaves the loader as it was and is one of three
    texts, never a failure to resolve the mock. *)
Theorem mockGctxLoader_LoadData_cases (g : mockLoader Value) (enginectx : Ctx) :
  (ContextEntry.GlobalReference (entry g) = None ->
   mockGctxLoader_LoadData marshal AddContextEntry g enginectx
   = (g, enginectx, Some "context entry does not have global reference"))
  /\ (forall gctxName,
        ContextEntry.GlobalReference (entry g) = Some gctxName ->
        (forall store, mockStore g = Some store -> HasGlobalContext store gctxName = false) ->
        mockGctxLoader_LoadData marshal AddContextEntry g enginectx = (g, enginectx, None))
  /\ (forall gctxName store,
        ContextEntry.GlobalReference (entry g) = Some gctxName ->
        mockStore g = Some store -> HasGlobalContext store gctxName = true ->
        exists mockData,
          ResolveGlobalContext store gctxName = Ok mockData
          /\ (forall err, marshal mockData = Err err ->
                mockGctxLoader_LoadData marshal AddContextEntry g enginectx
                = (g, enginectx, Some ("failed to marshal mock data: " +:+ err)))
          /\ (forall jsonData, marshal mockData = Ok jsonData ->
                let added := AddContextEntry enginectx (ContextEntry.Name (entry g))
                                             jsonData in
                (added.2 = None ->
                 mockGctxLoader_LoadData marshal AddContextEntry g enginectx
                 = (mkMockLoader (entry g) (mockStore g) (Some jsonData), added.1, None))
                /\ (forall err, added.2 = Some err ->
                      mockGctxLoader_LoadData marshal AddContextEntry g enginectx
                      = (g, added.1,
                         Some ("failed to add mock context entry "
                               +:+ ContextEntry.Name (entry g) +:+ ": " +:+ err)))))
  /\ (forall g' enginectx',
        mockGctxLoader_LoadData marshal AddContextEntry g enginectx = (g', enginectx', None) ->
        (g' = g /\ enginectx' = enginectx)
        \/ exists gctxName store mockData jsonData,
             ContextEntry.GlobalReference (entry g) = Some gctxName
             /\ mockStore g = Some store
             /\ ResolveGlobalContext store gctxName = Ok mockData
             /\ marshal mockData = Ok jsonData
             /\ AddContextEntry enginectx (ContextEntry.Name (entry g)) jsonData
                = (enginectx', None)
             /\ g' = mkMockLoader (entry g) (mockStore g) (Some jsonData)
             /\ HasLoaded g' = true)
  /\ (forall g' enginectx' err,
        mockGctxLoader_LoadData marshal AddContextEntry g enginectx = (g', enginectx', Some err) ->
        g' = g
        /\ (err = "context entry does not have global reference"
            \/ (exists cause, err = "failed to marshal mock data: " +:+ cause)
            \/ (exists cause,
                  err = "failed to add mock context entry "
                        +:+ ContextEntry.Name (entry g) +:+ ": " +:+ cause))).
Proof.
  unfold mockGctxLoader_LoadData.
  split; [by intros -> |]. split; [| split; [| split]].
  - intros gctxName -> Hno. destruct (mockStore g) as [store |]; [| done].
    by rewrite (Hno store eq_refl).
  - intros gctxName store -> -> Hhas. rewrite Hhas.
    destruct (proj1 (HasGlobalContext_true store gctxName) Hhas) as [mockData Hres].
    exists mockData. rewrite Hres. split; [done |]. split.
    + by intros err ->.
    + intros jsonData ->. cbv zeta.
      destruct (AddContextEntry enginectx (ContextEntry.Name (entry g)) jsonData)
        as [ctx' [err |]]; simpl; split; try done.
      by intros err' [= ->].
  - intros g' enginectx'.
    destruct (ContextEntry.GlobalReference (entry g)) as [gctxName |]; [| intros [=]].
    destruct (mockStore g) as [store |]; [| intros [= <- <-]; by left].
    destruct (HasGlobalContext store gctxName); [| intros [= <- <-]; by left].
    destruct (ResolveGlobalContext store gctxName) as [mockData | err] eqn:Hres;
      [| intros [=]].
    destruct (marshal mockData) as [jsonData | err] eqn:Hm; [| intros [=]].
    destruct (AddContextEntry enginectx (ContextEntry.Name (entry g)) jsonData)
      as [ctx' [err |]] eqn:Ha; [intros [=] |].
    intros [= <- <-]. right. exists gctxName, store, mockData, jsonData.
    by repeat split.
  - intros g' enginectx' err.
    destruct (ContextEntry.GlobalReference (entry g)) as [gctxName |];
      [| intros [= <- _ <-]; split; [done | by left]].
    destruct (mockStore g) as [store |]; [| intros [=]].
    destruct (HasGlobalContext store gctxName) eqn:Hhas; [| intros [=]].
    destruct (proj1 (HasGlobalContext_true store gctxName) Hhas) as [mockData Hres].
    rewrite Hres.
    destruct (marshal mockData) as [jsonData | cause] eqn:Hm.
    + destruct (AddContextEntry enginectx (ContextEntry.Name (entry g)) jsonData)
        as [ctx' [cause |]] eqn:Ha; [| intros [=]].
      intros [= <- _ <-]. split; [done |]. right. right. by exists cause.
    + intros [= <- _ <-]. split; [done |]. right. left. by exists cause.
Qed.

(** X26: [mockAPILoader.LoadData].  An entry without an API call is an
    error; when the store is missing or does not resolve the URL path of the
    entry (taken without variables), the call fails with
    [no mock available for API call to] and the path, changing nothing.
    When the path resolves, the response is marshalled and added to the
    engine context under the name of the entry.  The call succeeds only in
    that case, and the loader then holds the data. *)
Theorem mockAPILoader_LoadData_cases (a : mockLoader Value) (enginectx : Ctx) :
  (ContextEntry.APICall (entry a) = None ->
   mockAPILoader_LoadData marshal AddContextEntry range a enginectx
   = (a, enginectx, Some "context entry does not have API call"))
  /\ (forall urlPath,
        ContextEntry.APICall (entry a) = Some urlPath ->
        (forall store, mockStore a = Some store ->
                       is_Ok (ResolveAPICall range store urlPath ∅) = false) ->
        mockAPILoader_LoadData marshal AddContextEntry range a enginectx
        = (a, enginectx, Some ("no mock available for API call to " +:+ urlPath)))
  /\ (forall urlPath store mockData jsonData,
        ContextEntry.APICall (entry a) = Some urlPath ->
        mockStore a = Some store ->
        ResolveAPICall range store urlPath ∅ = Ok mockData ->
        marshal mockData = Ok jsonData ->
        let added := AddContextEntry enginectx (ContextEntry.Name (entry a)) jsonData in
        (added.2 = None ->
         mockAPILoader_LoadData marshal AddContextEntry range a enginectx
         = (mkMockLoader (entry a) (mockStore a) (Some jsonData), added.1, None))
        /\ (forall err, added.2 = Some err ->
              mockAPILoader_LoadData marshal AddContextEntry range a enginectx
              = (a, added.1,
                 Some ("failed to add mock API context entry "
                       +:+ ContextEntry.Name (entry a) +:+ ": " +:+ err))))
  /\ (forall a' enginectx',
        mockAPILoader_LoadData marshal AddContextEntry range a enginectx = (a', enginectx', None) ->
        HasLoaded a' = true
        /\ exists urlPath store mockData jsonData,
             ContextEntry.APICall (entry a) = Some urlPath
             /\ mockStore a = Some store
             /\ ResolveAPICall range store urlPath ∅ = Ok mockData
             /\ marshal mockData = Ok jsonData
             /\ data a' = Some jsonData
             /\ AddContextEntry enginectx (ContextEntry.Name (entry a)) jsonData
                = (enginectx', None)).
Proof.
  unfold mockAPILoader_LoadData.
  split; [by intros -> |]. split; [| split].
  - intros urlPath -> Hno. cbv zeta. destruct (mockStore a) as [store |]; [| done].
    specialize (Hno store eq_refl).
    by destruct (ResolveAPICall range store urlPath ∅).
  - intros urlPath store mockData jsonData -> -> Hres Hm. cbv zeta. rewrite Hres, Hm.
    destruct (AddContextEntry enginectx (ContextEntry.Name (entry a)) jsonData)
      as [ctx' [err |]]; simpl; split; try done.
    by intros err' [= ->].
  - intros a' enginectx'.
    destruct (ContextEntry.APICall (entry a)) as [urlPath |]; [| done]. cbv zeta.
    destruct (mockStore a) as [store |]; [| intros [=]].
    destruct (ResolveAPICall range store urlPath ∅) as [mockData | err] eqn:Hres;
      [| intros [=]].
    destruct (marshal mockData) as [jsonData | err] eqn:Hm; [| intros [=]].
    destruct (AddContextEntry enginectx (ContextEntry.Name (entry a)) jsonData)
      as [ctx' [err |]] eqn:Ha; [intros [=] |].
    intros [= <- <-]. split; [done |].
    exists urlPath, store, mockData, jsonData. by repeat split.
Qed.

End Loading.

Section Contexts.

Context {Value Obj : Type}.
Variable ofObject : Obj -> Value.

Lemma foldl_append {A B C : Type} (f : B -> A) (g : C -> list A -> C)
    (get : C -> list A) (l : list B) (c : C) :
  (forall c k, get (g c k) = k) -> (forall c, g c (get c) = c) ->
  (forall c k k', g (g c k) k' = g c k') ->
  foldl (fun c x => g c (get c ++ [f x])) c l = g c (get c ++ map f l).
Proof.
  intros Hget Hid Hgg. revert c. induction l as [| x l IH]; intros c; simpl.
  - by rewrite app_nil_r, Hid.
  - rewrite IH, Hget, Hgg. by rewrite <- app_assoc.
Qed.

Lemma convertToMockConfig_maps (apiMocks : v1alpha1.MockConfig Value Obj) :
  convertToMockConfig ofObject (Some apiMocks)
  = Some (MockConfig.mk
            (map (fun m => APICallMock.mk (v1alpha1.URLPath m) (v1alpha1.Method m)
                                          (ofObject (v1alpha1.Response m)))
                 (v1alpha1.APICalls apiMocks))
            (map (fun m => GlobalContextMock.mk (v1alpha1.Name m) (v1alpha1.Value_ m))
                 (v1alpha1.GlobalContext apiMocks))
            (map convertHTTPCallMock (v1alpha1.HTTPCalls apiMocks))).
Proof.
  unfold convertToMockConfig. f_equal.
  rewrite (foldl_append
             (fun m => APICallMock.mk (v1alpha1.URLPath m) (v1alpha1.Method m)
                                      (ofObject (v1alpha1.Response m)))
             (fun c k => MockConfig.mk k (MockConfig.GlobalContextMocks c)
                                       (MockConfig.HTTPCallMocks c))
             MockConfig.APICallMocks); [| done | by intros [] | done].
  rewrite (foldl_append
             (fun m => GlobalContextMock.mk (v1alpha1.Name m) (v1alpha1.Value_ m))
             (fun c k => MockConfig.mk (MockConfig.APICallMocks c) k
                                       (MockConfig.HTTPCallMocks c))
             MockConfig.GlobalContextMocks); [| done | by intros [] | done].
  rewrite (foldl_append convertHTTPCallMock
             (fun c k => MockConfig.mk (MockConfig.APICallMocks c)
                                       (MockConfig.GlobalContextMocks c) k)
             MockConfig.HTTPCallMocks); [| done | by intros [] | done].
  done.
Qed.

(** X27: [NewTestContext] never fails and keeps the values.  The context
    has mocks, and a mock store, exactly when the values carry a mock
    configuration.  The store then resolves each configured global context
    name to its last configured value and each configured API-call path,
    without variables, to its last configured response, and has an HTTP
    server exactly when HTTP mocks are configured: the conversion of the
    configuration loses none of them. *)
Theorem NewTestContext_mocks (values : option (v1alpha1.ValuesSpec Value Obj)) :
  exists tc,
    NewTestContext ofObject values = Ok tc
    /\ Values tc = values
    /\ (HasMocks tc = true
        <-> exists spec mocks, values = Some spec /\ v1alpha1.Mocks spec = Some mocks)
    /\ (GetMockStore tc = None <-> HasMocks tc = false)
    /\ forall spec mocks,
         values = Some spec -> v1alpha1.Mocks spec = Some mocks ->
         exists store,
           GetMockStore tc = Some store
           /\ (forall before mock after,
                 v1alpha1.GlobalContext mocks = before ++ mock :: after ->
                 (forall later, later ∈ after ->
                    v1alpha1.Name later <> v1alpha1.Name mock) ->
                 ResolveGlobalContext store (v1alpha1.Name mock)
                 = Ok (v1alpha1.Value_ mock))
           /\ (forall before mock after,
                 v1alpha1.APICalls mocks = before ++ mock :: after ->
                 (forall later, later ∈ after ->
                    v1alpha1.URLPath later <> v1alpha1.URLPath mock) ->
                 forall range, ValidRange range ->
                   ResolveAPICall range store (v1alpha1.URLPath mock) ∅
                   = Ok (ofObject (v1alpha1.Response mock)))
           /\ (httpServer store = None <-> v1alpha1.HTTPCalls mocks = []).
Proof.
  unfold NewTestContext. destruct values as [spec |].
  2: { eexists. split; [reflexivity |]. simpl. split; [done |].
       split; [split; [done | by intros (? & ? & [=] & _)] |].
       split; [done |]. by intros spec mocks [=]. }
  destruct (v1alpha1.Mocks spec) as [mocks |] eqn:Hmocks.
  2: { eexists. split; [reflexivity |]. simpl. split; [done |].
       split; [split; [done | intros (? & ? & [= <-] & ?); congruence] |].
       split; [done |]. intros spec' mocks [= <-]. congruence. }
  rewrite convertToMockConfig_maps.
  set (config := MockConfig.mk _ _ _).
  destruct (NewMockResolver_Ok config) as (r & Hr & _ & Hac & Hgc & Hhs).
  assert (Hh : httpServer r = None <-> MockConfig.HTTPCallMocks config = []).
  { rewrite Hhs. by destruct (MockConfig.HTTPCallMocks config). }
  rewrite Hr. eexists. split; [reflexivity |]. simpl. split; [done |].
  split; [split; [by eauto | done] |]. split; [done |].
  intros spec' mocks' [= <-] Hm'. assert (mocks' = mocks) as -> by congruence.
  exists r. split; [done |]. split; [| split].
  - intros before mock after Hl Hlater. unfold ResolveGlobalContext.
    rewrite Hgc. unfold config. cbn [MockConfig.GlobalContextMocks].
    set (conv := fun m : v1alpha1.GlobalContextMock Value =>
                   GlobalContextMock.mk (v1alpha1.Name m) (v1alpha1.Value_ m)).
    change (v1alpha1.Name mock) with (GlobalContextMock.Name (conv mock)).
    rewrite Hl, map_app. cbn [map].
    rewrite (keyed_last GlobalContextMock.Name GlobalContextMock.Value_); [done |].
    intros later Hin. apply list_elem_of_In, in_map_iff in Hin as (m & <- & Hin).
    simpl. by apply Hlater, list_elem_of_In.
  - intros before mock after Hl Hlater range Hrange.
    apply ResolveAPICall_empty_vars; [done |]. rewrite Hac. unfold config, indexAPICalls.
    cbn [MockConfig.APICallMocks].
    set (conv := fun m : v1alpha1.APICallMock Obj =>
                   APICallMock.mk (v1alpha1.URLPath m) (v1alpha1.Method m)
                                  (ofObject (v1alpha1.Response m))).
    change (v1alpha1.URLPath mock) with (APICallMock.URLPath (conv mock)).
    rewrite Hl, map_app. cbn [map].
    rewrite (keyed_last APICallMock.URLPath APICallMock.Response); [done |].
    intros later Hin. apply list_elem_of_In, in_map_iff in Hin as (m & <- & Hin).
    simpl. by apply Hlater, list_elem_of_In.
  - rewrite Hh. unfold config. simpl. by destruct (v1alpha1.HTTPCalls mocks).
Qed.

End Contexts.

Lemma mockGctxLoader_LoadData_witness :
  exists tc store,
    NewTestContext (fun o : string => o) (Some configmapsValues) = Ok tc
    /\ GetMockStore tc = Some store
    /\ mockGctxLoader_LoadData marshalText addToList
         (NewMockGCTXLoader deploymentsEntry (Some store)) []
       = (mkMockLoader deploymentsEntry (Some store) (Some "3"),
          [("deploymentCount", "3")], None).
Proof.
  eexists. eexists. split; [reflexivity |]. split; [reflexivity |].
  set (store := {| mockConfig := _ |}).
  destruct (mockGctxLoader_LoadData_cases marshalText addToList
              (NewMockGCTXLoader deploymentsEntry (Some store)) [])
    as (_ & _ & H & _).
  destruct (H "deployments-{{namespace}}" store eq_refl eq_refl eq_refl)
    as (mockData & Hres & _ & Hok).
  injection Hres as <-.
  exact (proj1 (Hok "3" eq_refl) eq_refl).
Defined.

Lemma mockAPILoader_LoadData_witness :
  exists tc store,
    NewTestContext (fun o : string => o) (Some configmapsValues) = Ok tc
    /\ GetMockStore tc = Some store
    /\ mockAPILoader_LoadData marshalText addToList enumeration_range
         (NewMockAPILoader configmapsEntry (Some store)) []
       = (mkMockLoader configmapsEntry (Some store) (Some "items"),
          [("configmaps", "items")], None).
Proof.
  eexists. eexists. split; [reflexivity |]. split; [reflexivity |].
  set (store := {| mockConfig := _ |}).
  destruct (mockAPILoader_LoadData_cases marshalText addToList enumeration_range
              (NewMockAPILoader configmapsEntry (Some store)) [])
    as (_ & _ & H & _).
  refine (proj1 (H "/api/v1/namespaces/prod/configmaps" store "items" "items"
                   eq_refl eq_refl _ eq_refl) eq_refl).
  by vm_compute.
Defined.


Lemma CompareResults_partition_witness :
  (Matching (CompareResults enumeration_range fastSummary accurateSummary)
   + Divergent (CompareResults enumeration_range fastSummary accurateSummary)
   + OnlyInFast (CompareResults enumeration_range fastSummary accurateSummary))%Z
  = 3%Z.
Proof.
  destruct (CompareResults_partition enumeration_range enumeration_range_valid
              fastSummary accurateSummary) as (_ & _ & _ & H & _).
  apply H. apply (bool_decide_unpack _). by vm_compute.
Defined.

(** ** The context provider and the control-plane binaries *)

Section Providing.

Lemma ToGVR_parsed (apiVersion kind g v : string) :
  ParseGroupVersion apiVersion = Ok (GV g v) ->
  ToGVR apiVersion kind = Ok (GVR g v (fastBackend_resource kind)).
Proof. intros H. unfold ToGVR. by rewrite H. Qed.

Lemma ToGVR_apiVersionOf (obj : Object) :
  has_char "/" (objGroup obj) = false -> has_char "/" (objVersion obj) = false ->
  ToGVR (apiVersionOf obj) (objKind obj)
  = Ok (GVR (objGroup obj) (objVersion obj) (fastBackend_resource (objKind obj))).
Proof.
  intros Hg Hv. unfold apiVersionOf. destruct (objGroup obj) as [| c g] eqn:E.
  - simpl. by apply ToGVR_parsed, ParseGroupVersion_version.
  - change (0 <? String.length (String c g))%nat with true. cbv iota.
    by apply ToGVR_parsed, ParseGroupVersion_group_version.
Qed.

(** X28: [ToGVR] forms the resource name as [fastBackend.Setup] does, from
    the lower-cased kind followed by [s].  For a group and a version without
    slashes it returns that group and version, the core group for a version
    alone, and the parsing error for a string with more slashes.  For every
    seed object of a fast backend with a non-empty kind, the identity that
    [ToGVR] returns for its API version and kind is listed in the registry
    built by [Setup]; it is the identity under which the accurate backend
    seeds the object exactly when none of the plural rules for [y], [s] and
    [x] applies to the kind. *)
Theorem ToGVR_resource (kind : string) :
  (forall g v,
     has_char "/" g = false -> has_char "/" v = false ->
     ToGVR (g +:+ "/" +:+ v) kind = Ok (GVR g v (GoStrings.ToLower kind +:+ "s"))
     /\ ToGVR v kind = Ok (GVR "" v (GoStrings.ToLower kind +:+ "s"))
     /\ forall rest,
          ToGVR (g +:+ "/" +:+ v +:+ "/" +:+ rest) kind
          = Err ("unexpected GroupVersion string: "
                 +:+ (g +:+ "/" +:+ v +:+ "/" +:+ rest)))
  /\ (forall objects obj,
        obj ∈ objects -> objKind obj = kind -> kind <> "" ->
        has_char "/" (objGroup obj) = false -> has_char "/" (objVersion obj) = false ->
        exists gvr,
          ToGVR (apiVersionOf obj) kind = Ok gvr
          /\ gvr ∈ AllGVRs (fastBackend_discovery objects)
          /\ (gvr = (seedObject obj).1
              <-> ~ y_rule_code (GoStrings.ToLower kind)
                  /\ ~ EndsIn (GoStrings.ToLower kind) "s"
                  /\ ~ EndsIn (GoStrings.ToLower kind) "x")).
Proof.
  split.
  - intros g v Hg Hv. split; [| split].
    + by apply ToGVR_parsed, ParseGroupVersion_group_version.
    + by apply ToGVR_parsed, ParseGroupVersion_version.
    + intros rest. unfold ToGVR. by rewrite ParseGroupVersion_malformed.
  - intros objects obj Hin <- Hk Hg Hv. eexists. split; [by apply ToGVR_apiVersionOf |].
    split; [by apply foldl_register_listed |].
    unfold seedObject. simpl. rewrite <- fastBackend_resource_agrees. split.
    + by intros [= ->].
    + by intros ->.
Qed.

End Providing.

Lemma ToGVR_resource_witness :
  ToGVR "kyverno.io/v1" "Policy" = Ok (GVR "kyverno.io" "v1" "policys")
  /\ ToGVR "v1" "Pod" = Ok (GVR "" "v1" "pods").
Proof.
  destruct (ToGVR_resource "Policy") as [H1 _]. destruct (ToGVR_resource "Pod") as [H2 _].
  split.
  - exact (proj1 (H1 "kyverno.io" "v1" eq_refl eq_refl)).
  - exact (proj1 (proj2 (H2 "" "v1" eq_refl eq_refl))).
Defined.

Section Generating.

Context {Data Cluster : Type}.
Variable Create : Cluster -> Data -> Cluster * option string.
Variable SetNamespace : Data -> string -> Data.

Lemma createAll_cons (cluster : Cluster) (obj : Data) (objects : list Data) :
  createAll Create cluster (obj :: objects)
  = createAll Create (Create cluster obj).1 objects.
Proof. done. Qed.

(** X29: [GenerateResources] creates the objects in the order of the
    list and stops at the first failure, undoing nothing.  When it succeeds
    every object was created, each on the cluster left by the ones before
    it; when it fails, the objects before the failing one were created, the
    error is [failed to generate resource:] followed by the cause, and no
    later object is attempted.  With an empty namespace the data are created
    as they are. *)
Theorem GenerateResources_stops (cluster : Cluster) (namespace : string)
    (dataList : list Data) :
  let objects := map (generatedObject SetNamespace namespace) dataList in
  (namespace = "" -> objects = dataList)
  /\ (forall final,
        GenerateResources Create SetNamespace cluster namespace dataList = (final, None) ->
        final = createAll Create cluster objects
        /\ forall before obj after,
             objects = before ++ obj :: after ->
             (Create (createAll Create cluster before) obj).2 = None)
  /\ (forall final err,
        GenerateResources Create SetNamespace cluster namespace dataList
        = (final, Some err) ->
        exists before obj after cause,
          objects = before ++ obj :: after
          /\ (forall before' obj' after',
                before = before' ++ obj' :: after' ->
                (Create (createAll Create cluster before') obj').2 = None)
          /\ Create (createAll Create cluster before) obj = (final, Some cause)
          /\ err = "failed to generate resource: " +:+ cause).
Proof.
  cbv zeta. split; [| split].
  - intros ->. unfold generatedObject. simpl. apply map_id.
  - revert cluster. induction dataList as [| data rest IH]; intros cluster final;
      cbn [GenerateResources map].
    + intros [= <-]. split; [done |]. intros before obj after H. by destruct before.
    + destruct (Create cluster (generatedObject SetNamespace namespace data))
        as [cluster' [err |]] eqn:E; [intros [=] |].
      intros H. apply IH in H as [-> Hall]. rewrite createAll_cons, E. split; [done |].
      intros [| first before] obj after Hl.
      * injection Hl as <- _. unfold createAll. simpl. by rewrite E.
      * injection Hl as <- Hl. rewrite createAll_cons, E. by apply (Hall _ _ after).
  - revert cluster. induction dataList as [| data rest IH]; intros cluster final err;
      cbn [GenerateResources map].
    + intros [=].
    + destruct (Create cluster (generatedObject SetNamespace namespace data))
        as [cluster' [cause |]] eqn:E.
      * intros [= <- <-].
        exists [], (generatedObject SetNamespace namespace data),
          (map (generatedObject SetNamespace namespace) rest), cause.
        split; [done |]. split; [| done]. intros before' obj' after' H.
        by destruct before'.
      * intros H. apply IH in H as (before & obj & after & cause & Hl & Hall & Hc & ->).
        exists (generatedObject SetNamespace namespace data :: before), obj, after, cause.
        split; [by rewrite Hl |]. rewrite createAll_cons, E. split; [| done].
        intros [| first before'] obj' after' Hb.
        -- injection Hb as <- _. unfold createAll. simpl. by rewrite E.
        -- injection Hb as <- Hb. rewrite createAll_cons, E. by apply (Hall _ _ after').
Qed.

End Generating.

Lemma GenerateResources_stops_witness :
  GenerateResources createNamed (fun data _ => data) [] "" ["a"; "b"; "a"; "c"]
  = (["b"; "a"], Some "failed to generate resource: already exists").
Proof.
  destruct (GenerateResources createNamed (fun data _ => data) [] "" ["a"; "b"; "a"; "c"])
    as [final [err |]] eqn:E; [| by vm_compute in E].
  destruct (GenerateResources_stops createNamed (fun data _ => data) [] "" ["a"; "b"; "a"; "c"])
    as (_ & _ & H).
  destruct (H final err E) as (before & obj & after & cause & _ & _ & _ & ->).
  vm_compute in E. by injection E as <- <-.
Defined.

Section Locating.

Context {FS : Type}.
Variable process : Process.
Variable os : FileSystem FS.

Lemma getCacheDir_Ok (fs fs' : FS) (cache : string) :
  getCacheDir process os fs = (fs', Ok cache) ->
  exists home, UserHomeDir process = Ok home
               /\ cache = Join process [home; ".kyverno"; "envtest"]
               /\ MkdirAll os fs cache = (fs', None).
Proof.
  unfold getCacheDir. destruct (UserHomeDir process) as [home | err]; [| intros [=]].
  destruct (MkdirAll os fs (Join process [home; ".kyverno"; "envtest"]))
    as [fs1 [err |]] eqn:E; [intros [=] |].
  intros [= <- <-]. by exists home.
Qed.

Lemma binaryExists_true (fs : FS) (dir : string) :
  binaryExists process os fs dir = true
  <-> forall binary, binary ∈ ["kube-apiserver"; "etcd"] ->
        NotExist os fs
          (Join process [dir; binary +:+ (if String.eqb (GOOS process) "windows"
                                          then ".exe" else "")])
        = false.
Proof.
  unfold binaryExists. cbv zeta. rewrite forallb_forall. split.
  - intros H binary Hin. apply negb_true_iff, H. by apply list_elem_of_In.
  - intros H binary Hin. apply negb_true_iff, H. by apply list_elem_of_In.
Qed.

(** X30: [EnsureBinaries].  A non-empty directory in the environment
    variable that holds both binaries is returned at once, with no access to
    the cache.  A directory that is returned holds both binaries (with the
    suffix [.exe] on Windows), and is that directory or the one for the
    default version and the platform under the cache directory, which has
    then been created.  An error is that of the home directory, that of the
    creation of the cache directory, or the fixed text with the
    instructions.  The version of a binary manager plays no part in
    [GetBinaryDir]. *)
Theorem EnsureBinaries_found (fs : FS) :
  let customDir := Getenv process envtestBinEnvVar in
  (customDir <> "" -> binaryExists process os fs customDir = true ->
   EnsureBinaries process os fs = (fs, Ok customDir))
  /\ (forall fs' dir,
        EnsureBinaries process os fs = (fs', Ok dir) ->
        (forall binary, binary ∈ ["kube-apiserver"; "etcd"] ->
           NotExist os fs'
             (Join process [dir; binary +:+ (if String.eqb (GOOS process) "windows"
                                             then ".exe" else "")])
           = false)
        /\ ((dir = customDir /\ customDir <> "" /\ fs' = fs)
            \/ exists home,
                 UserHomeDir process = Ok home
                 /\ MkdirAll os fs (Join process [home; ".kyverno"; "envtest"])
                    = (fs', None)
                 /\ dir = Join process [Join process [home; ".kyverno"; "envtest"];
                                        "1.28.0";
                                        GOOS process +:+ "-" +:+ GOARCH process]))
  /\ (forall fs' err,
        EnsureBinaries process os fs = (fs', Err err) ->
        UserHomeDir process = Err err
        \/ (exists home,
              UserHomeDir process = Ok home
              /\ (MkdirAll os fs (Join process [home; ".kyverno"; "envtest"])
                  = (fs', Some err)
                  \/ (MkdirAll os fs (Join process [home; ".kyverno"; "envtest"])
                      = (fs', None)
                      /\ err = binariesNotFound (Join process [home; ".kyverno"; "envtest"])))))
  /\ (forall m version,
        GetBinaryDir process os (SetK8sVersion m version) fs
        = GetBinaryDir process os m fs).
Proof.
  cbv zeta. unfold EnsureBinaries. split; [| split; [| split]].
  - intros Hne Hex. rewrite Hex.
    by destruct (String.eqb_spec (Getenv process envtestBinEnvVar) "").
  - intros fs' dir.
    destruct (String.eqb_spec (Getenv process envtestBinEnvVar) "") as [He | Hne]; simpl.
    + destruct (getCacheDir process os fs) as [fs1 [cache | err]] eqn:Hc; [| intros [=]].
      destruct (binaryExists process os fs1 _) eqn:Hex; [| intros [=]].
      intros [= <- <-]. apply getCacheDir_Ok in Hc as (home & Hh & -> & Hm).
      split; [by apply binaryExists_true |]. right. by exists home.
    + destruct (binaryExists process os fs (Getenv process envtestBinEnvVar)) eqn:Hcustom.
      * intros [= <- <-]. split; [by apply binaryExists_true |]. by left.
      * destruct (getCacheDir process os fs) as [fs1 [cache | err]] eqn:Hc; [| intros [=]].
        destruct (binaryExists process os fs1 _) eqn:Hex; [| intros [=]].
        intros [= <- <-]. apply getCacheDir_Ok in Hc as (home & Hh & -> & Hm).
        split; [by apply binaryExists_true |]. right. by exists home.
  - intros fs' err.
    destruct (negb (String.eqb (Getenv process envtestBinEnvVar) "")
              && binaryExists process os fs (Getenv process envtestBinEnvVar));
      [intros [=] |].
    unfold getCacheDir. destruct (UserHomeDir process) as [home | herr].
    + destruct (MkdirAll os fs (Join process [home; ".kyverno"; "envtest"]))
        as [fs1 [merr |]] eqn:E.
      * intros [= <- <-]. right. exists home. split; [done |]. by left.
      * destruct (binaryExists process os fs1 _); [intros [=] |].
        intros [= <- <-]. right. exists home. split; [done |]. by right.
    + intros [= <- <-]. by left.
  - done.
Qed.

End Locating.

Lemma EnsureBinaries_found_witness :
  EnsureBinaries (linuxProcess "/opt/assets") listedPaths
                 ["/opt/assets/etcd"; "/opt/assets/kube-apiserver"]
  = (["/opt/assets/etcd"; "/opt/assets/kube-apiserver"], Ok "/opt/assets").
Proof.
  destruct (EnsureBinaries_found (linuxProcess "/opt/assets") listedPaths
              ["/opt/assets/etcd"; "/opt/assets/kube-apiserver"]) as [H _].
  apply H; [done | by vm_compute].
Defined.
